(** * pycloudlib: lifecycle operations of the LXD, GCE and EC2 back ends

    A shallow embedding of

      - [pycloudlib/lxd/instance.py]  ([LXDInstance]: [state], [ephemeral],
        [start], [shutdown], [restart]),
      - [pycloudlib/gce/cloud.py]     ([GCE._wait_for_operation], [GCE.launch]),
      - [pycloudlib/ec2/cloud.py]     ([EC2.get_or_create_vpc], [EC2.launch],
        [EC2.snapshot]),

    together with the properties of these operations.

    Python code that talks to a provider is embedded in a state-and-exception
    monad: a computation takes the state of the world (the provider, the
    commands issued so far, the logger output, the clock) and gives back an
    outcome and the new world.  A raised exception keeps the world it was
    raised in, as in Python.  The providers themselves (the [lxc] binary, the
    Google compute API, boto3) are parameters of the development. *)

From stdpp Require Import base gmap strings list fin_maps.
From Stdlib Require Import ZArith Ascii.

Local Open Scope Z_scope.
Local Set Warnings "-register-all".

(** ** Python values, exceptions and the effect monad *)

Module Py.

(** The JSON-like values that travel between pycloudlib and a provider. *)
Inductive pyval : Type :=
| PNone
| PBool (b : bool)
| PInt (z : Z)
| PStr (s : string)
| PList (l : list pyval)
| PDict (items : list (string * pyval)).

(** A top-level Python [dict] with string keys. *)
Abbreviation dict := (gmap string pyval).

(** The exceptions the embedded code raises or lets through. *)
Inductive exn : Type :=
| KeyError (key : string)
| IndexError
| TypeError
| ValueError
| RuntimeError (msg : string)
| Exception (payload : pyval)
| ProviderError (msg : string).

(** How a call ends.  [OutOfFuel] is not a Python outcome: it marks a run of a
    [while True] loop that was cut after the given number of iterations and
    had not finished by then. *)
Inductive outcome (A : Type) : Type :=
| Ret (a : A)
| Raise (e : exn)
| OutOfFuel.
Arguments Ret {A} a.
Arguments Raise {A} e.
Arguments OutOfFuel {A}.

Definition M (W A : Type) : Type := W → outcome A * W.

Definition ret {W A} (a : A) : M W A := λ w, (Ret a, w).
Definition raise {W A} (e : exn) : M W A := λ w, (Raise e, w).
Definition lift {W A} (o : outcome A) : M W A := λ w, (o, w).

Definition bind {W A B} (m : M W A) (k : A → M W B) : M W B :=
  λ w, match m w with
       | (Ret a, w') => k a w'
       | (Raise e, w') => (Raise e, w')
       | (OutOfFuel, w') => (OutOfFuel, w')
       end.

(** [try: body except <handled>: handler]. The handler receives only the
    exceptions it selects ([handles e = true]); the others propagate. *)
Definition try_except {W A} (body : M W A) (handles : exn → bool)
    (handler : M W A) : M W A :=
  λ w, match body w with
       | (Raise e, w') => if handles e then handler w' else (Raise e, w')
       | r => r
       end.

Definition is_IndexError (e : exn) : bool :=
  match e with IndexError => true | _ => false end.
Definition is_ValueError (e : exn) : bool :=
  match e with ValueError => true | _ => false end.

(** [l[0]] on a list. *)
Definition first_item {A} (l : list A) : outcome A :=
  match l with
  | x :: _ => Ret x
  | [] => Raise IndexError
  end.

(** [d[key]] on a top-level dict. *)
Definition getitem (d : dict) (key : string) : outcome pyval :=
  match d !! key with
  | Some v => Ret v
  | None => Raise (KeyError key)
  end.

(** [key in d]. *)
Definition contains (d : dict) (key : string) : bool :=
  bool_decide (is_Some (d !! key)).

Fixpoint assoc (items : list (string * pyval)) (key : string) : option pyval :=
  match items with
  | [] => None
  | (k, v) :: rest => if String.eqb k key then Some v else assoc rest key
  end.

(** [v[key]] on a nested value. *)
Definition subscript_key (v : pyval) (key : string) : outcome pyval :=
  match v with
  | PDict items =>
      match assoc items key with
      | Some x => Ret x
      | None => Raise (KeyError key)
      end
  | _ => Raise TypeError
  end.

(** [v[0]] on a nested value. *)
Definition subscript_0 (v : pyval) : outcome pyval :=
  match v with
  | PList l => first_item l
  | PStr (String c _) => Ret (PStr (String c EmptyString))
  | PStr EmptyString => Raise IndexError
  | PDict _ => Raise (KeyError "0")
  | _ => Raise TypeError
  end.

(** [v == s] for a string literal [s]. *)
Definition eq_str (v : pyval) (s : string) : bool :=
  match v with
  | PStr t => String.eqb t s
  | _ => false
  end.

(** Truth value of an optional string argument ([None] and [''] are false). *)
Definition truthy_str (o : option string) : bool :=
  match o with
  | Some (String _ _) => true
  | _ => false
  end.

(** [pycloudlib.key.KeyPair], as far as the clouds read it. *)
Record KeyPair : Type := {
  key_name : string;
  public_key_content : string;
}.

Module Import Notations.
Notation "x <- m ;; k" := (bind m (λ x, k))
  (at level 100, m at next level, right associativity).
Notation "m ;;; k" := (bind m (λ _, k))
  (at level 100, right associativity).
End Notations.

End Py.

Import Py Py.Notations.

(** ** Text scanning used by the LXD status parser

    The two patterns given to [re.findall] are the literal keys ['Status: ']
    and ['Type: '], each followed by one group that holds a greedy dot-star.
    The key holds no regular-expression operator, and the dot matches every
    character but a line feed, so a match is an occurrence of the key and its
    group is the rest of that line.  [findall] scans from the left and
    resumes after each match. *)

Module Re.

Local Arguments String.append !_ _ / : simpl nomatch.

Definition newline : ascii := "010"%char.

(** The text matched by a greedy dot-star at the front of [s]. *)
Fixpoint dot_star (s : string) : string :=
  match s with
  | EmptyString => EmptyString
  | String c s' =>
      if Ascii.eqb c newline then EmptyString else String c (dot_star s')
  end.

(** [s] without the literal [key] at its front, if it starts with it. *)
Fixpoint strip_prefix (key s : string) : option string :=
  match key, s with
  | EmptyString, _ => Some s
  | String _ _, EmptyString => None
  | String a key', String b s' =>
      if Ascii.eqb a b then strip_prefix key' s' else None
  end.

(** [findall_from key skip text]: the groups of the matches of the pattern
    (key, then a greedy dot-star group) in [text], where the first [skip]
    characters belong to a match already reported. *)
Fixpoint findall_from (key : string) (skip : nat) (text : string) : list string :=
  match text with
  | EmptyString =>
      match skip, strip_prefix key text with
      | O, Some after => [dot_star after]
      | _, _ => []
      end
  | String _ rest =>
      match skip with
      | S k => findall_from key k rest
      | O =>
          match strip_prefix key text with
          | Some after =>
              let v := dot_star after in
              v :: findall_from key (String.length key + String.length v - 1) rest
          | None => findall_from key 0 rest
          end
      end
  end.

Definition findall (key text : string) : list string := findall_from key 0 text.

(** [key] occurs in [s]. *)
Definition occurs (key s : string) : Prop := ∃ a b, s = a +:+ key +:+ b.

(** [s = pre ++ key ++ ...] and no occurrence of [key] starts earlier. *)
Definition first_at (key pre s : string) : Prop :=
  ∀ a b, s = a +:+ key +:+ b → (String.length pre ≤ String.length a)%nat.

(** [v] is a whole rest-of-line: no line feed inside, and the text goes on
    with a line feed or ends. *)
Fixpoint no_newline (v : string) : bool :=
  match v with
  | EmptyString => true
  | String c v' => negb (Ascii.eqb c newline) && no_newline v'
  end.

Definition line_end (post : string) : bool :=
  match post with
  | EmptyString => true
  | String c _ => Ascii.eqb c newline
  end.

(** The position of the leftmost occurrence of [key] in [text], counted
    from [n] (Python's [str.find], with [None] for [-1]). *)
Fixpoint find_from (key text : string) (n : nat) : option nat :=
  match strip_prefix key text with
  | Some _ => Some n
  | None =>
      match text with
      | EmptyString => None
      | String _ rest => find_from key rest (S n)
      end
  end.

Definition find (key text : string) : option nat := find_from key text 0.

End Re.

(** ** [pycloudlib/lxd/instance.py] *)

Module LXD.

(** What an [LXDInstance] method can touch: the LXD daemon behind the [lxc]
    binary, the command lines the method handed to [subp], and the messages
    it gave to [self._log.debug]. *)
Record World (B : Type) : Type := mkWorld {
  backend : B;
  commands : list (list string);
  debug_log : list string;
}.
Arguments mkWorld {B} _ _ _.
Arguments backend {B} _.
Arguments commands {B} _.
Arguments debug_log {B} _.

Record LXDInstance : Type := { _name : string }.

Section Instance.
Context {B : Type}.

(** [pycloudlib.util.subp] on an [lxc] command line: the text the command
    wrote, or an exception; the daemon may change. *)
Variable run : list string → B → outcome string * B.

(** [BaseInstance._wait_for_system], which blocks until the guest is up. *)
Variable _wait_for_system : B → outcome unit * B.

Definition subp (args : list string) : M (World B) string :=
  λ w, let '(r, b) := run args (backend w) in
       (r, mkWorld b (commands w ++ [args]) (debug_log w)).

Definition _log_debug (msg : string) : M (World B) unit :=
  λ w, (Ret tt, mkWorld (backend w) (commands w) (debug_log w ++ [msg])).

Definition name (self : LXDInstance) : string := _name self.

(** The [ephemeral] property. *)
Definition ephemeral (self : LXDInstance) : M (World B) bool :=
  result <- subp ["lxc"; "info"; name self] ;;
  found <- try_except
             (info_type <- lift (first_item (Re.findall "Type: " result)) ;;
              ret (Some info_type))
             is_IndexError
             (ret None) ;;
  match found with
  | None => ret false
  | Some info_type => ret (String.eqb info_type "ephemeral")
  end.

(** The [state] property. *)
Definition state (self : LXDInstance) : M (World B) string :=
  result <- subp ["lxc"; "info"; name self] ;;
  try_except
    (lift (first_item (Re.findall "Status: " result)))
    is_IndexError
    (ret "Unknown").

(** "Not used for LXD": the body is only a docstring. *)
Definition wait_for_stop (self : LXDInstance) : M (World B) unit := ret tt.

Definition wait (self : LXDInstance) : M (World B) unit :=
  λ w, let '(r, b) := _wait_for_system (backend w) in
       (r, mkWorld b (commands w) (debug_log w)).

Definition shutdown (self : LXDInstance) (wait : bool) : M (World B) unit :=
  st <- state self ;;
  if String.eqb st "Stopped" then ret tt
  else
    _log_debug ("shutting down " +:+ name self) ;;;
    _ <- subp ["lxc"; "stop"; name self; "--force"] ;;
    if wait then wait_for_stop self else ret tt.

Definition start (self : LXDInstance) (wait_ : bool) : M (World B) unit :=
  st <- state self ;;
  if String.eqb st "Running" then ret tt
  else
    _log_debug ("starting " +:+ name self) ;;;
    _ <- subp ["lxc"; "start"; name self] ;;
    if wait_ then wait self else ret tt.

Definition restart (self : LXDInstance) (wait_ : bool) : M (World B) unit :=
  _log_debug ("restarting " +:+ name self) ;;;
  shutdown self true ;;;
  start self wait_.

(** The words of the specification for [restart]: a call of [shutdown]
    (which waits for the stopped state) followed by a call of [start]. *)
Definition shutdown_then_start (self : LXDInstance) (wait_ : bool)
    : M (World B) unit :=
  shutdown self true ;;;
  start self wait_.

(** The world after the status query [lxc info <name>] answered and left the
    daemon in [b']. *)
Definition queried (self : LXDInstance) (w : World B) (b' : B) : World B :=
  mkWorld b' (commands w ++ [["lxc"; "info"; name self]]) (debug_log w).

(** Two worlds that differ at most in the debug log. *)
Definition agree (w1 w2 : World B) : Prop :=
  backend w1 = backend w2 ∧ commands w1 = commands w2.

(** A computation that does not read the debug log: from worlds that agree
    it ends the same way, in worlds that agree. *)
Definition blind {A} (m : M (World B) A) : Prop :=
  ∀ w1 w2, agree w1 w2 → (m w1).1 = (m w2).1 ∧ agree (m w1).2 (m w2).2.

(** What a caller or the provider can tell apart after a call: how it
    ended, the daemon, and the command lines issued.  The debug log is
    left out. *)
Definition observable {A} (r : outcome A * World B)
    : outcome A * B * list (list string) :=
  (r.1, backend r.2, commands r.2).

End Instance.

(** A small daemon with one container, used to run the methods: its state is
    the container's status word. *)
Module Daemon.

Definition info_text (n status : string) : string :=
  "Name: " +:+ n +:+ String Re.newline ("Status: " +:+ status +:+
    String Re.newline ("Type: persistent" +:+ String Re.newline "")).

Definition run (args : list string) (status : string) : outcome string * string :=
  match args with
  | ["lxc"; "info"; n] => (Ret (info_text n status), status)
  | ["lxc"; "start"; _] => (Ret "", "Running")
  | ["lxc"; "stop"; _; "--force"] => (Ret "", "Stopped")
  | _ => (Raise (ProviderError "unknown command"), status)
  end.

Definition _wait_for_system (status : string) : outcome unit * string :=
  (Ret tt, status).

(** An [lxc] whose output has none of the fields. *)
Definition run_silent (args : list string) (status : string)
    : outcome string * string :=
  (Ret "", status).

Definition inst : LXDInstance := {| _name := "c1" |}.

Definition world (status : string) : World string := mkWorld status [] [].

End Daemon.

End LXD.

(** ** [pycloudlib/gce/cloud.py] *)

Module GCE.

(** The calls of the Google compute client that [GCE] makes, each already
    followed by [.execute()]: the answer (or the exception of the HTTP
    layer) and the service after the call. *)
Record Compute (B : Type) : Type := {
  instances_insert : string → string → dict → B → outcome dict * B;
  zoneOperations_get : string → string → pyval → B → outcome dict * B;
  instances_get : string → string → string → B → outcome dict * B;
}.
Arguments instances_insert {B} _ _ _ _ _.
Arguments zoneOperations_get {B} _ _ _ _ _.
Arguments instances_get {B} _ _ _ _ _.

(** The fields of a [GCE] object after [__init__]; [zone] is already the
    joined region and zone. *)
Record GCE (B : Type) : Type := {
  compute : Compute B;
  project : string;
  region : string;
  zone : string;
  tag : string;
  key_pair : KeyPair;
}.
Arguments compute {B} _.
Arguments project {B} _.
Arguments region {B} _.
Arguments zone {B} _.
Arguments tag {B} _.
Arguments key_pair {B} _.

(** The service, the seconds spent in [time.sleep], and the logger output
    (level and message). *)
Record World (B : Type) : Type := mkWorld {
  backend : B;
  clock : Z;
  log : list (string * pyval);
}.
Arguments mkWorld {B} _ _ _.
Arguments backend {B} _.
Arguments clock {B} _.
Arguments log {B} _.

Section Cloud.
Context {B : Type}.

Definition sleep (seconds : Z) : M (World B) unit :=
  λ w, (Ret tt, mkWorld (backend w) (clock w + seconds) (log w)).

Definition _log (level : string) (msg : pyval) : M (World B) unit :=
  λ w, (Ret tt, mkWorld (backend w) (clock w) (log w ++ [(level, msg)])).

(** A call of the compute client: only the service changes. *)
Definition call {A} (f : B → outcome A * B) : M (World B) A :=
  λ w, let '(r, b) := f (backend w) in (r, mkWorld b (clock w) (log w)).

(** [_wait_for_operation]. The source loops on [while True]; [fuel] bounds
    the number of iterations that are run, and a run that needs more ends
    in [OutOfFuel]. *)
Fixpoint _wait_for_operation (self : GCE B) (operation : dict) (fuel : nat)
    : M (World B) dict :=
  match fuel with
  | O => lift OutOfFuel
  | S fuel' =>
      sleep 5 ;;;
      op_name <- lift (getitem operation "name") ;;
      result <- call (zoneOperations_get (compute self)
                        (project self) (zone self) op_name) ;;
      status <- lift (getitem result "status") ;;
      if eq_str status "DONE" then
        if contains result "error" then
          err <- lift (getitem result "error") ;;
          raise (Exception err)
        else ret result
      else _wait_for_operation self operation fuel'
  end.

(** The instance description that [launch] submits. *)
Definition config (self : GCE B) (image_id instance_type : string) : dict :=
  {[ "name" := PStr (tag self);
     "machineType" :=
       PStr ("zones/" +:+ zone self +:+ "/machineTypes/" +:+ instance_type);
     "disks" :=
       PList [PDict [("boot", PBool true);
                     ("autoDelete", PBool true);
                     ("initializeParams",
                       PDict [("sourceImage", PStr image_id)])]];
     "networkInterfaces" :=
       PList [PDict [("network", PStr "global/networks/default");
                     ("accessConfigs",
                       PList [PDict [("type", PStr "ONE_TO_ONE_NAT");
                                     ("name", PStr "External NAT")]])]];
     "metadata" :=
       PDict [("items",
                PList [PDict [("key", PStr "ssh-keys");
                              ("value",
                                PStr ("admin:" +:+
                                      public_key_content (key_pair self)))]])]
  ]}.

(** [launch]. Neither [wait] nor [kwargs] is read by the body, and the body
    ends without a [return] statement: the call evaluates to [None]. *)
Definition launch (self : GCE B) (image_id instance_type : string)
    (user_data : option string) (wait : bool) (kwargs : dict) (fuel : nat)
    : M (World B) pyval :=
  (if truthy_str user_data
   then _log "warning" (PStr "GCE platform does not support user-data")
   else ret tt) ;;;
  operation <- call (instances_insert (compute self) (project self) (zone self)
                       (config self image_id instance_type)) ;;
  _ <- _wait_for_operation self operation fuel ;;
  result <- call (instances_get (compute self)
                    (project self) (zone self) (tag self)) ;;
  nics <- lift (getitem result "networkInterfaces") ;;
  nic <- lift (subscript_0 nics) ;;
  access_configs <- lift (subscript_key nic "accessConfigs") ;;
  access_config <- lift (subscript_0 access_configs) ;;
  nat_ip <- lift (subscript_key access_config "natIP") ;;
  _log "info" nat_ip ;;;
  ret PNone.

End Cloud.

(** [n] polls that answer with a status other than ['DONE'], then a poll
    that answers [d] with status ['DONE'], leaving the service in [b']. *)
Inductive polls_to_done {B : Type} (get : B → outcome dict * B)
    : B → nat → dict → B → Prop :=
| done_now b d b' status :
    get b = (Ret d, b') →
    d !! "status" = Some status →
    eq_str status "DONE" = true →
    polls_to_done get b 0 d b'
| done_later b d0 b0 status n d b' :
    get b = (Ret d0, b0) →
    d0 !! "status" = Some status →
    eq_str status "DONE" = false →
    polls_to_done get b0 n d b' →
    polls_to_done get b (S n) d b'.

(** A set of service states in which a poll answers with a status other
    than ['DONE'] and stays in the set: the operation never completes. *)
Definition never_done {B : Type} (get : B → outcome dict * B)
    (pending : B → Prop) : Prop :=
  ∀ b, pending b →
    ∃ d b' status,
      get b = (Ret d, b') ∧ d !! "status" = Some status ∧
      eq_str status "DONE" = false ∧ pending b'.

(** A service for running the code: its state is the number of polls that
    still answer ['RUNNING']; [None] is an operation that never completes.
    The completed operation carries [final]. *)
Module Service.

Definition running : dict := {[ "status" := PStr "RUNNING" ]}.

Definition poll (final : dict) (b : option nat) : outcome dict * option nat :=
  match b with
  | None => (Ret running, None)
  | Some (S n) => (Ret running, Some n)
  | Some O => (Ret final, Some O)
  end.

Definition instance_view : dict :=
  {[ "name" := PStr "vm";
     "networkInterfaces" :=
       PList [PDict [("accessConfigs",
                       PList [PDict [("natIP", PStr "203.0.113.7")]])]] ]}.

Definition client (final : dict) : Compute (option nat) := {|
  instances_insert := λ _ _ _ b, (Ret {[ "name" := PStr "operation-1" ]}, b);
  zoneOperations_get := λ _ _ _ b, poll final b;
  instances_get := λ _ _ _ b, (Ret instance_view, b);
|}.

Definition cloud (final : dict) : GCE (option nat) := {|
  compute := client final;
  project := "proj";
  region := "us-central1";
  zone := "us-central1-a";
  tag := "vm";
  key_pair := {| key_name := "vm"; public_key_content := "ssh-rsa AAAA" |};
|}.

Definition done_ok : dict := {[ "status" := PStr "DONE" ]}.
Definition done_failed : dict :=
  {[ "status" := PStr "DONE";
     "error" := PDict [("errors", PList [PStr "QUOTA_EXCEEDED"])] ]}.

Definition world (b : option nat) : World (option nat) := mkWorld b 0 [].

End Service.

End GCE.

(** ** [pycloudlib/ec2/cloud.py] *)

Module EC2.

(** A boto3 [ec2.Instance] resource, as far as the cloud reads it. *)
Record BotoInstance : Type := {
  instance_id : string;
  instance_image_id : string;
}.

(** [EC2Instance(client, key_pair, instance)]: the handle keeps the key pair
    and the boto3 resource it was built from. *)
Record EC2Instance : Type := {
  instance_key_pair : KeyPair;
  _instance : BotoInstance;
}.

(** The [id] and [image_id] properties of the handle. *)
Definition id (i : EC2Instance) : string := instance_id (_instance i).
Definition image_id (i : EC2Instance) : string := instance_image_id (_instance i).

(** A [pycloudlib.ec2.vpc.VPC] object. *)
Record VPC : Type := { vpc_id : string }.

(** The requests that leave the cloud object, in the order they are made. *)
Inductive api_call : Type :=
| DescribeVpcs (name : string)
| VpcFromExisting (vpc : pyval)
| VpcCreate (name ipv4_cidr : string)
| SubnetsAll (vpc : VPC)
| SecurityGroupsAll (vpc : VPC)
| CreateInstances (args : dict)
| InstanceWait (i : EC2Instance)
| InstanceClean (i : EC2Instance)
| InstanceShutdown (i : EC2Instance) (wait : bool)
| InstanceStart (i : EC2Instance) (wait : bool)
| CreateImage (name instance : string)
| ImageWaitUntilExists (image : pyval)
| WaiterImageAvailable (image : pyval)
| ImageReload (image : pyval).

(** What stands behind those requests: boto3 ([client], [resource], the
    waiters) and the two classes of this package that wrap it, [VPC] and
    [EC2Instance].  Each entry gives the answer, or the exception, and the
    provider after the request. *)
Record Boto (B : Type) : Type := {
  describe_vpcs : string → B → outcome (list dict) * B;
  VPC_from_existing : pyval → B → outcome VPC * B;
  VPC_create : string → string → B → outcome VPC * B;
  subnets_all : VPC → B → outcome (list string) * B;
  security_groups_all : VPC → B → outcome (list string) * B;
  create_instances : dict → B → outcome (list BotoInstance) * B;
  instance_wait : EC2Instance → B → outcome unit * B;
  instance_clean : EC2Instance → B → outcome unit * B;
  instance_shutdown : EC2Instance → bool → B → outcome unit * B;
  instance_start : EC2Instance → bool → B → outcome unit * B;
  create_image : string → string → B → outcome dict * B;
  image_wait_until_exists : pyval → B → outcome unit * B;
  waiter_image_available : pyval → B → outcome unit * B;
  image_reload : pyval → B → outcome unit * B;
}.
Arguments describe_vpcs {B} _ _ _.
Arguments VPC_from_existing {B} _ _ _.
Arguments VPC_create {B} _ _ _ _.
Arguments subnets_all {B} _ _ _.
Arguments security_groups_all {B} _ _ _.
Arguments create_instances {B} _ _ _.
Arguments instance_wait {B} _ _ _.
Arguments instance_clean {B} _ _ _.
Arguments instance_shutdown {B} _ _ _ _.
Arguments instance_start {B} _ _ _ _.
Arguments create_image {B} _ _ _ _.
Arguments image_wait_until_exists {B} _ _ _.
Arguments waiter_image_available {B} _ _ _.
Arguments image_reload {B} _ _ _.

(** The fields of an [EC2] object after [__init__] and [use_key]. *)
Record EC2 (B : Type) : Type := {
  boto : Boto B;
  tag : string;
  key_pair : KeyPair;
}.
Arguments boto {B} _.
Arguments tag {B} _.
Arguments key_pair {B} _.

Record World (B : Type) : Type := mkWorld {
  backend : B;
  calls : list api_call;
  debug_log : list string;
}.
Arguments mkWorld {B} _ _ _.
Arguments backend {B} _.
Arguments calls {B} _.
Arguments debug_log {B} _.

Section Cloud.
Context {B : Type}.

(** Make the request [c], answered by [f]. *)
Definition invoke {A} (c : api_call) (f : B → outcome A * B) : M (World B) A :=
  λ w, let '(r, b) := f (backend w) in
       (r, mkWorld b (calls w ++ [c]) (debug_log w)).

Definition _log_debug (msg : string) : M (World B) unit :=
  λ w, (Ret tt, mkWorld (backend w) (calls w) (debug_log w ++ [msg])).

(** [get_or_create_vpc]. *)
Definition get_or_create_vpc (self : EC2 B) (name ipv4_cidr : string)
    : M (World B) VPC :=
  vpcs <- invoke (DescribeVpcs name) (describe_vpcs (boto self) name) ;;
  match vpcs with
  | vpc0 :: _ =>
      vid <- lift (getitem vpc0 "VpcId") ;;
      invoke (VpcFromExisting vid) (VPC_from_existing (boto self) vid)
  | [] =>
      invoke (VpcCreate name ipv4_cidr) (VPC_create (boto self) name ipv4_cidr)
  end.

(** [[x] = l]: unpacking into a one-element target. *)
Definition unpack_one {A} (l : list A) : outcome A :=
  match l with
  | [x] => Ret x
  | _ => Raise ValueError
  end.

(** The arguments [launch] assembles from its named parameters. *)
Definition base_args (self : EC2 B) (image_id instance_type : string) : dict :=
  {[ "ImageId" := PStr image_id;
     "InstanceType" := PStr instance_type;
     "KeyName" := PStr (key_name (key_pair self));
     "MaxCount" := PInt 1;
     "MinCount" := PInt 1;
     "TagSpecifications" :=
       PList [PDict [("ResourceType", PStr "instance");
                     ("Tags", PList [PDict [("Key", PStr "Name");
                                            ("Value", PStr (tag self))]])]]
  ]}.

(** [for key, value in kwargs.items(): args[key] = value].  The keys of
    [kwargs] are distinct, so the order of the loop does not show in the
    result. *)
Definition update_from (kwargs args : dict) : dict :=
  map_fold (λ key value acc, <[key := value]> acc) args kwargs.

Definition too_many_subnets (vpc : VPC) : string :=
  "Too many subnets in vpc " +:+ vpc_id vpc +:+
  ". pycloudlib does not support launching into VPCs with multiple subnets".

(** [launch]. *)
Definition launch (self : EC2 B) (image_id instance_type : string)
    (user_data : option string) (vpc : option VPC) (wait : bool)
    (kwargs : dict) : M (World B) EC2Instance :=
  let args := base_args self image_id instance_type in
  let args :=
    if truthy_str user_data
    then <["UserData" := PStr (default "" user_data)]> args
    else args in
  let args := update_from kwargs args in
  args <- match vpc with
          | Some vpc =>
              subnet_id <- try_except
                             (ids <- invoke (SubnetsAll vpc)
                                       (subnets_all (boto self) vpc) ;;
                              lift (unpack_one ids))
                             is_ValueError
                             (raise (RuntimeError (too_many_subnets vpc))) ;;
              let args := <["SubnetId" := PStr subnet_id]> args in
              sgs <- invoke (SecurityGroupsAll vpc)
                       (security_groups_all (boto self) vpc) ;;
              ret (<["SecurityGroupIds" := PList (PStr <$> sgs)]> args)
          | None => ret args
          end ;;
  _log_debug "launching instance" ;;;
  instances <- invoke (CreateInstances args) (create_instances (boto self) args) ;;
  instance0 <- lift (first_item instances) ;;
  let instance := {| instance_key_pair := key_pair self;
                     _instance := instance0 |} in
  (if wait then invoke (InstanceWait instance) (instance_wait (boto self) instance)
   else ret tt) ;;;
  ret instance.

(** [_wait_for_snapshot]. *)
Definition _wait_for_snapshot (self : EC2 B) (image : pyval) : M (World B) unit :=
  invoke (ImageWaitUntilExists image) (image_wait_until_exists (boto self) image) ;;;
  invoke (WaiterImageAvailable image) (waiter_image_available (boto self) image) ;;;
  invoke (ImageReload image) (image_reload (boto self) image).

(** [snapshot]. *)
Definition snapshot (self : EC2 B) (instance : EC2Instance) (clean : bool)
    : M (World B) pyval :=
  (if clean
   then invoke (InstanceClean instance) (instance_clean (boto self) instance)
   else ret tt) ;;;
  invoke (InstanceShutdown instance true)
    (instance_shutdown (boto self) instance true) ;;;
  _log_debug ("creating custom ami from instance " +:+ id instance) ;;;
  let image_name := tag self +:+ "-" +:+ image_id instance in
  response <- invoke (CreateImage image_name (id instance))
                (create_image (boto self) image_name (id instance)) ;;
  image_ami_edited <- lift (getitem response "ImageId") ;;
  let image := image_ami_edited in
  _wait_for_snapshot self image ;;;
  invoke (InstanceStart instance true)
    (instance_start (boto self) instance true) ;;;
  ret image.

(** The arguments of the [create_instances] request of [launch], given what
    the vpc (if any) answered: its one subnet and its security groups. *)
Definition request (self : EC2 B) (image_id instance_type : string)
    (user_data : option string) (kwargs : dict)
    (net : option (string * list string)) : dict :=
  let args := base_args self image_id instance_type in
  let args :=
    if truthy_str user_data
    then <["UserData" := PStr (default "" user_data)]> args
    else args in
  let args := update_from kwargs args in
  match net with
  | Some (subnet_id, sgs) =>
      <["SecurityGroupIds" := PList (PStr <$> sgs)]>
        (<["SubnetId" := PStr subnet_id]> args)
  | None => args
  end.

(** The requests of a snapshot up to and including the capture. *)
Definition up_to_capture (self : EC2 B) (instance : EC2Instance) (clean : bool)
    : list api_call :=
  (if clean then [InstanceClean instance] else []) ++
  [InstanceShutdown instance true;
   CreateImage (tag self +:+ "-" +:+ image_id instance) (id instance)].

(** How many VPCs a sequence of requests creates. *)
Fixpoint creations (cs : list api_call) : nat :=
  match cs with
  | [] => 0
  | VpcCreate _ _ :: cs' => S (creations cs')
  | _ :: cs' => creations cs'
  end.

(** Modelled from the spec: [VPC.create] and [VPC.from_existing] of
    [pycloudlib/ec2/vpc.py] and the provider's [describe_vpcs].  A network
    is "created, looked up by name" and "referenced by id": listing the
    VPCs of a name and attaching to a listed one change nothing at the
    provider, attaching to a listed id gives the VPC of that id, and a VPC
    created under a name that had none is listed under that name. *)
Record looked_up_by_name (api : Boto B) : Prop := {
  describe_reads : ∀ name b r b',
    describe_vpcs api name b = (r, b') → b' = b;
  from_existing_reads : ∀ vid b r b',
    VPC_from_existing api vid b = (r, b') → b' = b;
  from_existing_listed : ∀ name b entry rest s,
    describe_vpcs api name b = (Ret (entry :: rest), b) →
    entry !! "VpcId" = Some (PStr s) →
    VPC_from_existing api (PStr s) b = (Ret {| vpc_id := s |}, b);
  create_listed : ∀ name ipv4_cidr b v b',
    describe_vpcs api name b = (Ret [], b) →
    VPC_create api name ipv4_cidr b = (Ret v, b') →
    ∃ entry rest,
      describe_vpcs api name b' = (Ret (entry :: rest), b') ∧
      entry !! "VpcId" = Some (PStr (vpc_id v));
}.

End Cloud.

(** A provider for running the code.  It keeps the VPCs with their [Name]
    tag, the subnets and security groups every VPC answers with, whether
    the instance runs, and whether an image capture is going to fail. *)
Module Provider.

Record state : Type := mkState {
  vpcs : list (string * string);
  subnets : list string;
  groups : list string;
  running : bool;
  capture_fails : bool;
}.

Definition vpc_entry (p : string * string) : dict := {[ "VpcId" := PStr p.1 ]}.

Definition named (name : string) (p : string * string) : bool :=
  String.eqb p.2 name.

Definition set_running (r : bool) (st : state) : state :=
  mkState (vpcs st) (subnets st) (groups st) r (capture_fails st).

Definition add_vpc (p : string * string) (st : state) : state :=
  mkState (vpcs st ++ [p]) (subnets st) (groups st) (running st)
    (capture_fails st).

Definition image_of (args : dict) : string :=
  match args !! "ImageId" with
  | Some (PStr s) => s
  | _ => ""
  end.

Definition api : Boto state := {|
  describe_vpcs := λ name st,
    (Ret (vpc_entry <$> List.filter (named name) (vpcs st)), st);
  VPC_from_existing := λ vid st,
    match vid with
    | PStr s => (Ret {| vpc_id := s |}, st)
    | _ => (Raise TypeError, st)
    end;
  VPC_create := λ name _ st,
    (Ret {| vpc_id := "vpc-" +:+ name |}, add_vpc ("vpc-" +:+ name, name) st);
  subnets_all := λ _ st, (Ret (subnets st), st);
  security_groups_all := λ _ st, (Ret (groups st), st);
  create_instances := λ args st,
    (Ret [{| instance_id := "i-0001"; instance_image_id := image_of args |}],
     set_running true st);
  instance_wait := λ _ st, (Ret tt, st);
  instance_clean := λ _ st, (Ret tt, st);
  instance_shutdown := λ _ _ st, (Ret tt, set_running false st);
  instance_start := λ _ _ st, (Ret tt, set_running true st);
  create_image := λ _ _ st,
    if capture_fails st
    then (Raise (ProviderError "capture failed"), st)
    else (Ret {[ "ImageId" := PStr "ami-snapshot" ]}, st);
  image_wait_until_exists := λ _ st, (Ret tt, st);
  waiter_image_available := λ _ st, (Ret tt, st);
  image_reload := λ _ st, (Ret tt, st);
|}.

Definition cloud : EC2 state := {|
  boto := api;
  tag := "examples";
  key_pair := {| key_name := "examples"; public_key_content := "ssh-rsa AAAA" |};
|}.

Definition world (st : state) : World state := mkWorld st [] [].

(** No VPC yet, one subnet and one security group per VPC, a running
    instance; captures succeed in [fresh] and fail in [failing]. *)
Definition fresh : state := mkState [] ["subnet-a"] ["sg-1"] true false.
Definition failing : state := mkState [] ["subnet-a"] ["sg-1"] true true.

Definition handle : EC2Instance := {|
  instance_key_pair := key_pair cloud;
  _instance := {| instance_id := "i-0001"; instance_image_id := "ami-base" |};
|}.

End Provider.

End EC2.

(** ** More of Python's [str] *)

Module Str.

(** The characters [str.split()] takes for white space, among those of
    ASCII text: tab, line feed, vertical tab, form feed, carriage return,
    the four separators 28 to 31, and the space. *)
Definition is_space (c : ascii) : bool :=
  let n := nat_of_ascii c in
  ((9 <=? n) && (n <=? 13) || (28 <=? n) && (n <=? 32))%nat.

(** Whether every character of [s] is below 128.  On such text [split]
    below is Python's; other text may hold white space [split] does not
    know. *)
Fixpoint is_ascii (s : string) : bool :=
  match s with
  | EmptyString => true
  | String c s' => (nat_of_ascii c <? 128)%nat && is_ascii s'
  end.

Fixpoint all_space (s : string) : bool :=
  match s with
  | EmptyString => true
  | String c s' => is_space c && all_space s'
  end.

Fixpoint no_space (s : string) : bool :=
  match s with
  | EmptyString => true
  | String c s' => negb (is_space c) && no_space s'
  end.

(** Whether a token ends in front of [s]: [s] is empty or starts with white
    space. *)
Definition token_end (s : string) : bool :=
  match s with
  | EmptyString => true
  | String c _ => is_space c
  end.

(** [s.split()]: the maximal runs of characters that are not white space. *)
Fixpoint split (s : string) : list string :=
  match s with
  | EmptyString => []
  | String c s' =>
      if is_space c then split s'
      else if token_end s' then String c EmptyString :: split s'
      else match split s' with
           | tok :: toks => String c tok :: toks
           | [] => [String c EmptyString]
           end
  end.

(** [s[0]] on a string. *)
Definition char0 (s : string) : outcome ascii :=
  match s with
  | String c _ => Ret c
  | EmptyString => Raise IndexError
  end.

End Str.

(** ** The rest of [pycloudlib/lxd/instance.py] *)

Module LXD_rest.
Import LXD.

Section Instance.
Context {B : Type}.

(** [pycloudlib.util.subp] on an [lxc] command line, as in [LXD]. *)
Variable run : list string → B → outcome string * B.

(** [BaseInstance.execute] on a command given as a string: what the command
    wrote, as the [Result] string. *)
Variable execute : string → B → outcome string * B.

(** [BaseInstance.clean]. *)
Variable clean : B → outcome unit * B.

(** A method of [BaseInstance]: only the daemon changes. *)
Definition base {A} (f : B → outcome A * B) : M (World B) A :=
  λ w, let '(r, b) := f (backend w) in
       (r, mkWorld b (commands w) (debug_log w)).

(** [__repr__]. *)
Definition __repr__ (self : LXDInstance) : string :=
  "LXDInstance(name=" +:+ name self +:+ ")".

(** The [ip] property. *)
Definition ip (self : LXDInstance) : M (World B) string :=
  let command := "lxc list " +:+ name self +:+ " -c 4 --format csv" in
  result <- subp run (Str.split command) ;;
  lift (first_item (Str.split result)).

(** [console_log]. *)
Definition console_log (self : LXDInstance) : M (World B) string :=
  _log_debug ("getting console log for " +:+ name self) ;;;
  subp run ["lxc"; "console"; name self; "--show-log"].

(** "Not used for LXD": the body is only a docstring. *)
Definition wait_for_delete (self : LXDInstance) : M (World B) unit := ret tt.

(** [delete]. *)
Definition delete (self : LXDInstance) (wait : bool) : M (World B) unit :=
  _log_debug ("deleting " +:+ name self) ;;;
  _ <- subp run ["lxc"; "delete"; name self; "--force"] ;;
  if wait then wait_for_delete self else ret tt.

(** [delete_snapshot]. *)
Definition delete_snapshot (self : LXDInstance) (snapshot_name : string)
    : M (World B) unit :=
  _log_debug ("deleting snapshot " +:+ name self +:+ "/" +:+ snapshot_name) ;;;
  _ <- subp run ["lxc"; "delete"; name self +:+ "/" +:+ snapshot_name] ;;
  ret tt.

(** [edit]. *)
Definition edit (self : LXDInstance) (key value : string) : M (World B) unit :=
  _log_debug ("editing " +:+ name self +:+ " with " +:+ key +:+ "=" +:+ value) ;;;
  _ <- subp run ["lxc"; "config"; "set"; name self; key; value] ;;
  ret tt.

(** The first lines of [pull_file] and [push_file] after the debug message:
    a remote path that does not start with a slash is put under the
    directory the guest answers [pwd] with. *)
Definition absolute (remote_path : string) : M (World B) string :=
  first <- lift (Str.char0 remote_path) ;;
  if negb (Ascii.eqb first "/") then
    remote_pwd <- base (execute "pwd") ;;
    let remote_path := remote_pwd +:+ "/" +:+ remote_path in
    _log_debug ("Absolute remote path: " +:+ remote_path) ;;;
    ret remote_path
  else ret remote_path.

(** [pull_file]. *)
Definition pull_file (self : LXDInstance) (remote_path local_path : string)
    : M (World B) unit :=
  _log_debug ("pulling file " +:+ remote_path +:+ " to " +:+ local_path) ;;;
  remote_path <- absolute remote_path ;;
  _ <- subp run ["lxc"; "file"; "pull"; name self +:+ remote_path; local_path] ;;
  ret tt.

(** [push_file]. *)
Definition push_file (self : LXDInstance) (local_path remote_path : string)
    : M (World B) unit :=
  _log_debug ("pushing file " +:+ local_path +:+ " to " +:+ remote_path) ;;;
  remote_path <- absolute remote_path ;;
  _ <- subp run ["lxc"; "file"; "push"; local_path; name self +:+ remote_path] ;;
  ret tt.

(** [restore]. *)
Definition restore (self : LXDInstance) (snapshot_name : string)
    : M (World B) unit :=
  _log_debug ("restoring " +:+ name self +:+ " from snapshot " +:+ snapshot_name) ;;;
  _ <- subp run ["lxc"; "restore"; name self; snapshot_name] ;;
  ret tt.

(** [if snapshot_name is None: snapshot_name = '{}-snapshot'.format(name)]. *)
Definition snapshot_name_or_default (self : LXDInstance)
    (snapshot_name : option string) : string :=
  match snapshot_name with
  | Some n => n
  | None => name self +:+ "-snapshot"
  end.

(** [local_snapshot]. *)
Definition local_snapshot (self : LXDInstance) (snapshot_name : option string)
    (stateful : bool) : M (World B) string :=
  base clean ;;;
  shutdown run self true ;;;
  let snapshot_name := snapshot_name_or_default self snapshot_name in
  let cmd := ["lxc"; "snapshot"; name self; snapshot_name] in
  let cmd := if stateful then cmd ++ ["--stateful"] else cmd in
  _log_debug ("creating snapshot " +:+ snapshot_name) ;;;
  _ <- subp run cmd ;;
  ret snapshot_name.

(** [snapshot]. *)
Definition snapshot (self : LXDInstance) (snapshot_name : option string)
    : M (World B) string :=
  base clean ;;;
  shutdown run self true ;;;
  let snapshot_name := snapshot_name_or_default self snapshot_name in
  let cmd := ["lxc"; "publish"; name self; "--alias"; snapshot_name] in
  _log_debug ("Publishing snapshot " +:+ snapshot_name) ;;;
  _ <- subp run cmd ;;
  ret ("local:" +:+ snapshot_name).

(** The command lines a snapshot may issue, in their order: the status
    query and the stop of [shutdown], then the capture [cmd]. *)
Definition snapshot_commands (self : LXDInstance) (cmd : list string)
    : list (list string) :=
  [["lxc"; "info"; name self]; ["lxc"; "stop"; name self; "--force"]; cmd].

End Instance.

(** The daemon of [LXD.Daemon] with the captures, a guest in [/root] and
    a listing of addresses. *)
Module Daemon.

Definition run (address : string) (args : list string) (status : string)
    : outcome string * string :=
  match args with
  | ["lxc"; "list"; _; "-c"; "4"; "--format"; "csv"] => (Ret address, status)
  | ["lxc"; "publish"; _; "--alias"; _] => (Ret "", status)
  | "lxc" :: "snapshot" :: _ => (Ret "", status)
  | "lxc" :: "file" :: _ => (Ret "", status)
  | _ => LXD.Daemon.run args status
  end.

Definition execute (command : string) (status : string)
    : outcome string * string :=
  (Ret "/root", status).

Definition clean (status : string) : outcome unit * string := (Ret tt, status).

End Daemon.

End LXD_rest.

(** ** Calls that may raise more than the exceptions of [Py]

    [NotImplementedError] and [UnboundLocalError] come up in the image
    methods of [GCE]; the outcome and the monad below are those of [Py]
    over the larger set of exceptions, without the fuel. *)

Module PyX.

Inductive exn : Type :=
| Std (e : Py.exn)
| NotImplementedError
| UnboundLocalError (variable : string).

Inductive outcome (A : Type) : Type :=
| Returns (a : A)
| Raises (e : exn).
Arguments Returns {A} a.
Arguments Raises {A} e.

Definition M (W A : Type) : Type := W → outcome A * W.

Definition ret {W A} (a : A) : M W A := λ w, (Returns a, w).
Definition raise {W A} (e : exn) : M W A := λ w, (Raises e, w).
Definition lift {W A} (o : outcome A) : M W A := λ w, (o, w).

Definition bind {W A C} (m : M W A) (k : A → M W C) : M W C :=
  λ w, match m w with
       | (Returns a, w') => k a w'
       | (Raises e, w') => (Raises e, w')
       end.

Definition try_except {W A} (body : M W A) (handles : exn → bool)
    (handler : M W A) : M W A :=
  λ w, match body w with
       | (Raises e, w') => if handles e then handler w' else (Raises e, w')
       | r => r
       end.

Definition is_IndexError (e : exn) : bool :=
  match e with Std IndexError => true | _ => false end.
Definition is_NotImplementedError (e : exn) : bool :=
  match e with NotImplementedError => true | _ => false end.

(** [l[0]] on a list. *)
Definition first_item {A} (l : list A) : outcome A :=
  match l with
  | x :: _ => Returns x
  | [] => Raises (Std IndexError)
  end.

(** [d[key]] on a dict of strings. *)
Definition getitem (d : gmap string string) (key : string) : outcome string :=
  match d !! key with
  | Some v => Returns v
  | None => Raises (Std (KeyError key))
  end.

Module Import Notations.
Notation "x <~ m ;; k" := (bind m (λ x, k))
  (at level 100, m at next level, right associativity).
Notation "m ;;~ k" := (bind m (λ _, k))
  (at level 100, right associativity).
End Notations.

End PyX.

(** ** The image methods of [pycloudlib/gce/cloud.py], and the statement of
    [examples/base_api.py] that chooses an image *)

Module GCE_images.
Import PyX.Notations.

(** A product item of a simplestreams catalogue: its fields are strings. *)
Abbreviation image := (gmap string string).

Record World (B : Type) : Type := mkWorld {
  backend : B;
  debug_log : list string;
}.
Arguments mkWorld {B} _ _.
Arguments backend {B} _.
Arguments debug_log {B} _.

Section Cloud.
Context {B C : Type}.

(** [Streams(mirror_url=..., keyring_path=...).query(filters)] on the daily
    mirror of cloud-images.ubuntu.com. *)
Variable query : list string → B → PyX.outcome (list image) * B.

Definition _log_debug (msg : string) : PyX.M (World B) unit :=
  λ w, (PyX.Returns tt, mkWorld (backend w) (debug_log w ++ [msg])).

Definition stream_query (filters : list string) : PyX.M (World B) (list image) :=
  λ w, let '(r, b) := query filters (backend w) in (r, mkWorld b (debug_log w)).

(** [_image_list]. *)
Definition _image_list (self : GCE.GCE C) (release arch : string)
    : PyX.M (World B) (list image) :=
  let filters :=
    ["arch=" +:+ arch;
     "endpoint=" +:+ "https://www.googleapis.com";
     "region=" +:+ GCE.region self;
     "release=" +:+ release;
     "virt=kvm"] in
  stream_query filters.

(** [daily_image].  The handler of [IndexError] builds an exception and
    drops it, so after it [image_id] has no value and the [return] that
    reads it raises [UnboundLocalError]. *)
Definition daily_image (self : GCE.GCE C) (release arch : string)
    : PyX.M (World B) string :=
  _log_debug ("finding daily Ubuntu image for " +:+ release) ;;~
  images <~ _image_list self release arch ;;
  image_id <~ PyX.try_except
                (image0 <~ PyX.lift (PyX.first_item images) ;;
                 id <~ PyX.lift (PyX.getitem image0 "id") ;;
                 PyX.ret (Some id))
                PyX.is_IndexError
                (PyX.ret None) ;;
  match image_id with
  | Some id =>
      PyX.ret ("projects/ubuntu-os-cloud-devel/global/images/" +:+ id)
  | None => PyX.raise (PyX.UnboundLocalError "image_id")
  end.

(** [released_image], [image_serial], [delete_image], [get_instance] and
    [snapshot]: each body is [raise NotImplementedError]. *)
Definition released_image (self : GCE.GCE C) (release : string)
    : PyX.M (World B) string :=
  PyX.raise PyX.NotImplementedError.

Definition image_serial (self : GCE.GCE C) (image_id : string)
    : PyX.M (World B) string :=
  PyX.raise PyX.NotImplementedError.

Definition delete_image (self : GCE.GCE C) (image_id : string)
    : PyX.M (World B) unit :=
  PyX.raise PyX.NotImplementedError.

Definition get_instance (self : GCE.GCE C) (instance_id : string)
    : PyX.M (World B) pyval :=
  PyX.raise PyX.NotImplementedError.

Definition snapshot (self : GCE.GCE C) (instance : pyval) (clean : bool)
    : PyX.M (World B) string :=
  PyX.raise PyX.NotImplementedError.

(** The first statement of [exercise_api] in [examples/base_api.py], for a
    client with the given [released_image] and [daily_image]:
    [try: image_id = client.released_image('focal')] and, on
    [NotImplementedError], [image_id = client.daily_image('focal')]. *)
Definition exercise_api_image {W}
    (client_released_image client_daily_image : string → PyX.M W string)
    : PyX.M W string :=
  PyX.try_except (client_released_image "focal")
    PyX.is_NotImplementedError
    (client_daily_image "focal").

End Cloud.

(** A catalogue for running the code: the state is the list of items every
    query answers with. *)
Module Catalogue.

Definition query (filters : list string) (items : list image)
    : PyX.outcome (list image) * list image :=
  (PyX.Returns items, items).

Definition cloud : GCE.GCE (option nat) := GCE.Service.cloud GCE.Service.done_ok.

Definition bionic : image := {[ "id" := "daily-ubuntu-1804-bionic-v20190212a" ]}.

End Catalogue.

End GCE_images.

(** ** The rest of [pycloudlib/ec2/cloud.py]: images and keys *)

Module EC2_rest.

(** A product item of a simplestreams catalogue: its fields are strings. *)
Abbreviation image := (gmap string string).

(** The requests of these methods, in the order they are made. *)
Inductive request : Type :=
| StreamsQuery (filters : list string) (daily : bool)
| BlockDeviceMappings (image_id : string)
| DeregisterImage (image_id : string)
| DeleteSnapshot (snapshot_id : pyval)
| DeleteKeyPair (name : string)
| DescribeKeyPairs
| ImportKeyPair (name : option string) (material : string).

(** What answers them: [BaseCloud._streams_query], the attribute
    [block_device_mappings] of a boto3 image (loaded from the provider when
    read), and the boto3 client. *)
Record Client (B : Type) : Type := {
  _streams_query : list string → bool → B → outcome (list image) * B;
  block_device_mappings : string → B → outcome pyval * B;
  deregister_image : string → B → outcome unit * B;
  delete_snapshot : pyval → B → outcome unit * B;
  delete_key_pair : string → B → outcome unit * B;
  describe_key_pairs : B → outcome dict * B;
  import_key_pair : option string → string → B → outcome unit * B;
}.
Arguments _streams_query {B} _ _ _ _.
Arguments block_device_mappings {B} _ _ _.
Arguments deregister_image {B} _ _ _.
Arguments delete_snapshot {B} _ _ _.
Arguments delete_key_pair {B} _ _ _.
Arguments describe_key_pairs {B} _ _.
Arguments import_key_pair {B} _ _ _ _.

(** The provider, the requests made, and the debug messages with their
    arguments. *)
Record World (B : Type) : Type := mkWorld {
  backend : B;
  requests : list request;
  debug_log : list (string * pyval);
}.
Arguments mkWorld {B} _ _ _.
Arguments backend {B} _.
Arguments requests {B} _.
Arguments debug_log {B} _.

Section Cloud.
Context {B C : Type}.
Variable client : Client B.

(** [KeyPair(public_key_path, private_key_path, name)]. *)
Variable new_key_pair : string → option string → string → KeyPair.

Definition invoke {A} (r : request) (f : B → outcome A * B) : M (World B) A :=
  λ w, let '(o, b) := f (backend w) in
       (o, mkWorld b (requests w ++ [r]) (debug_log w)).

Definition _log_debug (msg : string) (arg : pyval) : M (World B) unit :=
  λ w, (Ret tt, mkWorld (backend w) (requests w) (debug_log w ++ [(msg, arg)])).

(** [d[key]] on a dict of strings. *)
Definition getitem_str (d : image) (key : string) : outcome string :=
  match d !! key with
  | Some v => Ret v
  | None => Raise (KeyError key)
  end.

(** [_find_image]; [region] is [self.region]. *)
Definition _find_image (self : EC2.EC2 C) (region : string)
    (release arch root_store : string) (daily : bool) : M (World B) image :=
  let filters :=
    ["arch=" +:+ arch;
     "endpoint=" +:+ "https://ec2." +:+ region +:+ ".amazonaws.com";
     "region=" +:+ region;
     "release=" +:+ release;
     "root_store=" +:+ root_store;
     "virt=hvm"] in
  found <- invoke (StreamsQuery filters daily) (_streams_query client filters daily) ;;
  lift (first_item found).

(** [released_image]. *)
Definition released_image (self : EC2.EC2 C) (region : string)
    (release arch root_store : string) : M (World B) string :=
  _log_debug "finding released Ubuntu image for %s" (PStr release) ;;;
  image <- _find_image self region release arch root_store false ;;
  lift (getitem_str image "id").

(** [daily_image]. *)
Definition daily_image (self : EC2.EC2 C) (region : string)
    (release arch root_store : string) : M (World B) string :=
  _log_debug "finding daily Ubuntu image for %s" (PStr release) ;;;
  image <- _find_image self region release arch root_store true ;;
  lift (getitem_str image "id").

(** [image_serial]. *)
Definition image_serial (self : EC2.EC2 C) (image_id : string)
    : M (World B) string :=
  _log_debug "finding image serial for EC2 Ubuntu image %s" (PStr image_id) ;;;
  let filters := ["id=" +:+ image_id] in
  image_info <- invoke (StreamsQuery filters true)
                  (_streams_query client filters true) ;;
  image_info <- match image_info with
                | [] => invoke (StreamsQuery filters false)
                          (_streams_query client filters false)
                | _ :: _ => ret image_info
                end ;;
  image0 <- lift (first_item image_info) ;;
  lift (getitem_str image0 "version_name").

(** [mappings[0]['Ebs']['SnapshotId']]. *)
Definition snapshot_id_of (mappings : pyval) : outcome pyval :=
  match subscript_0 mappings with
  | Ret mapping =>
      match subscript_key mapping "Ebs" with
      | Ret ebs => subscript_key ebs "SnapshotId"
      | other => other
      end
  | other => other
  end.

(** [delete_image]. *)
Definition delete_image (self : EC2.EC2 C) (image_id : string)
    : M (World B) unit :=
  mappings <- invoke (BlockDeviceMappings image_id)
                (block_device_mappings client image_id) ;;
  snapshot_id <- lift (snapshot_id_of mappings) ;;
  _log_debug "removing custom ami %s" (PStr image_id) ;;;
  invoke (DeregisterImage image_id) (deregister_image client image_id) ;;;
  _log_debug "removing custom snapshot %s" snapshot_id ;;;
  invoke (DeleteSnapshot snapshot_id) (delete_snapshot client snapshot_id).

(** [delete_key]. *)
Definition delete_key (self : EC2.EC2 C) (name : string) : M (World B) unit :=
  _log_debug "deleting SSH key %s" (PStr name) ;;;
  invoke (DeleteKeyPair name) (delete_key_pair client name).

(** [for x in v]: the items a loop over [v] goes through. *)
Definition iterate (v : pyval) : outcome (list pyval) :=
  match v with
  | PList l => Ret l
  | PDict items => Ret ((λ kv, PStr kv.1) <$> items)
  | PStr s => Ret ((λ c, PStr (String c EmptyString)) <$> String.list_ascii_of_string s)
  | _ => Raise TypeError
  end.

(** The loop of [list_keys]:
    [for keypair in ...: keypair_names.append(keypair["KeyName"])]. *)
Fixpoint key_names (keypairs : list pyval) (keypair_names : list pyval)
    : outcome (list pyval) :=
  match keypairs with
  | [] => Ret keypair_names
  | keypair :: rest =>
      match subscript_key keypair "KeyName" with
      | Ret n => key_names rest (keypair_names ++ [n])
      | Raise e => Raise e
      | OutOfFuel => OutOfFuel
      end
  end.

(** [list_keys]. *)
Definition list_keys (self : EC2.EC2 C) : M (World B) (list pyval) :=
  response <- invoke DescribeKeyPairs (describe_key_pairs client) ;;
  keypairs <- lift (getitem response "KeyPairs") ;;
  keypairs <- lift (iterate keypairs) ;;
  lift (key_names keypairs []).

(** [if not name] for an optional string. *)
Definition name_or_tag (self : EC2.EC2 C) (name : option string) : string :=
  if truthy_str name then default "" name else EC2.tag self.

(** [use_key]; the result is the cloud object after the assignment to
    [self.key_pair]. *)
Definition use_key (self : EC2.EC2 C) (public_key_path : string)
    (private_key_path : option string) (name : option string)
    : M (World B) (EC2.EC2 C) :=
  let name := name_or_tag self name in
  _log_debug "using SSH key %s" (PStr name) ;;;
  ret {| EC2.boto := EC2.boto self;
         EC2.tag := EC2.tag self;
         EC2.key_pair := new_key_pair public_key_path private_key_path name |}.

Definition name_arg (name : option string) : pyval :=
  match name with
  | Some n => PStr n
  | None => PNone
  end.

(** [upload_key]; the result is the cloud object after the call. *)
Definition upload_key (self : EC2.EC2 C) (public_key_path : string)
    (private_key_path : option string) (name : option string)
    : M (World B) (EC2.EC2 C) :=
  _log_debug "uploading SSH key %s" (name_arg name) ;;;
  invoke (ImportKeyPair name (public_key_content (EC2.key_pair self)))
    (import_key_pair client name (public_key_content (EC2.key_pair self))) ;;;
  use_key self public_key_path private_key_path name.

End Cloud.

(** A provider for running the code: the items of the daily and of the
    released stream, the block device mappings of every image and the key
    pairs; nothing fails and nothing changes. *)
Module Provider.

Record state : Type := mkState {
  daily_items : list image;
  released_items : list image;
  mappings : pyval;
  key_pairs : pyval;
}.

Definition api : Client state := {|
  _streams_query := λ _ daily st,
    (Ret (if daily then daily_items st else released_items st), st);
  block_device_mappings := λ _ st, (Ret (mappings st), st);
  deregister_image := λ _ st, (Ret tt, st);
  delete_snapshot := λ _ st, (Ret tt, st);
  delete_key_pair := λ _ st, (Ret tt, st);
  describe_key_pairs := λ st, (Ret {[ "KeyPairs" := key_pairs st ]}, st);
  import_key_pair := λ _ _ st, (Ret tt, st);
|}.

(** The key pair a path stands for: the file's text is the path in angle
    brackets. *)
Definition new_key_pair (public_key_path : string)
    (private_key_path : option string) (name : string) : KeyPair :=
  {| key_name := name;
     public_key_content := "<" +:+ public_key_path +:+ ">" |}.

Definition xenial : image :=
  {[ "id" := "ami-0d1b5e2e"; "version_name" := "20190212" ]}.

Definition with_mapping : pyval :=
  PList [PDict [("DeviceName", PStr "/dev/sda1");
                ("Ebs", PDict [("SnapshotId", PStr "snap-07c9");
                               ("VolumeSize", PInt 8)])]].

Definition catalogue (daily released : list image) : state :=
  mkState daily released with_mapping
    (PList [PDict [("KeyName", PStr "examples")];
            PDict [("KeyName", PStr "ci")]]).

Definition world (st : state) : World state := mkWorld st [] [].

End Provider.

End EC2_rest.

(** ** [launch_multiple] of [examples/ec2.py] *)

Module Example_ec2.

(** What goes to the provider during the example: the requests of the cloud
    object, and the [delete] and [wait_for_delete] of the handles. *)
Inductive step : Type :=
| Cloud (c : EC2.api_call)
| Delete (i : EC2.EC2Instance) (wait : bool)
| WaitForDelete (i : EC2.EC2Instance).

Record World (B : Type) : Type := mkWorld {
  backend : B;
  steps : list step;
  debug_log : list string;
}.
Arguments mkWorld {B} _ _ _.
Arguments backend {B} _.
Arguments steps {B} _.
Arguments debug_log {B} _.

Section Example.
Context {B : Type}.

(** [EC2Instance.delete] and [EC2Instance.wait_for_delete]. *)
Variable instance_delete : EC2.EC2Instance → bool → B → outcome unit * B.
Variable instance_wait_for_delete : EC2.EC2Instance → B → outcome unit * B.

(** A method of the cloud object, run from here: its requests join the
    steps, its debug messages the log. *)
Definition of_cloud {A} (m : M (EC2.World B) A) : M (World B) A :=
  λ w, let '(r, w') := m (EC2.mkWorld (backend w) [] []) in
       (r, mkWorld (EC2.backend w') (steps w ++ (Cloud <$> EC2.calls w'))
             (debug_log w ++ EC2.debug_log w')).

Definition perform {A} (s : step) (f : B → outcome A * B) : M (World B) A :=
  λ w, let '(r, b) := f (backend w) in
       (r, mkWorld b (steps w ++ [s]) (debug_log w)).

(** [for _ in range(n): instances.append(m)], from the list [instances]. *)
Fixpoint append_each {W A} (n : nat) (m : M W A) (instances : list A)
    : M W (list A) :=
  match n with
  | O => ret instances
  | S n' => x <- m ;; append_each n' m (instances ++ [x])
  end.

(** [for x in l: body(x)]. *)
Fixpoint for_each {W A} (l : list A) (body : A → M W unit) : M W unit :=
  match l with
  | [] => ret tt
  | x :: l' => body x ;;; for_each l' body
  end.

(** [launch_multiple]; the [launch] of the example passes the image and
    [wait=False] and leaves the other parameters at their defaults. *)
Definition launch_multiple (ec2 : EC2.EC2 B) (daily : string) : M (World B) unit :=
  instances <- append_each 3
                 (of_cloud (EC2.launch ec2 daily "t2.micro" None None false ∅))
                 [] ;;
  for_each instances
    (λ instance,
       perform (Cloud (EC2.InstanceWait instance))
         (EC2.instance_wait (EC2.boto ec2) instance)) ;;;
  for_each instances
    (λ instance,
       perform (Delete instance false) (instance_delete instance false)) ;;;
  for_each instances
    (λ instance,
       perform (WaitForDelete instance) (instance_wait_for_delete instance)).

Definition is_launch (s : step) : bool :=
  match s with
  | Cloud (EC2.CreateInstances _) => true
  | _ => false
  end.

End Example.

End Example_ec2.

(** * Properties *)

(** ** The effect monad *)

Module Py_facts.

Lemma bind_ret_l {W A B} (a : A) (k : A → M W B) w :
  bind (ret a) k w = k a w.
Proof. reflexivity. Qed.

Lemma bind_assoc {W A B C} (m : M W A) (k : A → M W B) (h : B → M W C) w :
  bind (bind m k) h w = bind m (λ a, bind (k a) h) w.
Proof. unfold bind. destruct (m w) as [[a|e|] w']; reflexivity. Qed.

(** A sequence that returns went through both of its parts. *)
Lemma bind_Ret_inv {W A C} (m : M W A) (k : A → M W C) w c w' :
  bind m k w = (Ret c, w') →
  ∃ a w1, m w = (Ret a, w1) ∧ k a w1 = (Ret c, w').
Proof.
  unfold bind. destruct (m w) as [[a|e|] w1]; [eauto|done..].
Qed.

End Py_facts.

(** ** The text scanner *)

Module Re_facts.
Import Re.

Local Arguments String.append !_ _ / : simpl nomatch.

Lemma strip_prefix_app key r : strip_prefix key (key +:+ r) = Some r.
Proof.
  induction key as [|a key IH]; simpl; [reflexivity|].
  by rewrite Ascii.eqb_refl.
Qed.

Lemma strip_prefix_Some key s r : strip_prefix key s = Some r → s = key +:+ r.
Proof.
  revert s. induction key as [|a key IH]; intros s H; simpl in *.
  - congruence.
  - destruct s as [|b s]; [discriminate|].
    destruct (Ascii.eqb a b) eqn:E; [|discriminate].
    apply Ascii.eqb_eq in E as ->. f_equal. by apply IH.
Qed.

Lemma strip_prefix_None key s : ¬ occurs key s → strip_prefix key s = None.
Proof.
  intros H. destruct (strip_prefix key s) as [r|] eqn:E; [|reflexivity].
  exfalso. apply H. exists EmptyString, r. simpl. by apply strip_prefix_Some.
Qed.

Lemma occurs_tail key c s : occurs key s → occurs key (String c s).
Proof. intros (a & b & ->). by exists (String c a), b. Qed.

Lemma dot_star_line v post :
  no_newline v = true → line_end post = true → dot_star (v +:+ post) = v.
Proof.
  intros Hv Hp. induction v as [|c v IH]; simpl in *.
  - destruct post as [|c post]; simpl in *; [reflexivity|]. by rewrite Hp.
  - apply andb_true_iff in Hv as [Hc Hv]. apply negb_true_iff in Hc.
    rewrite Hc. f_equal. by apply IH.
Qed.

(** No occurrence of a non-empty key: no match. *)
Lemma findall_absent key text :
  key ≠ EmptyString → ¬ occurs key text → findall key text = [].
Proof.
  intros Hk. unfold findall. induction text as [|c text IH]; intros H; simpl.
  - destruct key; [done|reflexivity].
  - rewrite (strip_prefix_None _ _ H). apply IH.
    intros Ho. apply H. by apply occurs_tail.
Qed.

(** The first match is the leftmost occurrence; its group is the rest of
    that line. *)
Lemma findall_first key pre rest :
  key ≠ EmptyString →
  first_at key pre (pre +:+ key +:+ rest) →
  ∃ more, findall key (pre +:+ key +:+ rest) = dot_star rest :: more.
Proof.
  intros Hk. unfold findall. induction pre as [|c pre IH]; intros H.
  - simpl. destruct (key +:+ rest) as [|c t] eqn:E.
    + destruct key; [done|discriminate].
    + simpl. rewrite <- E, strip_prefix_app. eauto.
  - simpl.
    destruct (strip_prefix key (String c (pre +:+ key +:+ rest))) as [r|] eqn:E.
    + apply strip_prefix_Some in E.
      specialize (H EmptyString r E). simpl in H. lia.
    + apply IH. intros a b Hab.
      specialize (H (String c a) b). simpl in H.
      rewrite Hab in H. specialize (H eq_refl). lia.
Qed.

Lemma occurs_inv key c s :
  occurs key (String c s) →
  strip_prefix key (String c s) = None → occurs key s.
Proof.
  intros (a & b & E) Hs. destruct a as [|c' a]; simpl in E.
  - by rewrite E, strip_prefix_app in Hs.
  - injection E as _ ->. by exists a, b.
Qed.

Lemma find_from_None key text n : find_from key text n = None → ¬ occurs key text.
Proof.
  revert n. induction text as [|c text IH]; intros n; simpl.
  - destruct (strip_prefix key "") eqn:E; [discriminate|]. intros _ (a & b & Hab).
    destruct a; simpl in Hab; [|discriminate].
    by rewrite Hab, strip_prefix_app in E.
  - destruct (strip_prefix key (String c text)) eqn:E; [discriminate|].
    intros H Ho. apply (IH _ H). by apply (occurs_inv key c).
Qed.

Lemma find_from_first key text n m :
  find_from key text n = Some m →
  (n ≤ m)%nat ∧
  ∀ a b, text = a +:+ key +:+ b → (m - n ≤ String.length a)%nat.
Proof.
  revert n. induction text as [|c text IH]; intros n; simpl.
  - destruct (strip_prefix key "") eqn:E; [|discriminate].
    intros [= <-]. split; [lia|]. intros; lia.
  - destruct (strip_prefix key (String c text)) eqn:E.
    + intros [= <-]. split; [lia|]. intros; lia.
    + intros H. destruct (IH _ H) as [Hle Hmin]. split; [lia|].
      intros a b Hab. destruct a as [|c' a]; simpl in Hab.
      * by rewrite Hab, strip_prefix_app in E.
      * injection Hab as _ Hab. specialize (Hmin a b Hab). simpl. lia.
Qed.

Lemma find_None key text : find key text = None → ¬ occurs key text.
Proof. apply find_from_None. Qed.

Lemma find_first key pre text :
  find key text = Some (String.length pre) → first_at key pre text.
Proof.
  intros H a b Hab. destruct (find_from_first _ _ _ _ H) as [_ Hmin].
  specialize (Hmin a b Hab). lia.
Qed.

(** Both keys of the status parser at once: the first match of a key that
    occurs first after [pre], followed by a whole rest-of-line [v]. *)
Lemma findall_field key pre v post :
  key ≠ EmptyString →
  first_at key pre (pre +:+ key +:+ v +:+ post) →
  no_newline v = true → line_end post = true →
  first_item (findall key (pre +:+ key +:+ v +:+ post)) = Ret v.
Proof.
  intros Hk Hfirst Hv Hp.
  destruct (findall_first key pre (v +:+ post) Hk Hfirst) as [more ->].
  simpl. by rewrite dot_star_line.
Qed.

(** The scanner on the output of a daemon: one match per line that holds
    the key, each the rest of its line. *)
Example findall_info_text :
  findall "Status: " (LXD.Daemon.info_text "c1" "Running") = ["Running"] ∧
  findall "Type: " (LXD.Daemon.info_text "c1" "Running") = ["persistent"] ∧
  findall "Status: " ("Status: A" +:+ String newline "x Status: B") = ["A"; "B"] ∧
  findall "Status: " "Status:Running" = [].
Proof. repeat split. Qed.

End Re_facts.

(** ** [LXDInstance] *)

Module LXD_facts.
Import LXD.

Section Facts.
Context {B : Type}.
Variable run : list string → B → outcome string * B.
Variable _wait_for_system : B → outcome unit * B.

Lemma subp_info self w text b' :
  run ["lxc"; "info"; name self] (backend w) = (Ret text, b') →
  subp run ["lxc"; "info"; name self] w = (Ret text, queried self w b').
Proof. intros H. unfold subp. by rewrite H. Qed.

Lemma state_eq self w text b' :
  run ["lxc"; "info"; name self] (backend w) = (Ret text, b') →
  state run self w =
    (match Re.findall "Status: " text with
     | v :: _ => Ret v
     | [] => Ret "Unknown"
     end, queried self w b').
Proof.
  intros H. unfold state, bind. rewrite (subp_info _ _ _ _ H).
  unfold try_except, lift, first_item.
  by destruct (Re.findall "Status: " text).
Qed.

Lemma ephemeral_eq self w text b' :
  run ["lxc"; "info"; name self] (backend w) = (Ret text, b') →
  ephemeral run self w =
    (match Re.findall "Type: " text with
     | v :: _ => Ret (String.eqb v "ephemeral")
     | [] => Ret false
     end, queried self w b').
Proof.
  intros H. unfold ephemeral, bind. rewrite (subp_info _ _ _ _ H).
  unfold try_except, lift, first_item.
  by destruct (Re.findall "Type: " text).
Qed.

(** C6. Whatever text the status query [lxc info <name>] prints, [state]
    and [ephemeral] return and do not raise: [state] gives the rest of the
    line after the first ['Status: '] when the text has one and ['Unknown']
    when it has none; [ephemeral] gives [False] when the text has no
    ['Type: '], and otherwise tells whether the rest of that line is
    ['ephemeral']. *)
Theorem state_ephemeral_of_info_text self (w : World B) text b' :
  run ["lxc"; "info"; name self] (backend w) = (Ret text, b') →
  (¬ Re.occurs "Status: " text →
     state run self w = (Ret "Unknown", queried self w b')) ∧
  (∀ pre v post,
     text = pre +:+ "Status: " +:+ v +:+ post →
     Re.first_at "Status: " pre text →
     Re.no_newline v = true → Re.line_end post = true →
     state run self w = (Ret v, queried self w b')) ∧
  (¬ Re.occurs "Type: " text →
     ephemeral run self w = (Ret false, queried self w b')) ∧
  (∀ pre v post,
     text = pre +:+ "Type: " +:+ v +:+ post →
     Re.first_at "Type: " pre text →
     Re.no_newline v = true → Re.line_end post = true →
     ephemeral run self w =
       (Ret (String.eqb v "ephemeral"), queried self w b')).
Proof.
  intros H. repeat split.
  - intros Habs. rewrite (state_eq _ _ _ _ H).
    by rewrite Re_facts.findall_absent.
  - intros pre v post -> Hfirst Hv Hp. rewrite (state_eq _ _ _ _ H).
    pose proof (Re_facts.findall_field "Status: " pre v post) as Hf.
    destruct (Re.findall _ _); simpl in Hf.
    + by specialize (Hf ltac:(done) Hfirst Hv Hp).
    + by specialize (Hf ltac:(done) Hfirst Hv Hp) as [= ->].
  - intros Habs. rewrite (ephemeral_eq _ _ _ _ H).
    by rewrite Re_facts.findall_absent.
  - intros pre v post -> Hfirst Hv Hp. rewrite (ephemeral_eq _ _ _ _ H).
    pose proof (Re_facts.findall_field "Type: " pre v post) as Hf.
    destruct (Re.findall _ _); simpl in Hf.
    + by specialize (Hf ltac:(done) Hfirst Hv Hp).
    + by specialize (Hf ltac:(done) Hfirst Hv Hp) as [= ->].
Qed.


(** C3, as the code has it. When the status query gives ['Running'], [start]
    returns [None] and has done nothing but that query: the command list
    grew by [lxc info <name>] alone, nothing was logged, and neither
    [lxc start] nor the wait took place.  [shutdown] does the same when the
    query gives ['Stopped']. *)
Theorem start_shutdown_only_query self wait_ (w : World B) :
  ((state run self w).1 = Ret "Running" →
     start run _wait_for_system self wait_ w =
       (Ret tt, queried self w (run ["lxc"; "info"; name self] (backend w)).2)) ∧
  ((state run self w).1 = Ret "Stopped" →
     shutdown run self wait_ w =
       (Ret tt, queried self w (run ["lxc"; "info"; name self] (backend w)).2)).
Proof.
  assert (Hw : ∀ r, (state run self w).1 = Ret r →
            state run self w =
              (Ret r, queried self w (run ["lxc"; "info"; name self] (backend w)).2)).
  { intros r. unfold state, bind, subp, queried.
    destruct (run _ (backend w)) as [[text|e|] b']; simpl; [|done..].
    unfold try_except, lift.
    destruct (first_item _) as [v|e|]; simpl; [|destruct (is_IndexError e)|];
      simpl; by intros [= ->]. }
  split; intros H; apply Hw in H.
  - unfold start, bind. by rewrite H.
  - unfold shutdown, bind. by rewrite H.
Qed.

Create HintDb lxd.

Lemma blind_ret {A} (a : A) : blind (ret a : M (World B) A).
Proof. by intros w1 w2 H. Qed.

Lemma blind_lift {A} (o : outcome A) : blind (lift o : M (World B) A).
Proof. by intros w1 w2 H. Qed.

Lemma blind_bind {A C} (m : M (World B) A) (k : A → M (World B) C) :
  blind m → (∀ a, blind (k a)) → blind (bind m k).
Proof.
  intros Hm Hk w1 w2 H. unfold bind.
  destruct (Hm w1 w2 H) as [Ho Hw].
  destruct (m w1) as [o1 w1'], (m w2) as [o2 w2']; simpl in *. subst o2.
  destruct o1 as [a|e|]; [by apply Hk|done..].
Qed.

Lemma blind_try_except {A} (body handler : M (World B) A) handles :
  blind body → blind handler → blind (try_except body handles handler).
Proof.
  intros Hb Hh w1 w2 H. unfold try_except.
  destruct (Hb w1 w2 H) as [Ho Hw].
  destruct (body w1) as [o1 w1'], (body w2) as [o2 w2']; simpl in *. subst o2.
  destruct o1 as [a|e|]; [done| |done].
  destruct (handles e); [by apply Hh|done].
Qed.

Lemma blind_subp args : blind (subp run args).
Proof.
  intros w1 w2 [Hb Hc]. unfold subp. rewrite Hb, Hc.
  by destruct (run args (backend w2)).
Qed.

Lemma blind_log msg : blind (_log_debug msg : M (World B) unit).
Proof. by intros w1 w2 H. Qed.

Lemma blind_wait self : blind (wait _wait_for_system self).
Proof.
  intros w1 w2 [Hb Hc]. unfold wait. rewrite Hb, Hc.
  by destruct (_wait_for_system (backend w2)).
Qed.

#[local] Hint Resolve blind_ret blind_lift blind_try_except blind_subp blind_log
  blind_wait : lxd.

Ltac blind_steps :=
  repeat first
    [ apply blind_bind; [|intros ?]
    | match goal with |- blind (if ?c then _ else _) => destruct c end
    | solve [auto with lxd] ].

Lemma blind_state self : blind (state run self).
Proof. unfold state. blind_steps. Qed.

Lemma blind_shutdown self wait_ : blind (shutdown run self wait_).
Proof.
  unfold shutdown, wait_for_stop.
  pose proof (blind_state self). blind_steps.
Qed.

Lemma blind_start self wait_ : blind (start run _wait_for_system self wait_).
Proof.
  unfold start.
  pose proof (blind_state self). blind_steps.
Qed.

(** C5. [restart] cannot be told apart from [shutdown(wait=True)] followed by
    [start(wait)]: from every world the two end the same way, leave the
    daemon in the same state and issue the same command lines, so the stop
    and its status check always come before the start.  (They differ by one
    line of the debug log.) *)
Theorem restart_is_shutdown_then_start self wait_ (w : World B) :
  observable (restart run _wait_for_system self wait_ w) =
  observable (shutdown_then_start run _wait_for_system self wait_ w).
Proof.
  assert (Hb : blind (shutdown_then_start run _wait_for_system self wait_)).
  { unfold shutdown_then_start. apply blind_bind; [apply blind_shutdown|].
    intros _. apply blind_start. }
  set (w0 := mkWorld (backend w) (commands w)
               (debug_log w ++ ["restarting " +:+ name self])).
  assert (Hr : restart run _wait_for_system self wait_ w =
               shutdown_then_start run _wait_for_system self wait_ w0) by done.
  destruct (Hb w0 w) as (Ho & Hd & Hc); [done|].
  unfold observable. by rewrite Hr, Ho, Hd, Hc.
Qed.

End Facts.

(** The status parser on two outputs: one with all the fields, one with
    none. *)
Lemma state_ephemeral_of_info_text_witness :
  state Daemon.run Daemon.inst (Daemon.world "Running") =
    (Ret "Running", queried Daemon.inst (Daemon.world "Running") "Running") ∧
  state Daemon.run_silent Daemon.inst (Daemon.world "Running") =
    (Ret "Unknown", queried Daemon.inst (Daemon.world "Running") "Running") ∧
  ephemeral Daemon.run_silent Daemon.inst (Daemon.world "Running") =
    (Ret false, queried Daemon.inst (Daemon.world "Running") "Running").
Proof.
  pose proof (state_ephemeral_of_info_text Daemon.run Daemon.inst
                (Daemon.world "Running") _ _ eq_refl) as (_ & Hfull & _).
  pose proof (state_ephemeral_of_info_text Daemon.run_silent Daemon.inst
                (Daemon.world "Running") _ _ eq_refl) as (Hs & _ & He & _).
  split; [|split].
  - apply (Hfull ("Name: c1" +:+ String Re.newline "") "Running"
             (String Re.newline ("Type: persistent" +:+ String Re.newline "")));
      [reflexivity| |reflexivity..].
    apply Re_facts.find_first. reflexivity.
  - apply Hs. apply Re_facts.find_None. reflexivity.
  - apply He. apply Re_facts.find_None. reflexivity.
Defined.

(** On a running container [start] returns [None] and reaches the daemon
    once, with the status query; on a stopped one so does [shutdown]. *)
Lemma start_shutdown_only_query_witness :
  start Daemon.run Daemon._wait_for_system Daemon.inst true (Daemon.world "Running") =
    (Ret tt, mkWorld "Running" [["lxc"; "info"; "c1"]] []) ∧
  shutdown Daemon.run Daemon.inst true (Daemon.world "Stopped") =
    (Ret tt, mkWorld "Stopped" [["lxc"; "info"; "c1"]] []).
Proof.
  split.
  - apply (start_shutdown_only_query Daemon.run Daemon._wait_for_system
             Daemon.inst true (Daemon.world "Running")). reflexivity.
  - apply (start_shutdown_only_query Daemon.run Daemon._wait_for_system
             Daemon.inst true (Daemon.world "Stopped")). reflexivity.
Defined.

(** [restart] of a running container: the stop and the second status query
    come before the start. *)
Example restart_running_container :
  restart Daemon.run Daemon._wait_for_system Daemon.inst true
    (Daemon.world "Running") =
  (Ret tt,
   mkWorld "Running"
     [["lxc"; "info"; "c1"]; ["lxc"; "stop"; "c1"; "--force"];
      ["lxc"; "info"; "c1"]; ["lxc"; "start"; "c1"]]
     ["restarting c1"; "shutting down c1"; "starting c1"]).
Proof. reflexivity. Qed.

(** C3 as worded fails: [start] on a container whose observed state is
    ['Running'] succeeds, yet a command has gone to the daemon. *)
Lemma start_running_issues_status_query :
  (state Daemon.run Daemon.inst (Daemon.world "Running")).1 = Ret "Running" ∧
  (start Daemon.run Daemon._wait_for_system Daemon.inst true
     (Daemon.world "Running")).1 = Ret tt ∧
  commands (Daemon.world "Running") = [] ∧
  commands (start Daemon.run Daemon._wait_for_system Daemon.inst true
              (Daemon.world "Running")).2 = [["lxc"; "info"; "c1"]].
Proof. repeat split. Qed.

End LXD_facts.

(** ** [GCE] *)

Module GCE_facts.
Import GCE.

Section Facts.
Context {B : Type}.
Variable self : GCE B.
Variable operation : dict.
Variable op_name : pyval.
Hypothesis operation_name : operation !! "name" = Some op_name.

Local Abbreviation poll :=
  (zoneOperations_get (compute self) (project self) (zone self) op_name).

(** One turn of the loop on an answer whose status is not ['DONE']. *)
Lemma wait_step_pending fuel b c l d b0 status :
  poll b = (Ret d, b0) →
  d !! "status" = Some status →
  eq_str status "DONE" = false →
  _wait_for_operation self operation (S fuel) (mkWorld b c l) =
  _wait_for_operation self operation fuel (mkWorld b0 (c + 5) l).
Proof.
  intros Hp Hs Hd. simpl. unfold bind, sleep, lift, call, getitem. simpl.
  rewrite operation_name, Hp. simpl. by rewrite Hs, Hd.
Qed.

(** One turn of the loop on an answer whose status is ['DONE']. *)
Lemma wait_step_done fuel b c l d b0 status :
  poll b = (Ret d, b0) →
  d !! "status" = Some status →
  eq_str status "DONE" = true →
  _wait_for_operation self operation (S fuel) (mkWorld b c l) =
  (match d !! "error" with
   | Some err => Raise (Exception err)
   | None => Ret d
   end, mkWorld b0 (c + 5) l).
Proof.
  intros Hp Hs Hd. simpl. unfold bind, sleep, lift, call, getitem. simpl.
  rewrite operation_name, Hp. simpl. rewrite Hs, Hd. unfold contains.
  destruct (d !! "error") as [err|] eqn:He.
  - by rewrite bool_decide_eq_true_2 by eauto.
  - rewrite bool_decide_eq_false_2; [done|]. by intros [? ?].
Qed.

(** While the operation stays pending the loop is still running after any
    number of turns, five seconds of sleep each. *)
Lemma wait_pending_runs_on (pending : B → Prop) :
  never_done poll pending →
  ∀ fuel b c l, pending b →
    ∃ b', pending b' ∧
      _wait_for_operation self operation fuel (mkWorld b c l) =
      (OutOfFuel, mkWorld b' (c + 5 * Z.of_nat fuel) l).
Proof.
  intros Hnever. induction fuel as [|fuel IH]; intros b c l Hb.
  - exists b. split; [done|]. simpl. unfold lift. do 2 f_equal; lia.
  - destruct (Hnever b Hb) as (d & b0 & status & Hp & Hs & Hd & Hb0).
    rewrite (wait_step_pending _ _ _ _ _ _ _ Hp Hs Hd).
    destruct (IH b0 (c + 5) l Hb0) as (b' & Hb' & ->).
    exists b'. split; [done|]. do 2 f_equal; lia.
Qed.

Lemma wait_polls_to_done n d b b' :
  polls_to_done poll b n d b' →
  ∀ fuel c l, (n < fuel)%nat →
    _wait_for_operation self operation fuel (mkWorld b c l) =
    (match d !! "error" with
     | Some err => Raise (Exception err)
     | None => Ret d
     end, mkWorld b' (c + 5 * (Z.of_nat n + 1)) l).
Proof.
  induction 1 as [b d b' status Hp Hs Hd
                 |b d0 b0 status n d b' Hp Hs Hd Hrest IH];
    intros fuel c l Hfuel; (destruct fuel as [|fuel]; [lia|]).
  - rewrite (wait_step_done _ _ _ _ _ _ _ Hp Hs Hd). do 2 f_equal; lia.
  - rewrite (wait_step_pending _ _ _ _ _ _ _ Hp Hs Hd).
    rewrite IH by lia. do 2 f_equal; lia.
Qed.

(** C1, as the code has it. [_wait_for_operation] has no deadline and no
    timeout signal: when no poll ever reports ['DONE'], then after any number
    of turns of the loop the call has neither returned nor raised; it has
    slept five seconds per turn and goes on polling. *)
Theorem wait_for_operation_no_deadline (pending : B → Prop) (w : World B) fuel :
  never_done poll pending →
  pending (backend w) →
  ∃ b', pending b' ∧
    _wait_for_operation self operation fuel w =
    (OutOfFuel, mkWorld b' (clock w + 5 * Z.of_nat fuel) (log w)).
Proof.
  intros Hnever Hb. destruct w as [b c l].
  by apply (wait_pending_runs_on pending).
Qed.

(** C7. When the polls reach a result with status ['DONE'] (after [n] that
    were not), [_wait_for_operation] ends at that poll: it raises an
    exception carrying the error when the result has an ['error'] entry, and
    returns the result when it has none. *)
Theorem wait_for_operation_done (w : World B) n d b' fuel :
  polls_to_done poll (backend w) n d b' →
  (n < fuel)%nat →
  _wait_for_operation self operation fuel w =
  (match d !! "error" with
   | Some err => Raise (Exception err)
   | None => Ret d
   end, mkWorld b' (clock w + 5 * (Z.of_nat n + 1)) (log w)).
Proof.
  intros Hpolls Hfuel. destruct w as [b c l].
  by apply wait_polls_to_done.
Qed.

End Facts.

(** In the service of [Service], state [None] answers ['RUNNING'] for
    ever. *)
Lemma service_never_done final op_name :
  never_done
    (zoneOperations_get (compute (Service.cloud final))
       (project (Service.cloud final)) (zone (Service.cloud final)) op_name)
    (λ b, b = None).
Proof.
  intros b ->. exists Service.running, None, (PStr "RUNNING").
  split_and!; [reflexivity|by vm_compute|reflexivity|reflexivity].
Qed.

(** Three turns on an operation that never completes: fifteen seconds
    slept, and the loop has not ended. *)
Lemma wait_for_operation_no_deadline_witness :
  ∃ b', b' = None ∧
    _wait_for_operation (Service.cloud Service.done_ok)
      {[ "name" := PStr "operation-1" ]} 3 (Service.world None) =
    (OutOfFuel,
     mkWorld b' (clock (Service.world None) + 5 * Z.of_nat 3)
       (log (Service.world None))).
Proof.
  assert (Hn : ({[ "name" := PStr "operation-1" ]} : dict) !! "name" =
               Some (PStr "operation-1")) by (vm_compute; reflexivity).
  exact (wait_for_operation_no_deadline (Service.cloud Service.done_ok)
           {[ "name" := PStr "operation-1" ]} (PStr "operation-1") Hn
           (λ b, b = None) (Service.world None) 3
           (service_never_done Service.done_ok (PStr "operation-1")) eq_refl).
Defined.

(** C1 as worded fails: on an operation that never reports ['DONE'] no
    number of turns brings [_wait_for_operation] to return or to raise. *)
Lemma wait_for_operation_polls_forever :
  ¬ ∃ fuel,
      (_wait_for_operation (Service.cloud Service.done_ok)
         {[ "name" := PStr "operation-1" ]} fuel (Service.world None)).1
      ≠ OutOfFuel.
Proof.
  intros [fuel Hends]. apply Hends.
  assert (Hn : ({[ "name" := PStr "operation-1" ]} : dict) !! "name" =
               Some (PStr "operation-1")) by (vm_compute; reflexivity).
  destruct (wait_pending_runs_on (Service.cloud Service.done_ok)
              {[ "name" := PStr "operation-1" ]} (PStr "operation-1") Hn
              (λ b, b = None)
              (service_never_done Service.done_ok (PStr "operation-1"))
              fuel None 0 [] eq_refl) as (b' & _ & Hrun).
  unfold Service.world. by rewrite Hrun.
Qed.

Lemma service_polls_to_done final op_name status :
  final !! "status" = Some status →
  eq_str status "DONE" = true →
  polls_to_done
    (zoneOperations_get (compute (Service.cloud final))
       (project (Service.cloud final)) (zone (Service.cloud final)) op_name)
    (Some 2%nat) 2 final (Some 0%nat).
Proof.
  intros Hs Hd.
  apply (done_later _ _ Service.running (Some 1%nat) (PStr "RUNNING"));
    [reflexivity|by vm_compute|reflexivity|].
  apply (done_later _ _ Service.running (Some 0%nat) (PStr "RUNNING"));
    [reflexivity|by vm_compute|reflexivity|].
  by apply (done_now _ _ final (Some 0%nat) status).
Qed.

(** An operation that is done at the third poll, once with an error entry
    and once without. *)
Lemma wait_for_operation_done_witness :
  _wait_for_operation (Service.cloud Service.done_failed)
    {[ "name" := PStr "operation-1" ]} 5 (Service.world (Some 2%nat)) =
    (Raise (Exception (PDict [("errors", PList [PStr "QUOTA_EXCEEDED"])])),
     mkWorld (Some 0%nat) 15 []) ∧
  _wait_for_operation (Service.cloud Service.done_ok)
    {[ "name" := PStr "operation-1" ]} 5 (Service.world (Some 2%nat)) =
    (Ret Service.done_ok, mkWorld (Some 0%nat) 15 []).
Proof.
  assert (Hn : ({[ "name" := PStr "operation-1" ]} : dict) !! "name" =
               Some (PStr "operation-1")) by (vm_compute; reflexivity).
  split.
  - rewrite (wait_for_operation_done (Service.cloud Service.done_failed)
               {[ "name" := PStr "operation-1" ]} (PStr "operation-1") Hn
               (Service.world (Some 2%nat)) 2 Service.done_failed (Some 0%nat) 5).
    + by vm_compute.
    + apply (service_polls_to_done _ _ (PStr "DONE")); by vm_compute.
    + lia.
  - rewrite (wait_for_operation_done (Service.cloud Service.done_ok)
               {[ "name" := PStr "operation-1" ]} (PStr "operation-1") Hn
               (Service.world (Some 2%nat)) 2 Service.done_ok (Some 0%nat) 5).
    + by vm_compute.
    + apply (service_polls_to_done _ _ (PStr "DONE")); by vm_compute.
    + lia.
Defined.

End GCE_facts.

(** ** [EC2] *)

Module EC2_facts.
Import EC2.

Section Facts.
Context {B : Type}.
Variable self : EC2 B.

Lemma invoke_eq {A} c (f : B → outcome A * B) (w : World B) r b :
  f (backend w) = (r, b) →
  invoke c f w = (r, mkWorld b (calls w ++ [c]) (debug_log w)).
Proof. intros H. unfold invoke. by rewrite H. Qed.

Lemma creations_app cs1 cs2 :
  creations (cs1 ++ cs2) = (creations cs1 + creations cs2)%nat.
Proof.
  induction cs1 as [|c cs1 IH]; [done|].
  destruct c; simpl; rewrite IH; lia.
Qed.

(** A call that found the name listed attaches to the first listed id. *)
Lemma get_or_create_vpc_listed name ipv4_cidr (w : World B) entry rest s :
  looked_up_by_name (boto self) →
  describe_vpcs (boto self) name (backend w) = (Ret (entry :: rest), backend w) →
  entry !! "VpcId" = Some (PStr s) →
  get_or_create_vpc self name ipv4_cidr w =
    (Ret {| vpc_id := s |},
     mkWorld (backend w)
       (calls w ++ [DescribeVpcs name; VpcFromExisting (PStr s)])
       (debug_log w)).
Proof.
  intros Hc Hd He. unfold get_or_create_vpc, bind.
  rewrite (invoke_eq _ _ _ _ _ Hd). unfold lift, getitem. rewrite He.
  rewrite (invoke_eq _ _ _ (Ret {| vpc_id := s |}) (backend w)).
  - simpl. by rewrite <- app_assoc.
  - simpl. by apply (from_existing_listed _ Hc name _ entry rest).
Qed.

(** C9. Under the name-lookup behaviour of the provider, a second
    [get_or_create_vpc] with the name of a first one that returned gives a
    VPC of the same id, and does so by finding it: it only lists and
    attaches, changes nothing at the provider and creates nothing, so the
    two calls together create at most one VPC. *)
Theorem get_or_create_vpc_twice name cidr1 cidr2 (w w1 : World B) v1 :
  looked_up_by_name (boto self) →
  get_or_create_vpc self name cidr1 w = (Ret v1, w1) →
  ∃ v2 w2 vid,
    get_or_create_vpc self name cidr2 w1 = (Ret v2, w2) ∧
    vpc_id v2 = vpc_id v1 ∧
    backend w2 = backend w1 ∧
    calls w2 = calls w1 ++ [DescribeVpcs name; VpcFromExisting vid] ∧
    (creations (calls w2) ≤ creations (calls w) + 1)%nat.
Proof.
  intros Hc H1. unfold get_or_create_vpc, bind in H1.
  destruct (describe_vpcs (boto self) name (backend w)) as [r b] eqn:Hd.
  pose proof (describe_reads _ Hc _ _ _ _ Hd) as ->.
  rewrite (invoke_eq _ _ _ _ _ Hd) in H1.
  destruct r as [[|entry rest]|e|]; [| |done..].
  - (* no VPC of that name: the first call created one *)
    destruct (VPC_create (boto self) name cidr1 (backend w)) as [r b'] eqn:Hcr.
    rewrite (invoke_eq _ _ _ r b') in H1 by done.
    destruct r as [v|e|]; simplify_eq. simpl in *.
    destruct (create_listed _ Hc _ _ _ _ _ Hd Hcr) as (entry & rest & Hd' & He).
    eexists _, _, _. split; [by apply (get_or_create_vpc_listed _ _
      (mkWorld b' _ _) entry rest (vpc_id v1))|].
    simpl. split_and!; [done..|].
    rewrite !creations_app. simpl. lia.
  - (* the name was listed: the first call attached to the first entry *)
    unfold lift, getitem in H1.
    destruct (entry !! "VpcId") as [vid|] eqn:He; [|done].
    destruct (VPC_from_existing (boto self) vid (backend w)) as [r b'] eqn:Hf.
    pose proof (from_existing_reads _ Hc _ _ _ _ Hf) as ->.
    rewrite (invoke_eq _ _ _ r (backend w)) in H1 by done.
    destruct r as [v|e|]; simplify_eq. simpl in *.
    eexists v1, _, vid. split.
    { unfold get_or_create_vpc, bind.
      rewrite (invoke_eq _ _ (mkWorld (backend w) _ _) _ (backend w) Hd).
      unfold lift, getitem. rewrite He.
      by rewrite (invoke_eq _ _ (mkWorld (backend w) _ _) (Ret v1) (backend w)). }
    simpl. split_and!; [done|done|by rewrite <- app_assoc|].
    rewrite !creations_app. simpl. lia.
Qed.

Lemma snapshot_prefix instance (clean : bool) (w : World B) b1 b2 :
  (if clean then instance_clean (boto self) instance (backend w)
   else (Ret tt, backend w)) = (Ret tt, b1) →
  instance_shutdown (boto self) instance true b1 = (Ret tt, b2) →
  snapshot self instance clean w =
  (response <- invoke (CreateImage (tag self +:+ "-" +:+ image_id instance)
                         (id instance))
                 (create_image (boto self)
                    (tag self +:+ "-" +:+ image_id instance) (id instance)) ;;
   image <- lift (getitem response "ImageId") ;;
   _wait_for_snapshot self image ;;;
   invoke (InstanceStart instance true)
     (instance_start (boto self) instance true) ;;;
   ret image)
    (mkWorld b2
       (calls w ++ (if clean then [InstanceClean instance] else []) ++
                   [InstanceShutdown instance true])
       (debug_log w ++ ["creating custom ami from instance " +:+ id instance])).
Proof.
  intros Hclean Hdown. unfold snapshot. unfold bind at 1.
  destruct clean.
  - rewrite (invoke_eq _ _ _ _ _ Hclean). unfold bind at 1.
    rewrite (invoke_eq _ _ _ (Ret tt) b2) by done.
    unfold bind at 1. simpl. by rewrite <- app_assoc.
  - unfold ret at 1. injection Hclean as <-. unfold bind at 1.
    rewrite (invoke_eq _ _ _ (Ret tt) b2) by done.
    unfold bind at 1. done.
Qed.

(** C4, as the code has it. After the clean pass (when asked for) and the
    shutdown, a capture that raises ends [snapshot] at once with that
    exception: the last request is the capture, no start of the instance is
    requested and the provider is left as the capture left it.  When the
    capture and the waits succeed, the instance is started again before the
    image id is returned. *)
Theorem snapshot_restarts_only_after_capture instance (clean : bool)
    (w : World B) b1 b2 :
  (if clean then instance_clean (boto self) instance (backend w)
   else (Ret tt, backend w)) = (Ret tt, b1) →
  instance_shutdown (boto self) instance true b1 = (Ret tt, b2) →
  (∀ e b3,
     create_image (boto self) (tag self +:+ "-" +:+ image_id instance)
       (id instance) b2 = (Raise e, b3) →
     snapshot self instance clean w =
       (Raise e,
        mkWorld b3 (calls w ++ up_to_capture self instance clean)
          (debug_log w ++ ["creating custom ami from instance " +:+ id instance])))
  ∧
  (∀ response image b3 b4 b5 b6 b7,
     create_image (boto self) (tag self +:+ "-" +:+ image_id instance)
       (id instance) b2 = (Ret response, b3) →
     response !! "ImageId" = Some image →
     image_wait_until_exists (boto self) image b3 = (Ret tt, b4) →
     waiter_image_available (boto self) image b4 = (Ret tt, b5) →
     image_reload (boto self) image b5 = (Ret tt, b6) →
     instance_start (boto self) instance true b6 = (Ret tt, b7) →
     snapshot self instance clean w =
       (Ret image,
        mkWorld b7
          (calls w ++ up_to_capture self instance clean ++
             [ImageWaitUntilExists image; WaiterImageAvailable image;
              ImageReload image; InstanceStart instance true])
          (debug_log w ++ ["creating custom ami from instance " +:+ id instance]))).
Proof.
  intros Hclean Hdown.
  rewrite (snapshot_prefix _ _ _ _ _ Hclean Hdown). unfold up_to_capture.
  split.
  - intros e b3 Hcap. unfold bind at 1.
    rewrite (invoke_eq _ _ _ (Raise e) b3) by done.
    simpl. by rewrite <- !app_assoc.
  - intros response image b3 b4 b5 b6 b7 Hcap Himg H4 H5 H6 H7.
    unfold bind at 1. rewrite (invoke_eq _ _ _ (Ret response) b3) by done.
    unfold bind at 1, lift, getitem. rewrite Himg.
    unfold _wait_for_snapshot, bind.
    rewrite (invoke_eq _ _ _ (Ret tt) b4) by done.
    rewrite (invoke_eq _ _ _ (Ret tt) b5) by done.
    rewrite (invoke_eq _ _ _ (Ret tt) b6) by done.
    rewrite (invoke_eq _ _ _ (Ret tt) b7) by done.
    simpl. by rewrite <- !app_assoc.
Qed.

(** The loop over [kwargs.items()] leaves every pair of [kwargs] in the
    arguments and keeps the other entries. *)
Lemma update_from_lookup (kwargs args : dict) key :
  update_from kwargs args !! key =
    match kwargs !! key with
    | Some value => Some value
    | None => args !! key
    end.
Proof.
  unfold update_from.
  apply (map_fold_weak_ind
           (λ (acc : dict) (m : dict),
              acc !! key = match m !! key with
                           | Some value => Some value
                           | None => args !! key
                           end)).
  - by rewrite lookup_empty.
  - intros i x m acc Hi IH. destruct (decide (i = key)) as [->|Hne].
    + by rewrite !lookup_insert_eq.
    + by rewrite !lookup_insert_ne.
Qed.

(** Where a pair of [kwargs] ends up in the request. *)
Lemma request_kwargs image_id instance_type user_data (kwargs : dict) net key value :
  kwargs !! key = Some value →
  net = None ∨ (key ≠ "SubnetId" ∧ key ≠ "SecurityGroupIds") →
  request self image_id instance_type user_data kwargs net !! key = Some value.
Proof.
  intros Hk Hnet. unfold request.
  assert (Hu : ∀ args : dict, update_from kwargs args !! key = Some value).
  { intros args. by rewrite update_from_lookup, Hk. }
  destruct net as [[subnet_id sgs]|]; [|apply Hu].
  destruct Hnet as [|[H1 H2]]; [done|].
  rewrite !lookup_insert_ne by done. apply Hu.
Qed.

Lemma request_no_kwargs image_id instance_type user_data (kwargs : dict) key :
  kwargs !! key = None →
  request self image_id instance_type user_data kwargs None !! key =
  request self image_id instance_type user_data ∅ None !! key.
Proof.
  intros Hk. unfold request.
  by rewrite !update_from_lookup, Hk, lookup_empty.
Qed.

Lemma request_vpc image_id instance_type user_data (kwargs : dict) subnet_id sgs :
  request self image_id instance_type user_data kwargs (Some (subnet_id, sgs))
    !! "SubnetId" = Some (PStr subnet_id) ∧
  request self image_id instance_type user_data kwargs (Some (subnet_id, sgs))
    !! "SecurityGroupIds" = Some (PList (PStr <$> sgs)).
Proof.
  unfold request. split.
  - rewrite lookup_insert_ne by done. by rewrite lookup_insert_eq.
  - by rewrite lookup_insert_eq.
Qed.

(** The end of [launch], from the debug message on, for the arguments
    [args]. *)
Local Abbreviation submit args wait :=
  (_log_debug "launching instance" ;;;
   instances <- invoke (CreateInstances args)
                  (create_instances (boto self) args) ;;
   instance0 <- lift (first_item instances) ;;
   (if wait
    then invoke (InstanceWait {| instance_key_pair := key_pair self;
                                 _instance := instance0 |})
           (instance_wait (boto self)
              {| instance_key_pair := key_pair self; _instance := instance0 |})
    else ret tt) ;;;
   ret {| instance_key_pair := key_pair self; _instance := instance0 |}).

Lemma launch_no_vpc image_id instance_type user_data (wait : bool) kwargs
    (w : World B) :
  launch self image_id instance_type user_data None wait kwargs w =
  submit (request self image_id instance_type user_data kwargs None) wait w.
Proof. reflexivity. Qed.

Lemma launch_vpc image_id instance_type user_data vpc (wait : bool) kwargs
    (w : World B) subnet_id sgs b1 b2 :
  subnets_all (boto self) vpc (backend w) = (Ret [subnet_id], b1) →
  security_groups_all (boto self) vpc b1 = (Ret sgs, b2) →
  launch self image_id instance_type user_data (Some vpc) wait kwargs w =
  submit (request self image_id instance_type user_data kwargs
            (Some (subnet_id, sgs))) wait
    (mkWorld b2 (calls w ++ [SubnetsAll vpc; SecurityGroupsAll vpc])
       (debug_log w)).
Proof.
  intros Hs Hg. unfold launch. unfold bind at 1. unfold bind at 1.
  unfold try_except, bind at 1.
  rewrite (invoke_eq _ _ _ _ _ Hs). unfold lift, unpack_one.
  unfold bind at 1.
  rewrite (invoke_eq _ _ (mkWorld b1 _ _) (Ret sgs) b2) by done.
  unfold ret at 1. simpl. by rewrite <- app_assoc.
Qed.

(** The first request of the end of [launch] is [create_instances] with the
    arguments it was given. *)
Lemma submit_calls args (wait : bool) (w : World B) :
  ∃ rest, calls (submit args wait w).2 = calls w ++ CreateInstances args :: rest.
Proof.
  unfold bind, _log_debug, invoke, lift. simpl.
  destruct (create_instances (boto self) args (backend w)) as [[l|e|] b];
    simpl; [|by exists []..].
  destruct l as [|i0 more]; simpl; [by exists []|].
  destruct wait; simpl; [|by exists []].
  destruct (instance_wait _ _ b) as [[[]|e|] b']; simpl;
    rewrite <- app_assoc; by eexists.
Qed.

(** When the provider answers with instances, the end of [launch] returns
    the handle of the first one, after the wait if one is asked for. *)
Lemma submit_returns args (wait : bool) (w : World B) instance0 more b1 b2 :
  create_instances (boto self) args (backend w) = (Ret (instance0 :: more), b1) →
  (if wait
   then instance_wait (boto self)
          {| instance_key_pair := key_pair self; _instance := instance0 |} b1
   else (Ret tt, b1)) = (Ret tt, b2) →
  submit args wait w =
  (Ret {| instance_key_pair := key_pair self; _instance := instance0 |},
   mkWorld b2
     (calls w ++ CreateInstances args ::
        (if wait
         then [InstanceWait {| instance_key_pair := key_pair self;
                               _instance := instance0 |}]
         else []))
     (debug_log w ++ ["launching instance"])).
Proof.
  intros Hc Hw. unfold bind, _log_debug, invoke, lift. simpl.
  rewrite Hc. simpl. destruct wait; simpl.
  - rewrite Hw. by rewrite <- app_assoc.
  - by injection Hw as <-.
Qed.

(** [launch] without a vpc returns the handle of the first instance the
    provider created. *)
Lemma launch_returns_no_vpc image_id instance_type user_data (wait : bool)
    kwargs (w : World B) instance0 more b1 b2 :
  create_instances (boto self)
    (request self image_id instance_type user_data kwargs None) (backend w) =
    (Ret (instance0 :: more), b1) →
  (if wait
   then instance_wait (boto self)
          {| instance_key_pair := key_pair self; _instance := instance0 |} b1
   else (Ret tt, b1)) = (Ret tt, b2) →
  ∃ w',
    launch self image_id instance_type user_data None wait kwargs w =
    (Ret {| instance_key_pair := key_pair self; _instance := instance0 |}, w').
Proof.
  intros Hc Hw. rewrite launch_no_vpc.
  rewrite (submit_returns _ _ _ _ _ _ _ Hc Hw). eauto.
Qed.

(** So does [launch] into a vpc that answers with one subnet. *)
Lemma launch_returns_vpc image_id instance_type user_data vpc (wait : bool)
    kwargs (w : World B) subnet_id sgs instance0 more b1 b2 b3 b4 :
  subnets_all (boto self) vpc (backend w) = (Ret [subnet_id], b1) →
  security_groups_all (boto self) vpc b1 = (Ret sgs, b2) →
  create_instances (boto self)
    (request self image_id instance_type user_data kwargs
       (Some (subnet_id, sgs))) b2 = (Ret (instance0 :: more), b3) →
  (if wait
   then instance_wait (boto self)
          {| instance_key_pair := key_pair self; _instance := instance0 |} b3
   else (Ret tt, b3)) = (Ret tt, b4) →
  ∃ w',
    launch self image_id instance_type user_data (Some vpc) wait kwargs w =
    (Ret {| instance_key_pair := key_pair self; _instance := instance0 |}, w').
Proof.
  intros Hs Hg Hc Hw. rewrite (launch_vpc _ _ _ _ _ _ _ _ _ _ _ Hs Hg).
  rewrite (submit_returns _ _ (mkWorld b2 _ _) _ _ _ _ Hc Hw). eauto.
Qed.

(** C8, as the code has it. The [create_instances] request is made whatever
    the extra keyword options are: without a vpc always, with a vpc whenever
    the vpc answers with one subnet and its security groups.  Without a vpc
    every pair of the options is in the arguments of the request with the
    value it was given.  With a vpc the keys ['SubnetId'] and
    ['SecurityGroupIds'] hold the vpc's subnet and security groups, whatever
    the options gave for them, and every pair under another key is in the
    arguments with the value it was given. *)
Theorem launch_passes_kwargs image_id instance_type user_data (wait : bool)
    (kwargs : dict) (w : World B) :
  (∃ args rest,
     calls (launch self image_id instance_type user_data None wait kwargs w).2 =
       calls w ++ CreateInstances args :: rest ∧
     ∀ key value, kwargs !! key = Some value → args !! key = Some value) ∧
  (∀ vpc subnet_id sgs b1 b2,
     subnets_all (boto self) vpc (backend w) = (Ret [subnet_id], b1) →
     security_groups_all (boto self) vpc b1 = (Ret sgs, b2) →
     ∃ args rest,
       calls (launch self image_id instance_type user_data (Some vpc) wait
                kwargs w).2 =
         calls w ++ SubnetsAll vpc :: SecurityGroupsAll vpc ::
           CreateInstances args :: rest ∧
       args !! "SubnetId" = Some (PStr subnet_id) ∧
       args !! "SecurityGroupIds" = Some (PList (PStr <$> sgs)) ∧
       ∀ key value,
         kwargs !! key = Some value →
         key ≠ "SubnetId" → key ≠ "SecurityGroupIds" →
         args !! key = Some value).
Proof.
  split.
  - rewrite launch_no_vpc.
    destruct (submit_calls
                (request self image_id instance_type user_data kwargs None)
                wait w) as [rest Hrest].
    exists (request self image_id instance_type user_data kwargs None), rest.
    split; [exact Hrest|].
    intros key value Hk. apply request_kwargs; [done|by left].
  - intros vpc subnet_id sgs b1 b2 Hs Hg.
    rewrite (launch_vpc _ _ _ _ _ _ _ _ _ _ _ Hs Hg).
    destruct (submit_calls
                (request self image_id instance_type user_data kwargs
                   (Some (subnet_id, sgs))) wait
                (mkWorld b2 (calls w ++ [SubnetsAll vpc; SecurityGroupsAll vpc])
                   (debug_log w))) as [rest Hrest].
    exists (request self image_id instance_type user_data kwargs
              (Some (subnet_id, sgs))), rest.
    split_and!.
    + rewrite Hrest. cbn [calls]. by rewrite <- app_assoc.
    + apply request_vpc.
    + apply request_vpc.
    + intros key value Hk H1 H2. apply request_kwargs; [done|by right].
Qed.

(** C10. The extra keyword options are applied after the arguments made of
    the named parameters: in the request every pair of [kwargs] has replaced
    what stood under its key (['ImageId'] and ['InstanceType'] hold the named
    parameters only when [kwargs] has no such key).  With a vpc,
    ['SubnetId'] and ['SecurityGroupIds'] are set after that and hold the
    vpc's subnet and security groups, whatever [kwargs] gave for them; the
    other pairs of [kwargs] stay. *)
Theorem launch_kwargs_then_vpc image_id instance_type user_data (wait : bool)
    (kwargs : dict) (w : World B) :
  ((∃ rest,
      calls (launch self image_id instance_type user_data None wait kwargs w).2 =
        calls w ++
          CreateInstances
            (request self image_id instance_type user_data kwargs None) :: rest) ∧
   (∀ key value, kwargs !! key = Some value →
      request self image_id instance_type user_data kwargs None !! key =
        Some value) ∧
   (kwargs !! "ImageId" = None →
      request self image_id instance_type user_data kwargs None !! "ImageId" =
        Some (PStr image_id)) ∧
   (kwargs !! "InstanceType" = None →
      request self image_id instance_type user_data kwargs None !! "InstanceType" =
        Some (PStr instance_type))) ∧
  (∀ vpc subnet_id sgs b1 b2,
     subnets_all (boto self) vpc (backend w) = (Ret [subnet_id], b1) →
     security_groups_all (boto self) vpc b1 = (Ret sgs, b2) →
     (∃ rest,
        calls (launch self image_id instance_type user_data (Some vpc) wait
                 kwargs w).2 =
          calls w ++ SubnetsAll vpc :: SecurityGroupsAll vpc ::
            CreateInstances
              (request self image_id instance_type user_data kwargs
                 (Some (subnet_id, sgs))) :: rest) ∧
     request self image_id instance_type user_data kwargs
       (Some (subnet_id, sgs)) !! "SubnetId" = Some (PStr subnet_id) ∧
     request self image_id instance_type user_data kwargs
       (Some (subnet_id, sgs)) !! "SecurityGroupIds" =
         Some (PList (PStr <$> sgs)) ∧
     (∀ key value, kwargs !! key = Some value →
        key ≠ "SubnetId" → key ≠ "SecurityGroupIds" →
        request self image_id instance_type user_data kwargs
          (Some (subnet_id, sgs)) !! key = Some value)).
Proof.
  split; [split_and!|].
  - rewrite launch_no_vpc. apply submit_calls.
  - intros key value Hk. apply request_kwargs; [done|by left].
  - intros Hk. rewrite request_no_kwargs by done.
    unfold request, update_from. rewrite map_fold_empty.
    destruct (truthy_str user_data); [rewrite lookup_insert_ne by done|];
      unfold base_args; by simplify_map_eq.
  - intros Hk. rewrite request_no_kwargs by done.
    unfold request, update_from. rewrite map_fold_empty.
    destruct (truthy_str user_data); [rewrite lookup_insert_ne by done|];
      unfold base_args; by simplify_map_eq.
  - intros vpc subnet_id sgs b1 b2 Hs Hg. split_and!.
    + rewrite (launch_vpc _ _ _ _ _ _ _ _ _ _ _ Hs Hg).
      destruct (submit_calls
                  (request self image_id instance_type user_data kwargs
                     (Some (subnet_id, sgs))) wait
                  (mkWorld b2 (calls w ++ [SubnetsAll vpc; SecurityGroupsAll vpc])
                     (debug_log w))) as [rest Hrest].
      exists rest. rewrite Hrest. cbn [calls]. by rewrite <- app_assoc.
    + apply request_vpc.
    + apply request_vpc.
    + intros key value Hk H1 H2. apply request_kwargs; [done|by right].
Qed.

End Facts.

(** The provider of [Provider] tags and lists VPCs by name. *)
Lemma provider_looked_up_by_name : looked_up_by_name Provider.api.
Proof.
  split; simpl.
  - by intros name b r b' [= _ <-].
  - intros vid b r b'. by destruct vid; intros [= _ <-].
  - intros name b entry rest s Hd He. injection Hd as Hd.
    destruct (List.filter _ _) as [|p ps]; [done|].
    injection Hd as <- _. unfold Provider.vpc_entry in He.
    rewrite lookup_singleton_eq in He. by injection He as <-.
  - intros name _ b v b' Hd [= <- <-]. injection Hd as Hd.
    apply fmap_nil_inv in Hd.
    eexists _, []. simpl. rewrite List.filter_app, Hd. simpl.
    unfold Provider.named at 1. simpl. rewrite String.eqb_refl. simpl.
    split; [done|]. unfold Provider.vpc_entry. simpl.
    by rewrite lookup_singleton_eq.
Qed.

(** Two calls for the name ['test-net'] at a provider that has no VPC. *)
Lemma get_or_create_vpc_twice_witness :
  ∃ v2 w2 vid,
    get_or_create_vpc Provider.cloud "test-net" "192.168.1.0/20"
      (get_or_create_vpc Provider.cloud "test-net" "192.168.1.0/20"
         (Provider.world Provider.fresh)).2 = (Ret v2, w2) ∧
    vpc_id v2 = "vpc-test-net" ∧
    backend w2 =
      backend (get_or_create_vpc Provider.cloud "test-net" "192.168.1.0/20"
                 (Provider.world Provider.fresh)).2 ∧
    calls w2 =
      calls (get_or_create_vpc Provider.cloud "test-net" "192.168.1.0/20"
               (Provider.world Provider.fresh)).2 ++
        [DescribeVpcs "test-net"; VpcFromExisting vid] ∧
    (creations (calls w2) ≤ 0 + 1)%nat.
Proof.
  apply (get_or_create_vpc_twice Provider.cloud "test-net" "192.168.1.0/20"
           "192.168.1.0/20" (Provider.world Provider.fresh)
           _ {| vpc_id := "vpc-test-net" |} provider_looked_up_by_name).
  reflexivity.
Defined.

(** A snapshot whose capture fails, and one whose capture succeeds. *)
Lemma snapshot_restarts_only_after_capture_witness :
  snapshot Provider.cloud Provider.handle true (Provider.world Provider.failing) =
    (Raise (ProviderError "capture failed"),
     mkWorld (Provider.set_running false Provider.failing)
       [InstanceClean Provider.handle; InstanceShutdown Provider.handle true;
        CreateImage "examples-ami-base" "i-0001"]
       ["creating custom ami from instance i-0001"]) ∧
  snapshot Provider.cloud Provider.handle true (Provider.world Provider.fresh) =
    (Ret (PStr "ami-snapshot"),
     mkWorld (Provider.set_running true Provider.fresh)
       [InstanceClean Provider.handle; InstanceShutdown Provider.handle true;
        CreateImage "examples-ami-base" "i-0001";
        ImageWaitUntilExists (PStr "ami-snapshot");
        WaiterImageAvailable (PStr "ami-snapshot");
        ImageReload (PStr "ami-snapshot");
        InstanceStart Provider.handle true]
       ["creating custom ami from instance i-0001"]).
Proof.
  split.
  - apply (snapshot_restarts_only_after_capture Provider.cloud Provider.handle
             true (Provider.world Provider.failing) _ _ eq_refl eq_refl).
    reflexivity.
  - eapply (snapshot_restarts_only_after_capture Provider.cloud Provider.handle
              true (Provider.world Provider.fresh) _ _ eq_refl eq_refl);
      reflexivity.
Defined.

(** C4 as worded fails: the capture fails after the instance was stopped,
    and [snapshot] propagates the failure having requested no start; the
    instance is left stopped. *)
Lemma snapshot_failed_capture_leaves_stopped :
  Provider.running Provider.failing = true ∧
  snapshot Provider.cloud Provider.handle true (Provider.world Provider.failing) =
    (Raise (ProviderError "capture failed"),
     mkWorld (Provider.set_running false Provider.failing)
       [InstanceClean Provider.handle; InstanceShutdown Provider.handle true;
        CreateImage "examples-ami-base" "i-0001"]
       ["creating custom ami from instance i-0001"]) ∧
  Provider.running
    (backend (snapshot Provider.cloud Provider.handle true
                (Provider.world Provider.failing)).2) = false.
Proof. repeat split. Qed.

(** An option boto3 knows and [launch] does not name, without a vpc; and a
    launch into a vpc by a caller who gives that option and a subnet. *)
Lemma launch_passes_kwargs_witness :
  (∃ args rest,
     calls (launch Provider.cloud "ami-base" "t2.micro" None None false
              {[ "EbsOptimized" := PBool true ]}
              (Provider.world Provider.fresh)).2 =
       calls (Provider.world Provider.fresh) ++ CreateInstances args :: rest ∧
     args !! "EbsOptimized" = Some (PBool true)) ∧
  (∃ args rest,
     calls (launch Provider.cloud "ami-base" "t2.micro" None
              (Some {| vpc_id := "vpc-1" |}) false
              {[ "EbsOptimized" := PBool true;
                 "SubnetId" := PStr "subnet-mine" ]}
              (Provider.world Provider.fresh)).2 =
       calls (Provider.world Provider.fresh) ++
         SubnetsAll {| vpc_id := "vpc-1" |} ::
         SecurityGroupsAll {| vpc_id := "vpc-1" |} ::
         CreateInstances args :: rest ∧
     args !! "SubnetId" = Some (PStr "subnet-a") ∧
     args !! "SecurityGroupIds" = Some (PList [PStr "sg-1"]) ∧
     args !! "EbsOptimized" = Some (PBool true)).
Proof.
  split.
  - destruct (launch_passes_kwargs Provider.cloud "ami-base" "t2.micro" None
                false {[ "EbsOptimized" := PBool true ]}
                (Provider.world Provider.fresh))
      as [(args & rest & Hcalls & Hkw) _].
    exists args, rest. split; [exact Hcalls|].
    apply Hkw. by vm_compute.
  - destruct (launch_passes_kwargs Provider.cloud "ami-base" "t2.micro" None
                false
                {[ "EbsOptimized" := PBool true;
                   "SubnetId" := PStr "subnet-mine" ]}
                (Provider.world Provider.fresh)) as [_ Hvpc].
    destruct (Hvpc {| vpc_id := "vpc-1" |} "subnet-a" ["sg-1"] _ _
                eq_refl eq_refl) as (args & rest & Hcalls & Hsub & Hsg & Hkw).
    exists args, rest. split_and!; [exact Hcalls|exact Hsub|exact Hsg|].
    apply Hkw; [by vm_compute|done|done].
Defined.

(** C8 as worded fails: with a vpc, the caller's ['SubnetId'] is not in the
    request with the value given; the vpc's subnet is. *)
Lemma launch_vpc_replaces_subnet_kwarg :
  ∃ args instance,
    ({[ "SubnetId" := PStr "subnet-mine" ]} : dict) !! "SubnetId" =
      Some (PStr "subnet-mine") ∧
    launch Provider.cloud "ami-base" "t2.micro" None
      (Some {| vpc_id := "vpc-1" |}) false
      {[ "SubnetId" := PStr "subnet-mine" ]} (Provider.world Provider.fresh) =
      (Ret instance,
       mkWorld (Provider.set_running true Provider.fresh)
         [SubnetsAll {| vpc_id := "vpc-1" |};
          SecurityGroupsAll {| vpc_id := "vpc-1" |};
          CreateInstances args]
         ["launching instance"]) ∧
    args !! "SubnetId" = Some (PStr "subnet-a").
Proof. eexists _, _. split; [reflexivity|]. split; reflexivity. Qed.

(** A launch into a vpc with a caller who also gives ['ImageId'] and
    ['SubnetId']. *)
Lemma launch_kwargs_then_vpc_witness :
  request Provider.cloud "ami-base" "t2.micro" None
    {[ "ImageId" := PStr "ami-other"; "SubnetId" := PStr "subnet-mine" ]}
    (Some ("subnet-a", ["sg-1"])) !! "SubnetId" = Some (PStr "subnet-a") ∧
  request Provider.cloud "ami-base" "t2.micro" None
    {[ "ImageId" := PStr "ami-other"; "SubnetId" := PStr "subnet-mine" ]}
    (Some ("subnet-a", ["sg-1"])) !! "ImageId" = Some (PStr "ami-other").
Proof.
  destruct (launch_kwargs_then_vpc Provider.cloud "ami-base" "t2.micro" None
              false
              {[ "ImageId" := PStr "ami-other"; "SubnetId" := PStr "subnet-mine" ]}
              (Provider.world Provider.fresh)) as [_ Hvpc].
  destruct (Hvpc {| vpc_id := "vpc-1" |} "subnet-a" ["sg-1"] _ _
              eq_refl eq_refl) as (_ & Hsub & _ & Hkw).
  split; [exact Hsub|].
  apply Hkw; [reflexivity|done|done].
Defined.

End EC2_facts.

(** ** [launch] on the two clouds *)

Module Launch_facts.

(** Whatever [GCE.launch] returns is [None]. *)
Lemma gce_launch_None {B} (self : GCE.GCE B) image_id instance_type user_data
    (wait : bool) kwargs fuel (w w' : GCE.World B) v :
  GCE.launch self image_id instance_type user_data wait kwargs fuel w = (Ret v, w') →
  v = PNone.
Proof.
  unfold GCE.launch. intros H.
  repeat (apply Py_facts.bind_Ret_inv in H as (? & ? & _ & H)).
  unfold ret in H. congruence.
Qed.

(** The log of [GCE.launch] once the check of [user_data] is past. *)
Local Abbreviation gce_warned w user_data :=
  (GCE.log w ++
     if truthy_str user_data
     then [("warning", PStr "GCE platform does not support user-data")]
     else []).

(** The end of [GCE.launch], from the fetch of the instance on. *)
Local Abbreviation gce_report self :=
  (result <- GCE.call (GCE.instances_get (GCE.compute self)
                         (GCE.project self) (GCE.zone self) (GCE.tag self)) ;;
   nics <- lift (getitem result "networkInterfaces") ;;
   nic <- lift (subscript_0 nics) ;;
   access_configs <- lift (subscript_key nic "accessConfigs") ;;
   access_config <- lift (subscript_0 access_configs) ;;
   nat_ip <- lift (subscript_key access_config "natIP") ;;
   GCE._log "info" nat_ip ;;;
   ret PNone).

(** [GCE.launch] up to the wait: the insert request is followed by
    [_wait_for_operation] on its answer, whatever [wait] is. *)
Lemma gce_launch_insert {B} (self : GCE.GCE B) image_id instance_type user_data
    (wait : bool) kwargs fuel (w : GCE.World B) operation b0 :
  GCE.instances_insert (GCE.compute self) (GCE.project self) (GCE.zone self)
    (GCE.config self image_id instance_type) (GCE.backend w) =
    (Ret operation, b0) →
  GCE.launch self image_id instance_type user_data wait kwargs fuel w =
  (_ <- GCE._wait_for_operation self operation fuel ;; gce_report self)
    (GCE.mkWorld b0 (GCE.clock w) (gce_warned w user_data)).
Proof.
  intros Hins. unfold GCE.launch. unfold bind at 1.
  assert (Hwarn : (if truthy_str user_data
                   then GCE._log "warning"
                          (PStr "GCE platform does not support user-data")
                   else ret tt) w =
                  (Ret tt,
                   GCE.mkWorld (GCE.backend w) (GCE.clock w)
                     (gce_warned w user_data))).
  { destruct (truthy_str user_data); unfold GCE._log, ret; simpl; [done|].
    rewrite app_nil_r. by destruct w. }
  rewrite Hwarn. unfold bind at 1. unfold GCE.call at 1. simpl.
  by rewrite Hins.
Qed.

(** [GCE.launch] on an operation that completes: the wait ends at the poll
    that reports ['DONE'], and only then does the launch go on. *)
Lemma gce_launch_after_wait {B} (self : GCE.GCE B) image_id instance_type
    user_data (wait : bool) kwargs fuel (w : GCE.World B) operation op_name
    b0 n d b1 :
  GCE.instances_insert (GCE.compute self) (GCE.project self) (GCE.zone self)
    (GCE.config self image_id instance_type) (GCE.backend w) =
    (Ret operation, b0) →
  operation !! "name" = Some op_name →
  GCE.polls_to_done
    (GCE.zoneOperations_get (GCE.compute self) (GCE.project self)
       (GCE.zone self) op_name) b0 n d b1 →
  (n < fuel)%nat →
  GCE.launch self image_id instance_type user_data wait kwargs fuel w =
  match d !! "error" with
  | Some err =>
      (Raise (Exception err),
       GCE.mkWorld b1 (GCE.clock w + 5 * (Z.of_nat n + 1))
         (gce_warned w user_data))
  | None =>
      gce_report self
        (GCE.mkWorld b1 (GCE.clock w + 5 * (Z.of_nat n + 1))
           (gce_warned w user_data))
  end.
Proof.
  intros Hins Hname Hpolls Hfuel.
  rewrite (gce_launch_insert _ _ _ _ _ _ _ _ _ _ Hins). unfold bind at 1.
  rewrite (GCE_facts.wait_polls_to_done self operation op_name Hname
             n d b0 b1 Hpolls fuel _ _ Hfuel).
  by destruct (d !! "error").
Qed.

(** [GCE.launch] on an operation that stays pending: the launch is still in
    the wait after any number of turns. *)
Lemma gce_launch_pending {B} (self : GCE.GCE B) image_id instance_type
    user_data (wait : bool) kwargs (w : GCE.World B) operation op_name b0
    (pending : B → Prop) fuel :
  GCE.instances_insert (GCE.compute self) (GCE.project self) (GCE.zone self)
    (GCE.config self image_id instance_type) (GCE.backend w) =
    (Ret operation, b0) →
  operation !! "name" = Some op_name →
  GCE.never_done
    (GCE.zoneOperations_get (GCE.compute self) (GCE.project self)
       (GCE.zone self) op_name) pending →
  pending b0 →
  ∃ b', pending b' ∧
    GCE.launch self image_id instance_type user_data wait kwargs fuel w =
    (OutOfFuel,
     GCE.mkWorld b' (GCE.clock w + 5 * Z.of_nat fuel) (gce_warned w user_data)).
Proof.
  intros Hins Hname Hnever Hb0.
  destruct (GCE_facts.wait_pending_runs_on self operation op_name Hname
              pending Hnever fuel b0 (GCE.clock w) (gce_warned w user_data) Hb0)
    as (b' & Hb' & Hrun).
  exists b'. split; [done|].
  rewrite (gce_launch_insert _ _ _ _ _ _ _ _ _ _ Hins). unfold bind at 1.
  by rewrite Hrun.
Qed.

(** C2, as the code has it. [EC2.launch] returns the handle of the first
    instance the provider created, carrying that instance's id, with [wait]
    set and with [wait] unset alike (with [wait] set, after the wait), when
    the provider's calls succeed and, for a launch into a vpc, the vpc has
    one subnet.  [GCE.launch] returns no handle and does not read [wait].
    With [wait] set or unset it waits for the insert operation: when the
    operation completes without error and the instance shows a NAT
    address, the launch ends after the poll that reports ['DONE'], has
    logged that address at level info and returns [None]; while the
    operation stays pending the launch has not returned.  Whenever it
    returns, it returns [None]. *)
Theorem launch_handle_on_ec2_not_gce :
  (∀ B (self : EC2.EC2 B) image_id instance_type user_data (wait : bool)
     kwargs (w : EC2.World B) instance0 more b1 b2,
     EC2.create_instances (EC2.boto self)
       (EC2.request self image_id instance_type user_data kwargs None)
       (EC2.backend w) = (Ret (instance0 :: more), b1) →
     (if wait
      then EC2.instance_wait (EC2.boto self)
             {| EC2.instance_key_pair := EC2.key_pair self;
                EC2._instance := instance0 |} b1
      else (Ret tt, b1)) = (Ret tt, b2) →
     ∃ handle w',
       EC2.launch self image_id instance_type user_data None wait kwargs w =
         (Ret handle, w') ∧
       EC2.id handle = EC2.instance_id instance0) ∧
  (∀ B (self : EC2.EC2 B) image_id instance_type user_data vpc (wait : bool)
     kwargs (w : EC2.World B) subnet_id sgs instance0 more b1 b2 b3 b4,
     EC2.subnets_all (EC2.boto self) vpc (EC2.backend w) =
       (Ret [subnet_id], b1) →
     EC2.security_groups_all (EC2.boto self) vpc b1 = (Ret sgs, b2) →
     EC2.create_instances (EC2.boto self)
       (EC2.request self image_id instance_type user_data kwargs
          (Some (subnet_id, sgs))) b2 = (Ret (instance0 :: more), b3) →
     (if wait
      then EC2.instance_wait (EC2.boto self)
             {| EC2.instance_key_pair := EC2.key_pair self;
                EC2._instance := instance0 |} b3
      else (Ret tt, b3)) = (Ret tt, b4) →
     ∃ handle w',
       EC2.launch self image_id instance_type user_data (Some vpc) wait
         kwargs w = (Ret handle, w') ∧
       EC2.id handle = EC2.instance_id instance0) ∧
  (∀ B (self : GCE.GCE B) image_id instance_type user_data (wait : bool)
     kwargs fuel (w : GCE.World B) operation op_name b0 n d b1 result b2
     nic nics config configs nat_ip,
     GCE.instances_insert (GCE.compute self) (GCE.project self) (GCE.zone self)
       (GCE.config self image_id instance_type) (GCE.backend w) =
       (Ret operation, b0) →
     operation !! "name" = Some op_name →
     GCE.polls_to_done
       (GCE.zoneOperations_get (GCE.compute self) (GCE.project self)
          (GCE.zone self) op_name) b0 n d b1 →
     (n < fuel)%nat →
     d !! "error" = None →
     GCE.instances_get (GCE.compute self) (GCE.project self) (GCE.zone self)
       (GCE.tag self) b1 = (Ret result, b2) →
     result !! "networkInterfaces" = Some (PList (PDict nic :: nics)) →
     assoc nic "accessConfigs" = Some (PList (PDict config :: configs)) →
     assoc config "natIP" = Some nat_ip →
     GCE.launch self image_id instance_type user_data wait kwargs fuel w =
       (Ret PNone,
        GCE.mkWorld b2 (GCE.clock w + 5 * (Z.of_nat n + 1))
          ((GCE.log w ++
              if truthy_str user_data
              then [("warning", PStr "GCE platform does not support user-data")]
              else []) ++ [("info", nat_ip)]))) ∧
  (∀ B (self : GCE.GCE B) image_id instance_type user_data (wait : bool)
     kwargs (w : GCE.World B) operation op_name b0 (pending : B → Prop),
     GCE.instances_insert (GCE.compute self) (GCE.project self) (GCE.zone self)
       (GCE.config self image_id instance_type) (GCE.backend w) =
       (Ret operation, b0) →
     operation !! "name" = Some op_name →
     GCE.never_done
       (GCE.zoneOperations_get (GCE.compute self) (GCE.project self)
          (GCE.zone self) op_name) pending →
     pending b0 →
     ∀ fuel, ∃ b',
       pending b' ∧
       GCE.launch self image_id instance_type user_data wait kwargs fuel w =
         (OutOfFuel,
          GCE.mkWorld b' (GCE.clock w + 5 * Z.of_nat fuel)
            (GCE.log w ++
               if truthy_str user_data
               then [("warning", PStr "GCE platform does not support user-data")]
               else []))) ∧
  (∀ B (self : GCE.GCE B) image_id instance_type user_data (wait : bool)
     kwargs fuel (w w' : GCE.World B) v,
     GCE.launch self image_id instance_type user_data wait kwargs fuel w =
       (Ret v, w') →
     v = PNone) ∧
  (∀ B (self : GCE.GCE B) image_id instance_type user_data
     (wait wait' : bool) (kwargs kwargs' : dict) fuel (w : GCE.World B),
     GCE.launch self image_id instance_type user_data wait kwargs fuel w =
     GCE.launch self image_id instance_type user_data wait' kwargs' fuel w).
Proof.
  split_and!.
  - intros B self image_id instance_type user_data wait kwargs w instance0
      more b1 b2 Hc Hw.
    destruct (EC2_facts.launch_returns_no_vpc self image_id instance_type
                user_data wait kwargs w instance0 more b1 b2 Hc Hw) as [w' H].
    by eexists _, w'.
  - intros B self image_id instance_type user_data vpc wait kwargs w subnet_id
      sgs instance0 more b1 b2 b3 b4 Hs Hg Hc Hw.
    destruct (EC2_facts.launch_returns_vpc self image_id instance_type
                user_data vpc wait kwargs w subnet_id sgs instance0 more
                b1 b2 b3 b4 Hs Hg Hc Hw) as [w' H].
    by eexists _, w'.
  - intros B self image_id instance_type user_data wait kwargs fuel w
      operation op_name b0 n d b1 result b2 nic nics config configs nat_ip
      Hins Hname Hpolls Hfuel Herr Hget Hnics Hconfigs Hip.
    rewrite (gce_launch_after_wait self image_id instance_type user_data wait
               kwargs fuel w operation op_name b0 n d b1 Hins Hname Hpolls
               Hfuel).
    rewrite Herr. unfold bind, GCE.call, lift, getitem. simpl.
    rewrite Hget, Hnics. simpl. rewrite Hconfigs. simpl. by rewrite Hip.
  - intros B self image_id instance_type user_data wait kwargs w operation
      op_name b0 pending Hins Hname Hnever Hb0 fuel.
    by apply (gce_launch_pending self image_id instance_type user_data wait
                kwargs w operation op_name b0 pending fuel).
  - intros B self image_id instance_type user_data wait kwargs fuel w w' v.
    apply gce_launch_None.
  - reflexivity.
Qed.

(** A launch at the provider of [EC2.Provider], with and without [wait] and
    into a vpc; and launches at the service of [GCE.Service] whose operation
    completes after two pending polls, and whose operation never does. *)
Lemma launch_handle_on_ec2_not_gce_witness :
  (∃ handle w',
     EC2.launch EC2.Provider.cloud "ami-base" "t2.micro" None None true ∅
       (EC2.Provider.world EC2.Provider.fresh) = (Ret handle, w') ∧
     EC2.id handle = "i-0001") ∧
  (∃ handle w',
     EC2.launch EC2.Provider.cloud "ami-base" "t2.micro" None None false ∅
       (EC2.Provider.world EC2.Provider.fresh) = (Ret handle, w') ∧
     EC2.id handle = "i-0001") ∧
  (∃ handle w',
     EC2.launch EC2.Provider.cloud "ami-base" "t2.micro" None
       (Some {| EC2.vpc_id := "vpc-1" |}) true ∅
       (EC2.Provider.world EC2.Provider.fresh) = (Ret handle, w') ∧
     EC2.id handle = "i-0001") ∧
  GCE.launch (GCE.Service.cloud GCE.Service.done_ok) "image" "n1-standard-1"
    (Some "#cloud-config") true ∅ 5 (GCE.Service.world (Some 2%nat)) =
    (Ret PNone,
     GCE.mkWorld (Some 0%nat) 15
       [("warning", PStr "GCE platform does not support user-data");
        ("info", PStr "203.0.113.7")]) ∧
  (∃ b', b' = None ∧
     GCE.launch (GCE.Service.cloud GCE.Service.done_ok) "image" "n1-standard-1"
       None false ∅ 4 (GCE.Service.world None) =
       (OutOfFuel, GCE.mkWorld b' 20 [])).
Proof.
  assert (Hn : ({[ "name" := PStr "operation-1" ]} : dict) !! "name" =
               Some (PStr "operation-1")) by (vm_compute; reflexivity).
  destruct launch_handle_on_ec2_not_gce
    as (Hec2 & Hvpc & Hdone & Hpending & _).
  split_and!.
  - eapply (Hec2 _ EC2.Provider.cloud "ami-base" "t2.micro" None true ∅
              (EC2.Provider.world EC2.Provider.fresh)
              {| EC2.instance_id := "i-0001";
                 EC2.instance_image_id := "ami-base" |} []);
      by vm_compute.
  - eapply (Hec2 _ EC2.Provider.cloud "ami-base" "t2.micro" None false ∅
              (EC2.Provider.world EC2.Provider.fresh)
              {| EC2.instance_id := "i-0001";
                 EC2.instance_image_id := "ami-base" |} []);
      by vm_compute.
  - eapply (Hvpc _ EC2.Provider.cloud "ami-base" "t2.micro" None
              {| EC2.vpc_id := "vpc-1" |} true ∅
              (EC2.Provider.world EC2.Provider.fresh) "subnet-a" ["sg-1"]
              {| EC2.instance_id := "i-0001";
                 EC2.instance_image_id := "ami-base" |} []);
      by vm_compute.
  - apply (Hdone _ (GCE.Service.cloud GCE.Service.done_ok) "image"
             "n1-standard-1" (Some "#cloud-config") true ∅ 5%nat
             (GCE.Service.world (Some 2%nat))
             {[ "name" := PStr "operation-1" ]} (PStr "operation-1")
             (Some 2%nat) 2%nat GCE.Service.done_ok (Some 0%nat)
             GCE.Service.instance_view (Some 0%nat)
             [("accessConfigs", PList [PDict [("natIP", PStr "203.0.113.7")]])]
             [] [("natIP", PStr "203.0.113.7")] [] (PStr "203.0.113.7"));
      [reflexivity|exact Hn| |lia|by vm_compute..].
    apply (GCE_facts.service_polls_to_done GCE.Service.done_ok
             (PStr "operation-1") (PStr "DONE")); by vm_compute.
  - apply (Hpending _ (GCE.Service.cloud GCE.Service.done_ok) "image"
             "n1-standard-1" None false ∅ (GCE.Service.world None)
             {[ "name" := PStr "operation-1" ]} (PStr "operation-1") None
             (λ b, b = None) eq_refl Hn
             (GCE_facts.service_never_done GCE.Service.done_ok
                (PStr "operation-1")) eq_refl 4%nat).
Defined.

(** C2 as worded fails: a launch on GCE that succeeds gives the caller
    [None], not a handle; it has waited for the operation (ten seconds, two
    polls) although [wait] was unset. *)
Lemma gce_launch_returns_none :
  GCE.launch (GCE.Service.cloud GCE.Service.done_ok) "image" "n1-standard-1"
    None false ∅ 5 (GCE.Service.world (Some 1%nat)) =
  (Ret PNone, GCE.mkWorld (Some 0%nat) 10 [("info", PStr "203.0.113.7")]).
Proof. by vm_compute. Qed.

End Launch_facts.

(** ** Splitting at white space *)

Module Str_facts.
Import Str.

Local Arguments String.append !_ _ / : simpl nomatch.

Lemma split_all_space s : all_space s = true → split s = [].
Proof.
  induction s as [|c s IH]; simpl; [done|].
  intros [Hc Hs]%andb_true_iff. rewrite Hc. by apply IH.
Qed.

Lemma token_end_app tok rest :
  tok ≠ EmptyString → no_space tok = true → token_end (tok +:+ rest) = false.
Proof.
  destruct tok as [|c tok]; [done|]. simpl.
  intros _ [Hc _]%andb_true_iff. by apply negb_true_iff.
Qed.

(** A token in front of the text is the first item of the split. *)
Lemma split_token tok rest :
  tok ≠ EmptyString → no_space tok = true → token_end rest = true →
  split (tok +:+ rest) = tok :: split rest.
Proof.
  intros Hne Hns Hend. induction tok as [|c tok IH]; [done|].
  simpl in *. apply andb_true_iff in Hns as [Hc Hns].
  apply negb_true_iff in Hc. rewrite Hc.
  destruct tok as [|c' tok].
  - simpl. by rewrite Hend.
  - rewrite token_end_app by done. by rewrite IH.
Qed.

(** White space in front of the text is dropped. *)
Lemma split_leading ws s : all_space ws = true → split (ws +:+ s) = split s.
Proof.
  induction ws as [|c ws IH]; simpl; [done|].
  intros [Hc Hs]%andb_true_iff. rewrite Hc. by apply IH.
Qed.

Lemma split_first ws tok rest :
  all_space ws = true → tok ≠ EmptyString → no_space tok = true →
  token_end rest = true →
  split (ws +:+ tok +:+ rest) = tok :: split rest.
Proof.
  intros Hws Hne Hns Hend. rewrite split_leading by done.
  by apply split_token.
Qed.

(** Nothing but white space, and only that, splits into no token. *)
Lemma split_nil s : split s = [] → all_space s = true.
Proof.
  induction s as [|c s IH]; simpl; [done|].
  destruct (is_space c); simpl; [done|].
  destruct (token_end s); [done|]. by destruct (split s).
Qed.

Example split_examples :
  split "lxc list c1 -c 4 --format csv" =
    ["lxc"; "list"; "c1"; "-c"; "4"; "--format"; "csv"] ∧
  split ("  10.0.3.7 (eth0)" +:+ String Re.newline "") = ["10.0.3.7"; "(eth0)"] ∧
  split (String Re.newline "") = [] ∧
  split "lxc list my box -c 4 --format csv" =
    ["lxc"; "list"; "my"; "box"; "-c"; "4"; "--format"; "csv"].
Proof. repeat split. Qed.

End Str_facts.

(** ** The rest of [LXDInstance] *)

Module LXD_rest_facts.
Import LXD LXD_rest.

Local Arguments String.append !_ _ / : simpl nomatch.

Section Facts.
Context {B : Type}.
Variable run : list string → B → outcome string * B.
Variable execute : string → B → outcome string * B.
Variable clean : B → outcome unit * B.
Variable _wait_for_system : B → outcome unit * B.

(** The argument list of the address listing, for a name that is one
    token. *)
Lemma ip_command n :
  n ≠ EmptyString → Str.no_space n = true →
  Str.split ("lxc list " +:+ n +:+ " -c 4 --format csv") =
    ["lxc"; "list"; n; "-c"; "4"; "--format"; "csv"].
Proof.
  intros Hne Hns.
  change ("lxc list " +:+ n +:+ " -c 4 --format csv")
    with ("lxc" +:+ " list " +:+ n +:+ " -c 4 --format csv").
  rewrite Str_facts.split_token by done. f_equal.
  change (" list " +:+ n +:+ " -c 4 --format csv")
    with (" " +:+ "list" +:+ " " +:+ n +:+ " -c 4 --format csv").
  rewrite Str_facts.split_first by done. f_equal.
  rewrite (Str_facts.split_first " " n " -c 4 --format csv") by done.
  done.
Qed.

(** X1. For an instance whose name is one token, [ip] runs
    [lxc list <name> -c 4 --format csv] and returns the first token of what
    the listing printed; when the listing printed nothing but white space
    (the instance has no address), [ip] raises [IndexError]. *)
Theorem ip_first_token_or_IndexError self (w : World B) out b' :
  Str.is_ascii (name self) = true →
  name self ≠ EmptyString → Str.no_space (name self) = true →
  run ["lxc"; "list"; name self; "-c"; "4"; "--format"; "csv"] (backend w) =
    (Ret out, b') →
  Str.is_ascii out = true →
  (Str.all_space out = true →
     ip run self w =
       (Raise IndexError,
        mkWorld b'
          (commands w ++ [["lxc"; "list"; name self; "-c"; "4"; "--format"; "csv"]])
          (debug_log w))) ∧
  (∀ ws tok rest,
     out = ws +:+ tok +:+ rest →
     Str.all_space ws = true → tok ≠ EmptyString → Str.no_space tok = true →
     Str.token_end rest = true →
     ip run self w =
       (Ret tok,
        mkWorld b'
          (commands w ++ [["lxc"; "list"; name self; "-c"; "4"; "--format"; "csv"]])
          (debug_log w))).
Proof.
  intros _ Hne Hns Hrun _.
  assert (Hip : ip run self w =
            (first_item (Str.split out),
             mkWorld b'
               (commands w ++
                  [["lxc"; "list"; name self; "-c"; "4"; "--format"; "csv"]])
               (debug_log w))).
  { unfold ip, bind, subp. rewrite ip_command by done. by rewrite Hrun. }
  split.
  - intros Hblank. by rewrite Hip, Str_facts.split_all_space.
  - intros ws tok rest -> Hws Htok Hno Hend.
    by rewrite Hip, Str_facts.split_first.
Qed.

(** What the status query leaves behind, and what [state] makes of it. *)
Lemma state_run self (w : World B) :
  state run self w =
    (match (run ["lxc"; "info"; name self] (backend w)).1 with
     | Ret text =>
         match Re.findall "Status: " text with
         | v :: _ => Ret v
         | [] => Ret "Unknown"
         end
     | Raise e => Raise e
     | OutOfFuel => OutOfFuel
     end,
     queried self w (run ["lxc"; "info"; name self] (backend w)).2).
Proof.
  unfold state, bind, subp, queried.
  destruct (run _ (backend w)) as [[text|e|] b']; simpl; [|done..].
  unfold try_except, lift, first_item.
  by destruct (Re.findall "Status: " text).
Qed.

(** [shutdown] after the status query, by what the query gave. *)
Lemma shutdown_run self wait (w : World B) :
  shutdown run self wait w =
    match state run self w with
    | (Ret st, w1) =>
        if String.eqb st "Stopped" then (Ret tt, w1)
        else
          match run ["lxc"; "stop"; name self; "--force"] (backend w1) with
          | (Ret _, b2) =>
              (Ret tt,
               mkWorld b2
                 (commands w1 ++ [["lxc"; "stop"; name self; "--force"]])
                 (debug_log w1 ++ ["shutting down " +:+ name self]))
          | (Raise e, b2) =>
              (Raise e,
               mkWorld b2
                 (commands w1 ++ [["lxc"; "stop"; name self; "--force"]])
                 (debug_log w1 ++ ["shutting down " +:+ name self]))
          | (OutOfFuel, b2) =>
              (OutOfFuel,
               mkWorld b2
                 (commands w1 ++ [["lxc"; "stop"; name self; "--force"]])
                 (debug_log w1 ++ ["shutting down " +:+ name self]))
          end
    | (Raise e, w1) => (Raise e, w1)
    | (OutOfFuel, w1) => (OutOfFuel, w1)
    end.
Proof.
  unfold shutdown, bind. destruct (state run self w) as [[st|e|] w1]; [|done..].
  destruct (String.eqb st "Stopped"); [done|].
  unfold _log_debug, subp. simpl.
  destruct (run _ (backend w1)) as [[out|e|] b2]; [|done..].
  by destruct wait.
Qed.

(** X2. The [wait] flag of [shutdown] and of [delete] has no effect: with
    it set or unset the call ends the same way in the same world. *)
Theorem shutdown_delete_wait_unused self (w : World B) :
  shutdown run self true w = shutdown run self false w ∧
  delete run self true w = delete run self false w.
Proof.
  split.
  - by rewrite !shutdown_run.
  - unfold delete, bind, _log_debug, subp. simpl.
    by destruct (run _ (backend w)) as [[out|e|] b2].
Qed.

(** X3. When the text of the status query has no ['Status: '], so that the
    state reads ['Unknown'], [start] and [shutdown] do not hold back: each
    issues its command after the query.  [start] then ends at once when
    [wait] is unset, and with [wait] set (the default) it ends the way the
    wait for the guest ends, with no further command. *)
Theorem start_shutdown_unparsed_status self (w : World B) text b1 :
  run ["lxc"; "info"; name self] (backend w) = (Ret text, b1) →
  ¬ Re.occurs "Status: " text →
  (∀ (wait_ : bool) out b2,
     run ["lxc"; "start"; name self] b1 = (Ret out, b2) →
     start run _wait_for_system self wait_ w =
       (if wait_ then (_wait_for_system b2).1 else Ret tt,
        mkWorld (if wait_ then (_wait_for_system b2).2 else b2)
          (commands w ++ [["lxc"; "info"; name self]; ["lxc"; "start"; name self]])
          (debug_log w ++ ["starting " +:+ name self]))) ∧
  (∀ wait out b2,
     run ["lxc"; "stop"; name self; "--force"] b1 = (Ret out, b2) →
     shutdown run self wait w =
       (Ret tt,
        mkWorld b2
          (commands w ++ [["lxc"; "info"; name self];
                          ["lxc"; "stop"; name self; "--force"]])
          (debug_log w ++ ["shutting down " +:+ name self]))).
Proof.
  intros Hinfo Habs.
  assert (Hst : state run self w = (Ret "Unknown", queried self w b1)).
  { rewrite state_run, Hinfo. simpl.
    by rewrite Re_facts.findall_absent. }
  split.
  - intros wait_ out b2 Hstart. unfold start, bind. rewrite Hst. simpl.
    unfold subp. simpl. rewrite Hstart. simpl. rewrite <- app_assoc.
    destruct wait_; [|done].
    unfold wait. simpl. by destruct (_wait_for_system b2).
  - intros wait out b2 Hstop. rewrite shutdown_run, Hst. simpl.
    rewrite Hstop. by rewrite <- app_assoc.
Qed.

(** X4. On a container that the status query reports ['Stopped'], [restart]
    comes down to that query followed by [start]: the same outcome, daemon
    and command lines, and no stop command. *)
Theorem restart_of_stopped self wait_ (w : World B) :
  (state run self w).1 = Ret "Stopped" →
  observable (restart run _wait_for_system self wait_ w) =
  observable ((_ <- state run self ;; start run _wait_for_system self wait_) w).
Proof.
  intros Hst.
  set (w0 := mkWorld (backend w) (commands w)
               (debug_log w ++ ["restarting " +:+ name self])).
  assert (Hr : restart run _wait_for_system self wait_ w =
               (shutdown run self true ;;; start run _wait_for_system self wait_) w0)
    by done.
  rewrite Hr. unfold bind. rewrite shutdown_run.
  assert (Hag : agree w0 w) by done.
  destruct (LXD_facts.blind_state run self w0 w Hag) as [Ho Hw].
  destruct (state run self w0) as [o0 w1], (state run self w) as [o w1'].
  simpl in *. subst o0 o. simpl.
  destruct (LXD_facts.blind_start run _wait_for_system self wait_ w1 w1' Hw)
    as (Ho & Hb & Hc).
  unfold observable. by rewrite Ho, Hb, Hc.
Qed.

(** With an empty remote path, [pull_file] and [push_file] raise
    [IndexError] after their debug message. *)
Lemma file_transfer_empty_path self local_path (w : World B) :
  pull_file run execute self "" local_path w =
    (Raise IndexError,
     mkWorld (backend w) (commands w)
       (debug_log w ++ ["pulling file " +:+ "" +:+ " to " +:+ local_path])) ∧
  push_file run execute self local_path "" w =
    (Raise IndexError,
     mkWorld (backend w) (commands w)
       (debug_log w ++ ["pushing file " +:+ local_path +:+ " to " +:+ ""])).
Proof. done. Qed.

(** How [pull_file] and [push_file] resolve the remote path. *)
Lemma absolute_slash rest (w : World B) :
  absolute execute (String "/" rest) w = (Ret (String "/" rest), w).
Proof. done. Qed.

Lemma absolute_relative c rest (w : World B) pwd b1 :
  c ≠ "/"%char →
  execute "pwd" (backend w) = (Ret pwd, b1) →
  absolute execute (String c rest) w =
    (Ret (pwd +:+ "/" +:+ String c rest),
     mkWorld b1 (commands w)
       (debug_log w ++
          ["Absolute remote path: " +:+ pwd +:+ "/" +:+ String c rest])).
Proof.
  intros Hc Hpwd. unfold absolute, bind, lift, Str.char0, base.
  apply Ascii.eqb_neq in Hc. rewrite Hc. simpl. by rewrite Hpwd.
Qed.

(** X5. The remote side of a file transfer is the instance name directly
    followed by the path.  A path that starts with a slash is used as it
    is, without asking the guest; any other path is put under the directory
    the guest answers [pwd] with; and an empty path makes the call raise
    [IndexError] before any command is issued or the guest is asked.
    [pull_file] passes the remote side before the local path, [push_file]
    after it. *)
Theorem file_transfer_remote_side self remote_path local_path (w : World B) :
  (remote_path = EmptyString →
   pull_file run execute self remote_path local_path w =
     (Raise IndexError,
      mkWorld (backend w) (commands w)
        (debug_log w ++ ["pulling file " +:+ "" +:+ " to " +:+ local_path])) ∧
   push_file run execute self local_path remote_path w =
     (Raise IndexError,
      mkWorld (backend w) (commands w)
        (debug_log w ++ ["pushing file " +:+ local_path +:+ " to " +:+ ""]))) ∧
  (∀ rest out b1,
     remote_path = String "/" rest →
     (run ["lxc"; "file"; "pull"; name self +:+ remote_path; local_path]
        (backend w) = (Ret out, b1) →
      pull_file run execute self remote_path local_path w =
        (Ret tt,
         mkWorld b1
           (commands w ++
              [["lxc"; "file"; "pull"; name self +:+ remote_path; local_path]])
           (debug_log w ++
              ["pulling file " +:+ remote_path +:+ " to " +:+ local_path]))) ∧
     (run ["lxc"; "file"; "push"; local_path; name self +:+ remote_path]
        (backend w) = (Ret out, b1) →
      push_file run execute self local_path remote_path w =
        (Ret tt,
         mkWorld b1
           (commands w ++
              [["lxc"; "file"; "push"; local_path; name self +:+ remote_path]])
           (debug_log w ++
              ["pushing file " +:+ local_path +:+ " to " +:+ remote_path])))) ∧
  (∀ c rest pwd b1 out b2,
     remote_path = String c rest → c ≠ "/"%char →
     execute "pwd" (backend w) = (Ret pwd, b1) →
     (run ["lxc"; "file"; "pull";
           name self +:+ pwd +:+ "/" +:+ remote_path; local_path] b1 =
        (Ret out, b2) →
      pull_file run execute self remote_path local_path w =
        (Ret tt,
         mkWorld b2
           (commands w ++
              [["lxc"; "file"; "pull";
                name self +:+ pwd +:+ "/" +:+ remote_path; local_path]])
           (debug_log w ++
              ["pulling file " +:+ remote_path +:+ " to " +:+ local_path;
               "Absolute remote path: " +:+ pwd +:+ "/" +:+ remote_path]))) ∧
     (run ["lxc"; "file"; "push"; local_path;
           name self +:+ pwd +:+ "/" +:+ remote_path] b1 = (Ret out, b2) →
      push_file run execute self local_path remote_path w =
        (Ret tt,
         mkWorld b2
           (commands w ++
              [["lxc"; "file"; "push"; local_path;
                name self +:+ pwd +:+ "/" +:+ remote_path]])
           (debug_log w ++
              ["pushing file " +:+ local_path +:+ " to " +:+ remote_path;
               "Absolute remote path: " +:+ pwd +:+ "/" +:+ remote_path])))).
Proof.
  split_and!.
  - intros ->. apply file_transfer_empty_path.
  - intros rest out b1 ->. split; intros Hrun.
    + unfold pull_file, bind, _log_debug. rewrite absolute_slash.
      unfold subp. simpl. by rewrite Hrun.
    + unfold push_file, bind, _log_debug. rewrite absolute_slash.
      unfold subp. simpl. by rewrite Hrun.
  - intros c rest pwd b1 out b2 -> Hc Hpwd. split; intros Hrun.
    + unfold pull_file, bind, _log_debug.
      rewrite (absolute_relative c rest _ pwd b1) by done.
      unfold subp. cbn [backend commands debug_log]. rewrite Hrun.
      by rewrite <- app_assoc.
    + unfold push_file, bind, _log_debug.
      rewrite (absolute_relative c rest _ pwd b1) by done.
      unfold subp. cbn [backend commands debug_log]. rewrite Hrun.
      by rewrite <- app_assoc.
Qed.

(** [shutdown] issues the status query, and after it at most the stop. *)
Lemma shutdown_commands self wait (w : World B) :
  commands (shutdown run self wait w).2 =
    commands w ++ [["lxc"; "info"; name self]] ∨
  commands (shutdown run self wait w).2 =
    commands w ++ [["lxc"; "info"; name self];
                   ["lxc"; "stop"; name self; "--force"]].
Proof.
  rewrite shutdown_run, state_run.
  destruct (run _ (backend w)) as [[text|e|] b1]; simpl; [|by left..].
  destruct (Re.findall _ text) as [|st sts]; simpl.
  - destruct (run _ b1) as [[out|e|] b2]; right; simpl;
      by rewrite <- app_assoc.
  - destruct (String.eqb st "Stopped"); [by left|].
    destruct (run _ b1) as [[out|e|] b2]; right; simpl;
      by rewrite <- app_assoc.
Qed.

(** A capture: the clean pass, the shutdown, then one command [cmd] whose
    output is dropped and [result] returned. *)
Lemma capture_commands self (cmd : list string) msg (result : string)
    (w : World B) :
  ∃ new,
    commands ((base clean ;;; shutdown run self true ;;;
               _log_debug msg ;;; _ <- subp run cmd ;; ret result) w).2 =
      commands w ++ new ∧
    new `sublist_of` snapshot_commands self cmd ∧
    ∀ r, ((base clean ;;; shutdown run self true ;;;
           _log_debug msg ;;; _ <- subp run cmd ;; ret result) w).1 = Ret r →
         r = result ∧ last new = Some cmd.
Proof.
  assert (Hsub : ∀ l,
            l = [] ∨ l = [["lxc"; "info"; name self]] ∨
            l = [["lxc"; "info"; name self];
                 ["lxc"; "stop"; name self; "--force"]] ∨
            l = [["lxc"; "info"; name self]; cmd] ∨
            l = snapshot_commands self cmd →
            l `sublist_of` snapshot_commands self cmd).
  { intros l [->|[->|[->|[->| ->]]]]; unfold snapshot_commands.
    - apply sublist_nil_l.
    - apply sublist_skip, sublist_nil_l.
    - apply sublist_skip, sublist_skip, sublist_nil_l.
    - apply sublist_skip, sublist_cons, sublist_skip, sublist_nil_l.
    - done. }
  unfold bind, base, _log_debug, subp.
  destruct (clean (backend w)) as [[[]|e|] b0]; simpl;
    [|exists []; rewrite app_nil_r; split_and!; [done|apply Hsub; tauto|done]..].
  pose proof (shutdown_commands self true
                (mkWorld b0 (commands w) (debug_log w))) as Hcmds.
  destruct (shutdown run self true _) as [[[]|e|] w1]; simpl in *.
  - destruct (run cmd (backend w1)) as [[out|e|] b2]; simpl;
      destruct Hcmds as [-> | ->]; rewrite <- app_assoc; simpl;
      eexists; (split_and!; [reflexivity|apply Hsub; tauto|]);
      first [by intros r [= <-] | done].
  - destruct Hcmds as [-> | ->]; eexists;
      (split_and!; [reflexivity|apply Hsub; tauto|done]).
  - destruct Hcmds as [-> | ->]; eexists;
      (split_and!; [reflexivity|apply Hsub; tauto|done]).
Qed.

Lemma no_start_in_capture self (cmd : list string) new :
  new `sublist_of` snapshot_commands self cmd →
  cmd ≠ ["lxc"; "start"; name self] →
  ["lxc"; "start"; name self] ∉ new.
Proof.
  intros Hsub Hcmd Hin. apply (elem_of_sublist _ _ _ Hin) in Hsub as Hbig.
  clear Hin. rename Hbig into Hin.
  unfold snapshot_commands in Hin.
  repeat (apply elem_of_cons in Hin as [Hin|Hin]; [by simplify_eq|]).
  by apply elem_of_nil in Hin.
Qed.

(** X6. [snapshot] never starts the instance again.  Whatever the daemon
    answers, the commands it issues are, in this order and each at most
    once, the status query, the forced stop and the publish; [lxc start] is
    not among them.  When it returns, the publish was its last command and
    the image id is ['local:'] followed by the alias published, which is
    [<name>-snapshot] when no name was given. *)
Theorem snapshot_publishes_and_leaves_stopped self snapshot_name (w : World B) :
  ∃ new,
    commands (snapshot run clean self snapshot_name w).2 = commands w ++ new ∧
    new `sublist_of`
      snapshot_commands self
        ["lxc"; "publish"; name self; "--alias";
         snapshot_name_or_default self snapshot_name] ∧
    (["lxc"; "start"; name self] ∉ new) ∧
    (∀ r, (snapshot run clean self snapshot_name w).1 = Ret r →
          r = "local:" +:+ snapshot_name_or_default self snapshot_name ∧
          last new =
            Some ["lxc"; "publish"; name self; "--alias";
                  snapshot_name_or_default self snapshot_name]).
Proof.
  destruct (capture_commands self
              ["lxc"; "publish"; name self; "--alias";
               snapshot_name_or_default self snapshot_name]
              ("Publishing snapshot " +:+
                 snapshot_name_or_default self snapshot_name)
              ("local:" +:+ snapshot_name_or_default self snapshot_name) w)
    as (new & Hcmds & Hsub & Hret).
  exists new. split_and!; [exact Hcmds|exact Hsub| |exact Hret].
  by apply (no_start_in_capture self _ new Hsub).
Qed.

(** X7. [local_snapshot] does not start the instance again either: its
    commands are the status query, the forced stop and [lxc snapshot], which
    ends in [--stateful] exactly when [stateful] is set.  When it returns,
    it returns the snapshot name it used, [<name>-snapshot] when none was
    given. *)
Theorem local_snapshot_names_and_leaves_stopped self snapshot_name
    (stateful : bool) (w : World B) :
  ∃ new,
    commands (local_snapshot run clean self snapshot_name stateful w).2 =
      commands w ++ new ∧
    new `sublist_of`
      snapshot_commands self
        (["lxc"; "snapshot"; name self;
          snapshot_name_or_default self snapshot_name] ++
         (if stateful then ["--stateful"] else [])) ∧
    (["lxc"; "start"; name self] ∉ new) ∧
    (∀ r, (local_snapshot run clean self snapshot_name stateful w).1 = Ret r →
          r = snapshot_name_or_default self snapshot_name ∧
          last new =
            Some (["lxc"; "snapshot"; name self;
                   snapshot_name_or_default self snapshot_name] ++
                  (if stateful then ["--stateful"] else []))).
Proof.
  destruct (capture_commands self
              (["lxc"; "snapshot"; name self;
                snapshot_name_or_default self snapshot_name] ++
               (if stateful then ["--stateful"] else []))
              ("creating snapshot " +:+
                 snapshot_name_or_default self snapshot_name)
              (snapshot_name_or_default self snapshot_name) w)
    as (new & Hcmds & Hsub & Hret).
  exists new. split_and!.
  - rewrite <- Hcmds. by destruct stateful.
  - exact Hsub.
  - apply (no_start_in_capture self _ new Hsub). by destruct stateful.
  - intros r Hr. apply Hret. rewrite <- Hr. by destruct stateful.
Qed.

End Facts.

Lemma string_length_app (a b : string) :
  String.length (a +:+ b) = (String.length a + String.length b)%nat.
Proof. induction a as [|x a IH]; simpl; [done|]. by rewrite IH. Qed.

Lemma string_app_inj_r (a b c : string) : a +:+ c = b +:+ c → a = b.
Proof.
  intros H.
  assert (Hlen : String.length a = String.length b).
  { apply (f_equal String.length) in H.
    rewrite !string_length_app in H. lia. }
  revert b H Hlen. induction a as [|x a IH]; intros [|y b] H Hlen;
    simpl in *; try done.
  injection H as -> H. f_equal. apply IH; [done|lia].
Qed.

(** X8. Two handles print alike exactly when they are handles of the same
    name: [__repr__] shows the name and nothing else, and different names
    give different texts. *)
Theorem repr_tells_the_name (a b : LXDInstance) :
  __repr__ a = __repr__ b ↔ name a = name b.
Proof.
  unfold __repr__. split; [|by intros ->].
  intros H. injection H as H. by apply string_app_inj_r in H.
Qed.

(** The address listing of a container with an address, and of one
    without. *)
Lemma ip_first_token_or_IndexError_witness :
  ip (Daemon.run ("10.0.3.7 (eth0)" +:+ String Re.newline "")) LXD.Daemon.inst
    (LXD.Daemon.world "Running") =
    (Ret "10.0.3.7",
     mkWorld "Running" [["lxc"; "list"; "c1"; "-c"; "4"; "--format"; "csv"]] []) ∧
  ip (Daemon.run (String Re.newline "")) LXD.Daemon.inst
    (LXD.Daemon.world "Running") =
    (Raise IndexError,
     mkWorld "Running" [["lxc"; "list"; "c1"; "-c"; "4"; "--format"; "csv"]] []).
Proof.
  split.
  - destruct (ip_first_token_or_IndexError
                (Daemon.run ("10.0.3.7 (eth0)" +:+ String Re.newline ""))
                LXD.Daemon.inst (LXD.Daemon.world "Running") _ _
                eq_refl ltac:(done) eq_refl eq_refl eq_refl) as [_ Htok].
    apply (Htok "" "10.0.3.7" (" (eth0)" +:+ String Re.newline "")); done.
  - destruct (ip_first_token_or_IndexError
                (Daemon.run (String Re.newline ""))
                LXD.Daemon.inst (LXD.Daemon.world "Running") _ _
                eq_refl ltac:(done) eq_refl eq_refl eq_refl) as [Hblank _].
    by apply Hblank.
Defined.

(** A daemon whose status text has no field. *)
Lemma start_shutdown_unparsed_status_witness :
  start LXD.Daemon.run_silent LXD.Daemon._wait_for_system LXD.Daemon.inst false
    (LXD.Daemon.world "Running") =
    (Ret tt,
     mkWorld "Running" [["lxc"; "info"; "c1"]; ["lxc"; "start"; "c1"]]
       ["starting c1"]) ∧
  start LXD.Daemon.run_silent LXD.Daemon._wait_for_system LXD.Daemon.inst true
    (LXD.Daemon.world "Running") =
    (Ret tt,
     mkWorld "Running" [["lxc"; "info"; "c1"]; ["lxc"; "start"; "c1"]]
       ["starting c1"]) ∧
  shutdown LXD.Daemon.run_silent LXD.Daemon.inst true
    (LXD.Daemon.world "Running") =
    (Ret tt,
     mkWorld "Running" [["lxc"; "info"; "c1"]; ["lxc"; "stop"; "c1"; "--force"]]
       ["shutting down c1"]).
Proof.
  assert (Habs : ¬ Re.occurs "Status: " "").
  { apply Re_facts.find_None. reflexivity. }
  destruct (start_shutdown_unparsed_status LXD.Daemon.run_silent
              LXD.Daemon._wait_for_system LXD.Daemon.inst
              (LXD.Daemon.world "Running") "" "Running" eq_refl Habs)
    as [Hstart Hstop].
  split_and!.
  - exact (Hstart false "" "Running" eq_refl).
  - exact (Hstart true "" "Running" eq_refl).
  - exact (Hstop true "" "Running" eq_refl).
Defined.

(** [restart] of a stopped container. *)
Lemma restart_of_stopped_witness :
  observable (restart LXD.Daemon.run LXD.Daemon._wait_for_system
                LXD.Daemon.inst true (LXD.Daemon.world "Stopped")) =
  (Ret tt, "Running",
   [["lxc"; "info"; "c1"]; ["lxc"; "info"; "c1"]; ["lxc"; "start"; "c1"]]).
Proof.
  rewrite (restart_of_stopped LXD.Daemon.run LXD.Daemon._wait_for_system
             LXD.Daemon.inst true (LXD.Daemon.world "Stopped") eq_refl).
  reflexivity.
Defined.

(** A pull by absolute path and a push by relative path. *)
Lemma file_transfer_remote_side_witness :
  pull_file (Daemon.run "") Daemon.execute LXD.Daemon.inst "/etc/hosts" "hosts"
    (LXD.Daemon.world "Running") =
    (Ret tt,
     mkWorld "Running" [["lxc"; "file"; "pull"; "c1/etc/hosts"; "hosts"]]
       ["pulling file /etc/hosts to hosts"]) ∧
  push_file (Daemon.run "") Daemon.execute LXD.Daemon.inst "hosts" "tmp/hosts"
    (LXD.Daemon.world "Running") =
    (Ret tt,
     mkWorld "Running" [["lxc"; "file"; "push"; "hosts"; "c1/root/tmp/hosts"]]
       ["pushing file hosts to tmp/hosts";
        "Absolute remote path: /root/tmp/hosts"]).
Proof.
  split.
  - destruct (file_transfer_remote_side (Daemon.run "") Daemon.execute
                LXD.Daemon.inst "/etc/hosts" "hosts"
                (LXD.Daemon.world "Running")) as (_ & Habs & _).
    destruct (Habs "etc/hosts" "" "Running" eq_refl) as [Hpull _].
    exact (Hpull eq_refl).
  - destruct (file_transfer_remote_side (Daemon.run "") Daemon.execute
                LXD.Daemon.inst "tmp/hosts" "hosts"
                (LXD.Daemon.world "Running")) as (_ & _ & Hrel).
    destruct (Hrel "t"%char "mp/hosts" "/root" "Running" "" "Running"
                eq_refl ltac:(done) eq_refl) as [_ Hpush].
    exact (Hpush eq_refl).
Defined.

(** A snapshot of a running container: the image id, and the container is
    left stopped. *)
Example snapshot_running_container :
  snapshot (Daemon.run "") Daemon.clean LXD.Daemon.inst None
    (LXD.Daemon.world "Running") =
  (Ret "local:c1-snapshot",
   mkWorld "Stopped"
     [["lxc"; "info"; "c1"]; ["lxc"; "stop"; "c1"; "--force"];
      ["lxc"; "publish"; "c1"; "--alias"; "c1-snapshot"]]
     ["shutting down c1"; "Publishing snapshot c1-snapshot"]).
Proof. reflexivity. Qed.

End LXD_rest_facts.

(** ** [GCE.launch] from the insert to the log line *)

Module GCE_launch_facts.
Import GCE.

Section Facts.
Context {B : Type}.
Variable self : GCE B.

(** X9. [GCE.launch] waits for the insert operation whatever [wait] is, and
    what follows depends on how the operation ended.  If its result has an
    ['error'] entry, [launch] raises it: the instance is not fetched and no
    address is logged.  If not, the instance is fetched and the [natIP] of
    its first access configuration is logged at level info, and [None]
    comes back; an instance whose first interface has no access
    configuration makes [launch] raise [IndexError] after the instance was
    created.  A [user_data] that is given only adds a warning to the log. *)
Theorem launch_after_operation image_id instance_type user_data (wait : bool)
    kwargs fuel (w : World B) operation op_name b0 n d b1 :
  instances_insert (compute self) (project self) (zone self)
    (config self image_id instance_type) (backend w) = (Ret operation, b0) →
  operation !! "name" = Some op_name →
  polls_to_done
    (zoneOperations_get (compute self) (project self) (zone self) op_name)
    b0 n d b1 →
  (n < fuel)%nat →
  (∀ err,
     d !! "error" = Some err →
     launch self image_id instance_type user_data wait kwargs fuel w =
       (Raise (Exception err),
        mkWorld b1 (clock w + 5 * (Z.of_nat n + 1))
          (log w ++
             if truthy_str user_data
             then [("warning", PStr "GCE platform does not support user-data")]
             else []))) ∧
  (∀ result b2 nic nics configs,
     d !! "error" = None →
     instances_get (compute self) (project self) (zone self) (tag self) b1 =
       (Ret result, b2) →
     result !! "networkInterfaces" = Some (PList (PDict nic :: nics)) →
     assoc nic "accessConfigs" = Some (PList configs) →
     match configs with
     | PDict config :: _ =>
         ∀ nat_ip,
           assoc config "natIP" = Some nat_ip →
           launch self image_id instance_type user_data wait kwargs fuel w =
             (Ret PNone,
              mkWorld b2 (clock w + 5 * (Z.of_nat n + 1))
                ((log w ++
                    if truthy_str user_data
                    then [("warning",
                           PStr "GCE platform does not support user-data")]
                    else []) ++ [("info", nat_ip)]))
     | [] =>
         launch self image_id instance_type user_data wait kwargs fuel w =
           (Raise IndexError,
            mkWorld b2 (clock w + 5 * (Z.of_nat n + 1))
              (log w ++
                 if truthy_str user_data
                 then [("warning",
                        PStr "GCE platform does not support user-data")]
                 else []))
     | _ => True
     end).
Proof.
  intros Hins Hname Hpolls Hfuel.
  pose proof (Launch_facts.gce_launch_after_wait self image_id instance_type
                user_data wait kwargs fuel w operation op_name b0 n d b1
                Hins Hname Hpolls Hfuel) as Hwait.
  split.
  - intros err Herr. rewrite Hwait. by rewrite Herr.
  - intros result b2 nic nics configs Herr Hget Hnics Hconfigs.
    destruct configs as [|[| | | | |config] configs]; try done.
    + rewrite Hwait, Herr.
      unfold bind, call, lift, getitem. simpl. rewrite Hget, Hnics. simpl.
      by rewrite Hconfigs.
    + intros nat_ip Hip. rewrite Hwait, Herr.
      unfold bind, call, lift, getitem. simpl. rewrite Hget, Hnics. simpl.
      rewrite Hconfigs. simpl. by rewrite Hip.
Qed.

End Facts.

(** A launch whose operation fails, and one whose operation succeeds. *)
Lemma launch_after_operation_witness :
  launch (Service.cloud Service.done_failed) "image" "n1-standard-1"
    (Some "#cloud-config") false ∅ 5 (Service.world (Some 1%nat)) =
    (Raise (Exception (PDict [("errors", PList [PStr "QUOTA_EXCEEDED"])])),
     mkWorld (Some 0%nat) 10
       [("warning", PStr "GCE platform does not support user-data")]) ∧
  launch (Service.cloud Service.done_ok) "image" "n1-standard-1"
    None true ∅ 5 (Service.world (Some 1%nat)) =
    (Ret PNone, mkWorld (Some 0%nat) 10 [("info", PStr "203.0.113.7")]).
Proof.
  assert (Hn : ({[ "name" := PStr "operation-1" ]} : dict) !! "name" =
               Some (PStr "operation-1")) by (vm_compute; reflexivity).
  assert (Hpolls : ∀ final status,
            final !! "status" = Some status → eq_str status "DONE" = true →
            polls_to_done
              (zoneOperations_get (compute (Service.cloud final))
                 (project (Service.cloud final)) (zone (Service.cloud final))
                 (PStr "operation-1"))
              (Some 1%nat) 1 final (Some 0%nat)).
  { intros final status Hs Hd.
    apply (done_later _ _ Service.running (Some 0%nat) (PStr "RUNNING"));
      [reflexivity|by vm_compute|reflexivity|].
    by apply (done_now _ _ final (Some 0%nat) status). }
  split.
  - destruct (launch_after_operation (Service.cloud Service.done_failed)
                "image" "n1-standard-1" (Some "#cloud-config") false ∅ 5
                (Service.world (Some 1%nat)) _ (PStr "operation-1")
                (Some 1%nat) 1 Service.done_failed (Some 0%nat)
                eq_refl Hn
                (Hpolls Service.done_failed (PStr "DONE")
                   ltac:(by vm_compute) eq_refl)
                ltac:(lia)) as [Hfail _].
    apply Hfail. by vm_compute.
  - destruct (launch_after_operation (Service.cloud Service.done_ok)
                "image" "n1-standard-1" None true ∅ 5
                (Service.world (Some 1%nat)) _ (PStr "operation-1")
                (Some 1%nat) 1 Service.done_ok (Some 0%nat)
                eq_refl Hn
                (Hpolls Service.done_ok (PStr "DONE")
                   ltac:(by vm_compute) eq_refl)
                ltac:(lia)) as [_ Hok].
    apply (Hok Service.instance_view (Some 0%nat)
             [("accessConfigs", PList [PDict [("natIP", PStr "203.0.113.7")]])]
             [] [PDict [("natIP", PStr "203.0.113.7")]]);
      by vm_compute.
Defined.

End GCE_launch_facts.

(** ** The image methods of [GCE] *)

Module GCE_images_facts.
Import GCE_images PyX.Notations.

Section Facts.
Context {B C : Type}.
Variable query : list string → B → PyX.outcome (list image) * B.
Variable self : GCE.GCE C.

(** [daily_image] by what the catalogue answers. *)
Lemma daily_image_eq release arch (w : World B) items b' :
  query ["arch=" +:+ arch; "endpoint=https://www.googleapis.com";
         "region=" +:+ GCE.region self; "release=" +:+ release; "virt=kvm"]
    (backend w) = (PyX.Returns items, b') →
  daily_image query self release arch w =
    (match items with
     | [] => PyX.Raises (PyX.UnboundLocalError "image_id")
     | image0 :: _ =>
         match image0 !! "id" with
         | Some id =>
             PyX.Returns ("projects/ubuntu-os-cloud-devel/global/images/" +:+ id)
         | None => PyX.Raises (PyX.Std (KeyError "id"))
         end
     end,
     mkWorld b' (debug_log w ++ ["finding daily Ubuntu image for " +:+ release])).
Proof.
  intros Hq. unfold daily_image, _image_list, PyX.bind, _log_debug, stream_query.
  cbn [backend debug_log].
  change ("endpoint=" +:+ "https://www.googleapis.com")
    with "endpoint=https://www.googleapis.com".
  rewrite Hq. unfold PyX.try_except, PyX.lift. simpl.
  destruct items as [|image0 rest]; simpl; [done|].
  unfold PyX.getitem. by destruct (image0 !! "id").
Qed.

(** X10. [daily_image] asks the catalogue for the kvm images of the
    release, architecture and region.  With a first item that has an ['id']
    it returns the image path of that id; with a first item without ['id']
    it raises [KeyError]; and with no item at all it raises
    [UnboundLocalError], not an error that says no image was found. *)
Theorem daily_image_first_or_unbound release arch (w : World B) items b' :
  query ["arch=" +:+ arch; "endpoint=https://www.googleapis.com";
         "region=" +:+ GCE.region self; "release=" +:+ release; "virt=kvm"]
    (backend w) = (PyX.Returns items, b') →
  daily_image query self release arch w =
    (match items with
     | [] => PyX.Raises (PyX.UnboundLocalError "image_id")
     | image0 :: _ =>
         match image0 !! "id" with
         | Some id =>
             PyX.Returns ("projects/ubuntu-os-cloud-devel/global/images/" +:+ id)
         | None => PyX.Raises (PyX.Std (KeyError "id"))
         end
     end,
     mkWorld b' (debug_log w ++ ["finding daily Ubuntu image for " +:+ release])).
Proof. apply daily_image_eq. Qed.

(** X11. Of the image and instance methods of [GCE] only [daily_image] and
    [launch] are there: [released_image], [image_serial], [delete_image],
    [get_instance] and [snapshot] raise [NotImplementedError] and touch
    nothing.  So the image that [exercise_api] picks on GCE is the daily
    one of the release 'focal' for amd64, and with an empty catalogue the
    example stops at that first statement with [UnboundLocalError]. *)
Theorem only_daily_image_on_gce (w : World B) items b' :
  query ["arch=amd64"; "endpoint=https://www.googleapis.com";
         "region=" +:+ GCE.region self; "release=focal"; "virt=kvm"]
    (backend w) = (PyX.Returns items, b') →
  (∀ release, released_image self release w = (PyX.Raises PyX.NotImplementedError, w)) ∧
  (∀ image_id, image_serial self image_id w = (PyX.Raises PyX.NotImplementedError, w)) ∧
  (∀ image_id, delete_image self image_id w = (PyX.Raises PyX.NotImplementedError, w)) ∧
  (∀ instance_id, get_instance self instance_id w = (PyX.Raises PyX.NotImplementedError, w)) ∧
  (∀ instance clean, snapshot self instance clean w = (PyX.Raises PyX.NotImplementedError, w)) ∧
  exercise_api_image (released_image self)
    (λ release, daily_image query self release "amd64") w =
    (match items with
     | [] => PyX.Raises (PyX.UnboundLocalError "image_id")
     | image0 :: _ =>
         match image0 !! "id" with
         | Some id =>
             PyX.Returns ("projects/ubuntu-os-cloud-devel/global/images/" +:+ id)
         | None => PyX.Raises (PyX.Std (KeyError "id"))
         end
     end,
     mkWorld b' (debug_log w ++ ["finding daily Ubuntu image for focal"])).
Proof.
  intros Hq. split_and!; [done..|].
  unfold exercise_api_image, PyX.try_except, released_image, PyX.raise.
  cbn [PyX.is_NotImplementedError].
  by rewrite (daily_image_eq "focal" "amd64" w items b' Hq).
Qed.

End Facts.

(** A catalogue with one image, and an empty one. *)
Lemma daily_image_first_or_unbound_witness :
  daily_image Catalogue.query Catalogue.cloud "bionic" "amd64"
    (mkWorld [Catalogue.bionic] []) =
    (PyX.Returns
       "projects/ubuntu-os-cloud-devel/global/images/daily-ubuntu-1804-bionic-v20190212a",
     mkWorld [Catalogue.bionic] ["finding daily Ubuntu image for bionic"]) ∧
  daily_image Catalogue.query Catalogue.cloud "bionic" "amd64" (mkWorld [] []) =
    (PyX.Raises (PyX.UnboundLocalError "image_id"),
     mkWorld [] ["finding daily Ubuntu image for bionic"]).
Proof.
  split.
  - rewrite (daily_image_first_or_unbound Catalogue.query Catalogue.cloud
               "bionic" "amd64" (mkWorld [Catalogue.bionic] [])
               [Catalogue.bionic] [Catalogue.bionic] eq_refl).
    by vm_compute.
  - by rewrite (daily_image_first_or_unbound Catalogue.query Catalogue.cloud
                  "bionic" "amd64" (mkWorld [] []) [] [] eq_refl).
Defined.

(** [exercise_api] in front of an empty catalogue. *)
Lemma only_daily_image_on_gce_witness :
  exercise_api_image (released_image Catalogue.cloud)
    (λ release, daily_image Catalogue.query Catalogue.cloud release "amd64")
    (mkWorld [] []) =
  (PyX.Raises (PyX.UnboundLocalError "image_id"),
   mkWorld [] ["finding daily Ubuntu image for focal"]).
Proof.
  destruct (only_daily_image_on_gce Catalogue.query Catalogue.cloud
              (mkWorld [] []) [] [] eq_refl) as (_ & _ & _ & _ & _ & H).
  exact H.
Defined.

End GCE_images_facts.

(** ** Images and keys of [EC2] *)

Module EC2_rest_facts.
Import EC2_rest.

Section Facts.
Context {B C : Type}.
Variable client : Client B.
Variable new_key_pair : string → option string → string → KeyPair.
Variable self : EC2.EC2 C.

Lemma invoke_request {A} r (f : B → outcome A * B) (w : World B) o b :
  f (backend w) = (o, b) →
  invoke r f w = (o, mkWorld b (requests w ++ [r]) (debug_log w)).
Proof. intros H. unfold invoke. by rewrite H. Qed.

(** X12. [released_image] and [daily_image] ask for the same images (hvm,
    of the release, architecture, root store and region, at the endpoint of
    the region) in the released and in the daily stream, and give the
    ['id'] of the first item found.  When nothing is found they raise
    [IndexError]. *)
Theorem image_first_or_IndexError region release arch root_store (daily : bool)
    (w : World B) found b1 :
  _streams_query client
    ["arch=" +:+ arch;
     "endpoint=https://ec2." +:+ region +:+ ".amazonaws.com";
     "region=" +:+ region; "release=" +:+ release;
     "root_store=" +:+ root_store; "virt=hvm"] daily (backend w) =
    (Ret found, b1) →
  (if daily then daily_image client self region release arch root_store
   else released_image client self region release arch root_store) w =
    (match found with
     | image0 :: _ => getitem_str image0 "id"
     | [] => Raise IndexError
     end,
     mkWorld b1
       (requests w ++
          [StreamsQuery
             ["arch=" +:+ arch;
              "endpoint=https://ec2." +:+ region +:+ ".amazonaws.com";
              "region=" +:+ region; "release=" +:+ release;
              "root_store=" +:+ root_store; "virt=hvm"] daily])
       (debug_log w ++
          [(if daily then "finding daily Ubuntu image for %s"
            else "finding released Ubuntu image for %s", PStr release)])).
Proof.
  intros Hq.
  destruct daily; unfold daily_image, released_image, _find_image, bind,
    _log_debug; cbn [backend requests debug_log];
    change ("endpoint=" +:+ "https://ec2." +:+ region +:+ ".amazonaws.com")
      with ("endpoint=https://ec2." +:+ region +:+ ".amazonaws.com");
    rewrite (invoke_request _ _ (mkWorld (backend w) _ _) _ _ Hq); unfold lift;
    by destruct found.
Qed.

(** X13. [image_serial] looks the image up in the daily stream first and
    turns to the released stream only when the daily stream has no such
    image; it returns the ['version_name'] of the first item found, and
    raises [IndexError] when neither stream has the image. *)
Theorem image_serial_daily_then_released image_id (w : World B) :
  (∀ image0 rest b1,
     _streams_query client ["id=" +:+ image_id] true (backend w) =
       (Ret (image0 :: rest), b1) →
     image_serial client self image_id w =
       (getitem_str image0 "version_name",
        mkWorld b1 (requests w ++ [StreamsQuery ["id=" +:+ image_id] true])
          (debug_log w ++
             [("finding image serial for EC2 Ubuntu image %s", PStr image_id)]))) ∧
  (∀ b1 found b2,
     _streams_query client ["id=" +:+ image_id] true (backend w) = (Ret [], b1) →
     _streams_query client ["id=" +:+ image_id] false b1 = (Ret found, b2) →
     image_serial client self image_id w =
       (match found with
        | image0 :: _ => getitem_str image0 "version_name"
        | [] => Raise IndexError
        end,
        mkWorld b2
          (requests w ++ [StreamsQuery ["id=" +:+ image_id] true;
                          StreamsQuery ["id=" +:+ image_id] false])
          (debug_log w ++
             [("finding image serial for EC2 Ubuntu image %s", PStr image_id)]))).
Proof.
  split.
  - intros image0 rest b1 Hd. unfold image_serial, bind, _log_debug.
    cbn [backend requests debug_log].
    by rewrite (invoke_request _ _ (mkWorld (backend w) _ _) _ _ Hd).
  - intros b1 found b2 Hd Hr. unfold image_serial, bind, _log_debug.
    cbn [backend requests debug_log].
    rewrite (invoke_request _ _ (mkWorld (backend w) _ _) _ _ Hd).
    rewrite (invoke_request _ _ (mkWorld b1 _ _) (Ret found) b2) by done.
    cbn [requests debug_log]. rewrite <- app_assoc. unfold lift.
    by destruct found.
Qed.

(** X14. [delete_image] reads the snapshot id off the image before it
    removes anything.  If the image has no block device mapping, or the
    mapping no ['Ebs'] with a ['SnapshotId'], it raises and has neither
    deregistered the image nor deleted a snapshot.  Otherwise it
    deregisters the image first and deletes the snapshot after; a failing
    deregistration leaves the snapshot in place. *)
Theorem delete_image_snapshot_id_first image_id (w : World B) mappings b1 :
  block_device_mappings client image_id (backend w) = (Ret mappings, b1) →
  (∀ e,
     snapshot_id_of mappings = Raise e →
     delete_image client self image_id w =
       (Raise e,
        mkWorld b1 (requests w ++ [BlockDeviceMappings image_id]) (debug_log w))) ∧
  (∀ snapshot_id,
     snapshot_id_of mappings = Ret snapshot_id →
     (∀ e b2,
        deregister_image client image_id b1 = (Raise e, b2) →
        delete_image client self image_id w =
          (Raise e,
           mkWorld b2
             (requests w ++ [BlockDeviceMappings image_id;
                             DeregisterImage image_id])
             (debug_log w ++ [("removing custom ami %s", PStr image_id)]))) ∧
     (∀ b2 o b3,
        deregister_image client image_id b1 = (Ret tt, b2) →
        delete_snapshot client snapshot_id b2 = (o, b3) →
        delete_image client self image_id w =
          (o,
           mkWorld b3
             (requests w ++ [BlockDeviceMappings image_id;
                             DeregisterImage image_id;
                             DeleteSnapshot snapshot_id])
             (debug_log w ++ [("removing custom ami %s", PStr image_id);
                              ("removing custom snapshot %s", snapshot_id)])))).
Proof.
  intros Hm.
  assert (Hstart : delete_image client self image_id w =
            (snapshot_id <- lift (snapshot_id_of mappings) ;;
             _log_debug "removing custom ami %s" (PStr image_id) ;;;
             invoke (DeregisterImage image_id) (deregister_image client image_id) ;;;
             _log_debug "removing custom snapshot %s" snapshot_id ;;;
             invoke (DeleteSnapshot snapshot_id)
               (delete_snapshot client snapshot_id))
              (mkWorld b1 (requests w ++ [BlockDeviceMappings image_id])
                 (debug_log w))).
  { unfold delete_image. unfold bind at 1.
    by rewrite (invoke_request _ _ _ _ _ Hm). }
  rewrite Hstart. split.
  - intros e He. unfold bind, lift. by rewrite He.
  - intros snapshot_id Hid. split.
    + intros e b2 Hde. unfold bind, lift, _log_debug. rewrite Hid.
      cbn [backend requests debug_log].
      rewrite (invoke_request _ _ (mkWorld b1 _ _) (Raise e) b2) by done.
      cbn [requests]. by rewrite <- app_assoc.
    + intros b2 o b3 Hde Hds. unfold bind, lift, _log_debug. rewrite Hid.
      cbn [backend requests debug_log].
      rewrite (invoke_request _ _ (mkWorld b1 _ _) (Ret tt) b2) by done.
      cbn [backend requests debug_log].
      rewrite (invoke_request _ _ (mkWorld b2 _ _) o b3) by done.
      cbn [requests debug_log]. by rewrite <- !app_assoc.
Qed.

(** X15. [upload_key] imports the public key of the key pair the cloud
    object held before the call, not that of the path it is given, and
    under the name it is given, also when that is [None]; only after a
    successful import does the cloud object take the key pair of the given
    paths, named by the name or, without one, by the tag.  A failing import
    raises and leaves the key pair as it was. *)
Theorem upload_key_imports_key_in_use public_key_path private_key_path name
    (w : World B) :
  (∀ b1,
     import_key_pair client name (public_key_content (EC2.key_pair self))
       (backend w) = (Ret tt, b1) →
     upload_key client new_key_pair self public_key_path private_key_path name w =
       (Ret {| EC2.boto := EC2.boto self;
               EC2.tag := EC2.tag self;
               EC2.key_pair :=
                 new_key_pair public_key_path private_key_path
                   (name_or_tag self name) |},
        mkWorld b1
          (requests w ++
             [ImportKeyPair name (public_key_content (EC2.key_pair self))])
          (debug_log w ++
             [("uploading SSH key %s", name_arg name);
              ("using SSH key %s", PStr (name_or_tag self name))]))) ∧
  (∀ e b1,
     import_key_pair client name (public_key_content (EC2.key_pair self))
       (backend w) = (Raise e, b1) →
     upload_key client new_key_pair self public_key_path private_key_path name w =
       (Raise e,
        mkWorld b1
          (requests w ++
             [ImportKeyPair name (public_key_content (EC2.key_pair self))])
          (debug_log w ++ [("uploading SSH key %s", name_arg name)]))).
Proof.
  split.
  - intros b1 Hi. unfold upload_key, use_key, bind, _log_debug.
    cbn [backend requests debug_log].
    rewrite (invoke_request _ _ (mkWorld (backend w) _ _) (Ret tt) b1) by done.
    unfold ret. cbn [backend requests debug_log]. by rewrite <- app_assoc.
  - intros e b1 Hi. unfold upload_key, bind, _log_debug.
    cbn [backend requests debug_log].
    by rewrite (invoke_request _ _ (mkWorld (backend w) _ _) (Raise e) b1).
Qed.

(** The key name in the arguments of a launch is that of the key pair in
    use, unless the extra options give one. *)
Lemma request_key_name {D} (cloud : EC2.EC2 D) image_id instance_type user_data
    (kwargs : dict) net :
  kwargs !! "KeyName" = None →
  EC2.request cloud image_id instance_type user_data kwargs net !! "KeyName" =
    Some (PStr (key_name (EC2.key_pair cloud))).
Proof.
  intros Hk. unfold EC2.request.
  assert (Hbase : ∀ args : dict,
            args !! "KeyName" = Some (PStr (key_name (EC2.key_pair cloud))) →
            EC2.update_from kwargs args !! "KeyName" =
              Some (PStr (key_name (EC2.key_pair cloud)))).
  { intros args Ha. by rewrite EC2_facts.update_from_lookup, Hk. }
  assert (Hargs : (if truthy_str user_data
                   then <["UserData" := PStr (default "" user_data)]>
                          (EC2.base_args cloud image_id instance_type)
                   else EC2.base_args cloud image_id instance_type)
                    !! "KeyName" =
                  Some (PStr (key_name (EC2.key_pair cloud)))).
  { destruct (truthy_str user_data); [rewrite lookup_insert_ne by done|];
      unfold EC2.base_args; by simplify_map_eq. }
  destruct net as [[subnet_id sgs]|].
  - rewrite !lookup_insert_ne by done. by apply Hbase.
  - by apply Hbase.
Qed.

(** X16. After [use_key], a launch asks for the key of the name given to
    [use_key]; when no name or an empty one was given, it asks for the key
    named like the tag.  (The key pair object is taken to keep the name it
    was made with.) *)
Theorem use_key_names_launch_key public_key_path private_key_path name
    (w : World B) :
  (∀ pub priv n, key_name (new_key_pair pub priv n) = n) →
  ∃ cloud w',
    use_key new_key_pair self public_key_path private_key_path name w =
      (Ret cloud, w') ∧
    backend w' = backend w ∧ requests w' = requests w ∧
    EC2.tag cloud = EC2.tag self ∧
    ∀ image_id instance_type user_data (kwargs : dict) net,
      kwargs !! "KeyName" = None →
      EC2.request cloud image_id instance_type user_data kwargs net !! "KeyName" =
        Some (PStr (match name with
                    | Some (String c n) => String c n
                    | _ => EC2.tag self
                    end)).
Proof.
  intros Hname. eexists _, _. split; [reflexivity|]. split_and!; [done..|].
  intros image_id instance_type user_data kwargs net Hk.
  rewrite request_key_name by done. simpl. rewrite Hname.
  unfold name_or_tag. by destruct name as [[|c n]|].
Qed.

(** The loop of [list_keys] on entries that all have a name. *)
Lemma key_names_all keypairs names acc :
  Forall2 (λ keypair n, subscript_key keypair "KeyName" = Ret n) keypairs names →
  key_names keypairs acc = Ret (acc ++ names).
Proof.
  intros H. revert acc. induction H as [|keypair n keypairs names Hn _ IH];
    intros acc; simpl.
  - by rewrite app_nil_r.
  - rewrite Hn, IH. by rewrite <- app_assoc.
Qed.

(** The loop stops at the first entry that has none. *)
Lemma key_names_stop good names bad rest acc e :
  Forall2 (λ keypair n, subscript_key keypair "KeyName" = Ret n) good names →
  subscript_key bad "KeyName" = Raise e →
  key_names (good ++ bad :: rest) acc = Raise e.
Proof.
  intros H Hbad. revert acc. induction H as [|keypair n keypairs names Hn _ IH];
    intros acc; simpl.
  - by rewrite Hbad.
  - by rewrite Hn, IH.
Qed.

(** X17. [list_keys] returns the ['KeyName'] of every key pair the
    provider lists, in the provider's order; a single entry without
    ['KeyName'] makes the whole call raise, and no name is returned. *)
Theorem list_keys_all_or_none (w : World B) response keypairs b1 :
  describe_key_pairs client (backend w) = (Ret response, b1) →
  response !! "KeyPairs" = Some (PList keypairs) →
  (∀ names,
     Forall2 (λ keypair n, subscript_key keypair "KeyName" = Ret n)
       keypairs names →
     list_keys client self w =
       (Ret names, mkWorld b1 (requests w ++ [DescribeKeyPairs]) (debug_log w))) ∧
  (∀ good names bad rest e,
     keypairs = good ++ bad :: rest →
     Forall2 (λ keypair n, subscript_key keypair "KeyName" = Ret n) good names →
     subscript_key bad "KeyName" = Raise e →
     list_keys client self w =
       (Raise e, mkWorld b1 (requests w ++ [DescribeKeyPairs]) (debug_log w))).
Proof.
  intros Hd Hk.
  assert (Hl : list_keys client self w =
            (key_names keypairs [],
             mkWorld b1 (requests w ++ [DescribeKeyPairs]) (debug_log w))).
  { unfold list_keys, bind. rewrite (invoke_request _ _ _ _ _ Hd).
    unfold lift, getitem. rewrite Hk. simpl.
    by destruct (key_names keypairs []). }
  split.
  - intros names Hall. by rewrite Hl, (key_names_all _ names).
  - intros good names bad rest e -> Hgood Hbad.
    by rewrite Hl, (key_names_stop good names bad rest [] e).
Qed.

End Facts.

(** A daily stream with an image, and a released stream without one. *)
Lemma image_first_or_IndexError_witness :
  daily_image Provider.api EC2.Provider.cloud "us-west-2" "xenial" "amd64" "ssd"
    (Provider.world (Provider.catalogue [Provider.xenial] [])) =
    (Ret "ami-0d1b5e2e",
     mkWorld (Provider.catalogue [Provider.xenial] [])
       [StreamsQuery
          ["arch=amd64"; "endpoint=https://ec2.us-west-2.amazonaws.com";
           "region=us-west-2"; "release=xenial"; "root_store=ssd"; "virt=hvm"]
          true]
       [("finding daily Ubuntu image for %s", PStr "xenial")]) ∧
  released_image Provider.api EC2.Provider.cloud "us-west-2" "xenial" "amd64" "ssd"
    (Provider.world (Provider.catalogue [Provider.xenial] [])) =
    (Raise IndexError,
     mkWorld (Provider.catalogue [Provider.xenial] [])
       [StreamsQuery
          ["arch=amd64"; "endpoint=https://ec2.us-west-2.amazonaws.com";
           "region=us-west-2"; "release=xenial"; "root_store=ssd"; "virt=hvm"]
          false]
       [("finding released Ubuntu image for %s", PStr "xenial")]).
Proof.
  split.
  - rewrite (image_first_or_IndexError Provider.api EC2.Provider.cloud
               "us-west-2" "xenial" "amd64" "ssd" true
               (Provider.world (Provider.catalogue [Provider.xenial] []))
               [Provider.xenial] _ eq_refl).
    by vm_compute.
  - by rewrite (image_first_or_IndexError Provider.api EC2.Provider.cloud
                  "us-west-2" "xenial" "amd64" "ssd" false
                  (Provider.world (Provider.catalogue [Provider.xenial] []))
                  [] _ eq_refl).
Defined.

(** An image that only the released stream knows. *)
Lemma image_serial_daily_then_released_witness :
  image_serial Provider.api EC2.Provider.cloud "ami-0d1b5e2e"
    (Provider.world (Provider.catalogue [] [Provider.xenial])) =
  (Ret "20190212",
   mkWorld (Provider.catalogue [] [Provider.xenial])
     [StreamsQuery ["id=ami-0d1b5e2e"] true;
      StreamsQuery ["id=ami-0d1b5e2e"] false]
     [("finding image serial for EC2 Ubuntu image %s", PStr "ami-0d1b5e2e")]).
Proof.
  destruct (image_serial_daily_then_released Provider.api EC2.Provider.cloud
              "ami-0d1b5e2e"
              (Provider.world (Provider.catalogue [] [Provider.xenial])))
    as [_ Hreleased].
  rewrite (Hreleased _ [Provider.xenial] _ eq_refl eq_refl).
  by vm_compute.
Defined.

(** An image with a snapshot behind it, and an image without a mapping. *)
Lemma delete_image_snapshot_id_first_witness :
  delete_image Provider.api EC2.Provider.cloud "ami-0d1b5e2e"
    (Provider.world (Provider.catalogue [] [])) =
    (Ret tt,
     mkWorld (Provider.catalogue [] [])
       [BlockDeviceMappings "ami-0d1b5e2e"; DeregisterImage "ami-0d1b5e2e";
        DeleteSnapshot (PStr "snap-07c9")]
       [("removing custom ami %s", PStr "ami-0d1b5e2e");
        ("removing custom snapshot %s", PStr "snap-07c9")]) ∧
  delete_image Provider.api EC2.Provider.cloud "ami-0d1b5e2e"
    (Provider.world (Provider.mkState [] [] (PList []) (PList []))) =
    (Raise IndexError,
     mkWorld (Provider.mkState [] [] (PList []) (PList []))
       [BlockDeviceMappings "ami-0d1b5e2e"] []).
Proof.
  split.
  - destruct (delete_image_snapshot_id_first Provider.api EC2.Provider.cloud
                "ami-0d1b5e2e" (Provider.world (Provider.catalogue [] []))
                _ _ eq_refl) as [_ Hid].
    destruct (Hid (PStr "snap-07c9") eq_refl) as [_ Hdone].
    exact (Hdone _ _ _ eq_refl eq_refl).
  - destruct (delete_image_snapshot_id_first Provider.api EC2.Provider.cloud
                "ami-0d1b5e2e"
                (Provider.world (Provider.mkState [] [] (PList []) (PList [])))
                _ _ eq_refl) as [Hraise _].
    exact (Hraise IndexError eq_refl).
Defined.

(** An upload without a name, from a cloud object that holds another
    key. *)
Lemma upload_key_imports_key_in_use_witness :
  upload_key Provider.api Provider.new_key_pair EC2.Provider.cloud
    "id_rsa.pub" None None (Provider.world (Provider.catalogue [] [])) =
  (Ret {| EC2.boto := EC2.Provider.api;
          EC2.tag := "examples";
          EC2.key_pair :=
            {| key_name := "examples"; public_key_content := "<id_rsa.pub>" |} |},
   mkWorld (Provider.catalogue [] [])
     [ImportKeyPair None "ssh-rsa AAAA"]
     [("uploading SSH key %s", PNone); ("using SSH key %s", PStr "examples")]).
Proof.
  destruct (upload_key_imports_key_in_use Provider.api Provider.new_key_pair
              EC2.Provider.cloud "id_rsa.pub" None None
              (Provider.world (Provider.catalogue [] []))) as [Hok _].
  exact (Hok _ eq_refl).
Defined.

(** [use_key] without a name, then the key name of a launch. *)
Lemma use_key_names_launch_key_witness :
  ∃ cloud w',
    use_key Provider.new_key_pair EC2.Provider.cloud "id_rsa.pub" None (Some "")
      (Provider.world (Provider.catalogue [] [])) = (Ret cloud, w') ∧
    EC2.request cloud "ami-base" "t2.micro" None ∅ None !! "KeyName" =
      Some (PStr "examples").
Proof.
  destruct (use_key_names_launch_key (B := Provider.state)
              Provider.new_key_pair EC2.Provider.cloud
              "id_rsa.pub" None (Some "")
              (Provider.world (Provider.catalogue [] []))
              (λ _ _ _, eq_refl))
    as (cloud & w' & Huse & _ & _ & _ & Hkey).
  exists cloud, w'. split; [exact Huse|].
  apply Hkey. by vm_compute.
Defined.

(** The two key pairs of the provider. *)
Lemma list_keys_all_or_none_witness :
  list_keys Provider.api EC2.Provider.cloud
    (Provider.world (Provider.catalogue [] [])) =
  (Ret [PStr "examples"; PStr "ci"],
   mkWorld (Provider.catalogue [] []) [DescribeKeyPairs] []).
Proof.
  destruct (list_keys_all_or_none Provider.api EC2.Provider.cloud
              (Provider.world (Provider.catalogue [] []))
              _ [PDict [("KeyName", PStr "examples")];
                 PDict [("KeyName", PStr "ci")]] _
              eq_refl ltac:(by vm_compute)) as [Hall _].
  apply Hall. by repeat constructor.
Defined.

End EC2_rest_facts.

(** ** [launch_multiple] *)

Module Example_ec2_facts.
Import Example_ec2.

Section Facts.
Context {B : Type}.
Variable instance_delete : EC2.EC2Instance → bool → B → outcome unit * B.
Variable instance_wait_for_delete : EC2.EC2Instance → B → outcome unit * B.

(** A launch without a vpc and without wait makes one request. *)
Lemma launch_one_request (ec2 : EC2.EC2 B) image_id instance_type user_data
    kwargs (w : EC2.World B) :
  EC2.calls (EC2.launch ec2 image_id instance_type user_data None false kwargs w).2 =
    EC2.calls w ++
      [EC2.CreateInstances
         (EC2.request ec2 image_id instance_type user_data kwargs None)].
Proof.
  rewrite EC2_facts.launch_no_vpc.
  unfold bind, EC2._log_debug, EC2.invoke, lift. simpl.
  destruct (EC2.create_instances _ _ _) as [[[|i0 more]|e|] b]; done.
Qed.

Lemma of_cloud_launch_step (ec2 : EC2.EC2 B) daily (w : World B) :
  steps (of_cloud (EC2.launch ec2 daily "t2.micro" None None false ∅) w).2 =
    steps w ++
      [Cloud (EC2.CreateInstances
                (EC2.request ec2 daily "t2.micro" None ∅ None))].
Proof.
  unfold of_cloud.
  pose proof (launch_one_request ec2 daily "t2.micro" None ∅
                (EC2.mkWorld (backend w) [] [])) as Hc.
  destruct (EC2.launch _ _ _ _ _ _ _ _) as [r w']. simpl in *.
  by rewrite Hc.
Qed.

(** A loop that appends the results of a call making one launch request
    each time: only launch requests, at most [n], and [n] when the loop
    comes to its end. *)
Lemma append_each_steps {A} (m : M (World B) A) n :
  (∀ w, ∃ s, is_launch s = true ∧ steps (m w).2 = steps w ++ [s]) →
  ∀ acc w,
    ∃ launches,
      steps (append_each n m acc w).2 = steps w ++ launches ∧
      Forall (λ s, is_launch s = true) launches ∧
      (length launches ≤ n)%nat ∧
      ∀ l, (append_each n m acc w).1 = Ret l →
           length launches = n ∧ length l = (length acc + n)%nat.
Proof.
  intros Hm. induction n as [|n IH]; intros acc w; simpl.
  - exists []. rewrite app_nil_r. split_and!; [done|constructor|done|].
    intros l [= <-]. split; [done|lia].
  - unfold bind. destruct (Hm w) as (s & Hs & Hsteps).
    destruct (m w) as [[x|e|] w1]; simpl in *.
    + destruct (IH (acc ++ [x]) w1) as (launches & Hl & Hall & Hlen & Hret).
      exists (s :: launches). rewrite Hl, Hsteps, <- app_assoc.
      split_and!; [done|by constructor|simpl; lia|].
      intros l Hr. destruct (Hret l Hr) as [H1 H2].
      rewrite length_app in H2. simpl in *. lia.
    + exists [s]. split_and!; [done|by repeat constructor|simpl; lia|done].
    + exists [s]. split_and!; [done|by repeat constructor|simpl; lia|done].
Qed.

(** A loop that performs one step for each item: the steps of a front part
    of the list, and of the whole list when the loop comes to its end. *)
Lemma for_each_steps {A} (mk : A → step) (f : A → B → outcome unit * B) l :
  ∀ w : World B,
    ∃ k,
      steps (for_each l (λ x, perform (mk x) (f x)) w).2 =
        steps w ++ (mk <$> take k l) ∧
      ((for_each l (λ x, perform (mk x) (f x)) w).1 = Ret tt →
       steps (for_each l (λ x, perform (mk x) (f x)) w).2 =
         steps w ++ (mk <$> l)).
Proof.
  set (body := λ x, perform (mk x) (f x)).
  induction l as [|x l IH]; intros w; simpl.
  - exists 0%nat. unfold ret. simpl. by rewrite app_nil_r.
  - unfold bind.
    assert (Hb : body x w =
              ((f x (backend w)).1,
               mkWorld (f x (backend w)).2 (steps w ++ [mk x]) (debug_log w))).
    { unfold body, perform. by destruct (f x (backend w)). }
    rewrite Hb. destruct (f x (backend w)) as [[[]|e|] b1]; simpl.
    + destruct (IH (mkWorld b1 (steps w ++ [mk x]) (debug_log w)))
        as (k & Hk & Hret).
      cbn [steps] in Hk, Hret. exists (S k). split.
      * etrans; [apply Hk|]. by rewrite <- app_assoc.
      * intros Hr. etrans; [apply (Hret Hr)|]. by rewrite <- app_assoc.
    + exists 1%nat. by destruct l.
    + exists 1%nat. by destruct l.
Qed.

Lemma fmap_not_launch {A} (mk : A → step) (l : list A) :
  (∀ x, is_launch (mk x) = false) →
  Forall (λ s, is_launch s = false) (mk <$> l).
Proof. intros H. apply Forall_fmap, Forall_forall. intros x _. apply H. Qed.

(** X18. In [launch_multiple] every launch is issued before anything is
    waited for: whatever the provider answers, the steps of the example are
    at most three [create_instances] requests followed by steps that are
    none, and a step that is none comes only after all three launches.
    When the example comes to its end, those later steps are the waits of
    the three instances, then their deletions without wait, then the waits
    for the deletions, each group in the order of the launches. *)
Theorem launch_multiple_issues_before_waiting (ec2 : EC2.EC2 B) daily (w : World B) :
  ∃ launches rest,
    steps (launch_multiple instance_delete instance_wait_for_delete ec2 daily w).2 =
      steps w ++ launches ++ rest ∧
    Forall (λ s, is_launch s = true) launches ∧
    (length launches ≤ 3)%nat ∧
    Forall (λ s, is_launch s = false) rest ∧
    (rest ≠ [] → length launches = 3%nat) ∧
    ((launch_multiple instance_delete instance_wait_for_delete ec2 daily w).1 =
       Ret tt →
     ∃ instances,
       length instances = 3%nat ∧
       rest =
         ((λ i, Cloud (EC2.InstanceWait i)) <$> instances) ++
         ((λ i, Delete i false) <$> instances) ++
         (WaitForDelete <$> instances)).
Proof.
  unfold launch_multiple, bind.
  assert (Hone : ∀ w0 : World B,
            ∃ s, is_launch s = true ∧
              steps (of_cloud (EC2.launch ec2 daily "t2.micro" None None false ∅)
                       w0).2 = steps w0 ++ [s]).
  { intros w0. eexists. split; [|apply of_cloud_launch_step]. done. }
  destruct (append_each_steps
              (of_cloud (EC2.launch ec2 daily "t2.micro" None None false ∅)) 3
              Hone [] w) as (launches & Hl & Hall & Hlen & Hret).
  destruct (append_each 3 _ [] w) as [[instances|e|] w1]; simpl in *;
    [|exists launches, []; rewrite app_nil_r;
      split_and!; [done|done|done|constructor|done|done]..].
  destruct (Hret instances eq_refl) as [Hlen3 Hinst].
  destruct (for_each_steps (λ i, Cloud (EC2.InstanceWait i))
              (EC2.instance_wait (EC2.boto ec2)) instances w1)
    as (k1 & Hk1 & Hr1).
  destruct (for_each instances _ w1) as [[[]|e|] w2]; simpl in *;
    [|exists launches, ((λ i, Cloud (EC2.InstanceWait i)) <$> take k1 instances);
      rewrite Hk1, Hl, <- app_assoc;
      split_and!; [done|done|done|by apply fmap_not_launch|done|done]..].
  specialize (Hr1 eq_refl).
  destruct (for_each_steps (λ i, Delete i false)
              (λ i, instance_delete i false) instances w2)
    as (k2 & Hk2 & Hr2).
  destruct (for_each instances _ w2) as [[[]|e|] w3]; simpl in *;
    [|exists launches,
        (((λ i, Cloud (EC2.InstanceWait i)) <$> instances) ++
         ((λ i, Delete i false) <$> take k2 instances));
      rewrite Hk2, Hr1, Hl, <- !app_assoc;
      split_and!; [done|done|done
                  |apply Forall_app; split; by apply fmap_not_launch
                  |done|done]..].
  specialize (Hr2 eq_refl).
  destruct (for_each_steps WaitForDelete instance_wait_for_delete instances w3)
    as (k3 & Hk3 & Hr3).
  destruct (for_each instances _ w3) as [[[]|e|] w4]; simpl in *.
  - specialize (Hr3 eq_refl).
    exists launches,
      (((λ i, Cloud (EC2.InstanceWait i)) <$> instances) ++
       ((λ i, Delete i false) <$> instances) ++ (WaitForDelete <$> instances)).
    rewrite Hr3, Hr2, Hr1, Hl, <- !app_assoc.
    split_and!; [done|done|done| |done|].
    + repeat (apply Forall_app; split); by apply fmap_not_launch.
    + intros _. exists instances. split; [|done]. simpl in Hinst. lia.
  - exists launches,
      (((λ i, Cloud (EC2.InstanceWait i)) <$> instances) ++
       ((λ i, Delete i false) <$> instances) ++
       (WaitForDelete <$> take k3 instances)).
    rewrite Hk3, Hr2, Hr1, Hl, <- !app_assoc.
    split_and!; [done|done|done| |done|done].
    repeat (apply Forall_app; split); by apply fmap_not_launch.
  - exists launches,
      (((λ i, Cloud (EC2.InstanceWait i)) <$> instances) ++
       ((λ i, Delete i false) <$> instances) ++
       (WaitForDelete <$> take k3 instances)).
    rewrite Hk3, Hr2, Hr1, Hl, <- !app_assoc.
    split_and!; [done|done|done| |done|done].
    repeat (apply Forall_app; split); by apply fmap_not_launch.
Qed.

End Facts.

(** The example at the provider of [EC2.Provider], with deletions that
    succeed: twelve steps, the three launches first. *)
Example launch_multiple_run :
  steps (launch_multiple (λ _ _ st, (Ret tt, st)) (λ _ st, (Ret tt, st))
           EC2.Provider.cloud "ami-base"
           (mkWorld EC2.Provider.fresh [] [])).2 =
  replicate 3
    (Cloud (EC2.CreateInstances
              (EC2.request EC2.Provider.cloud "ami-base" "t2.micro" None ∅ None))) ++
  [Cloud (EC2.InstanceWait EC2.Provider.handle);
   Cloud (EC2.InstanceWait EC2.Provider.handle);
   Cloud (EC2.InstanceWait EC2.Provider.handle);
   Delete EC2.Provider.handle false; Delete EC2.Provider.handle false;
   Delete EC2.Provider.handle false;
   WaitForDelete EC2.Provider.handle; WaitForDelete EC2.Provider.handle;
   WaitForDelete EC2.Provider.handle].
Proof. by vm_compute. Qed.

End Example_ec2_facts.
